(** * find-rank: mark-sheet extraction and cumulative ranking

    A shallow embedding of [app.py]: the per-line record extraction of
    [extract_marks_from_pdf], the batch driver [process_multiple_pdfs], and the
    two pandas views [calculate_cumulative_rankings] and
    [create_exam_wise_view], followed by the properties of these functions.

    Modelling conventions.
    - Text.  A Python [str] is a [string]; a character is a code point below
      256.  The classes [\d], [\s], [\w] of the [re] module (str patterns) and
      [str.strip] are the Unicode ones restricted to that range.
    - Regular expressions.  Each pattern of the source is written out as a
      backtracking matcher at one position (greedy and lazy repetition try
      their alternatives in the order [re] does), and [re.search] tries the
      positions from left to right.
    - Exceptions.  [pdfplumber.open] and [page.extract_text] are the only
      operations that can raise; they are inputs of type [outcome].
    - Data frames.  A frame is the list of its rows.  Integer columns are
      [Z]: every mark is a one or two digit number, so the 64-bit range of
      the pandas columns is out of reach.  [Average per Exam] is a binary64
      float, computed with the primitive floats.
    - [sort_values] is modelled by a stable insertion sort; the properties
      below use only that it sorts and permutes. *)

From Stdlib Require Import ZArith List String Ascii Bool Lia.
From Stdlib Require Import Permutation Sorted.
From Stdlib Require Import Floats.PrimFloat Numbers.Cyclic.Int63.Uint63.
Import ListNotations.

Local Open Scope string_scope.
Local Open Scope list_scope.
Local Open Scope Z_scope.

(** ** Characters and strings *)

Definition code (c : ascii) : N := N_of_ascii c.

Definition in_range (lo hi : N) (c : ascii) : bool :=
  (N.leb lo (code c) && N.leb (code c) hi)%bool.

(** [[0-9]], which is also [\d] below code point 256. *)
Definition is_digit (c : ascii) : bool := in_range 48 57 c.

(** [[A-Z]]. *)
Definition is_upper (c : ascii) : bool := in_range 65 90 c.

(** [\s] and [str.isspace]: tab to carriage return, the four separators
    0x1c-0x1f, space, NEL and the no-break space. *)
Definition is_space (c : ascii) : bool :=
  (in_range 9 13 c || in_range 28 31 c || N.eqb (code c) 32
   || N.eqb (code c) 133 || N.eqb (code c) 160)%bool.

(** [\w]: alphanumeric characters ([str.isalnum]) and the underscore. *)
Definition is_word (c : ascii) : bool :=
  (is_digit c || is_upper c || in_range 97 122 c || N.eqb (code c) 95
   || N.eqb (code c) 170 || N.eqb (code c) 178 || N.eqb (code c) 179
   || N.eqb (code c) 181 || N.eqb (code c) 185 || N.eqb (code c) 186
   || in_range 188 190 c || in_range 192 214 c || in_range 216 246 c
   || in_range 248 255 c)%bool.

Definition head (s : string) : option ascii :=
  match s with
  | EmptyString => None
  | String c _ => Some c
  end.

Definition word_at (o : option ascii) : bool :=
  match o with
  | Some c => is_word c
  | None => false
  end.

(** [\b] between the character before the position and the one after it. *)
Definition boundary (prev next : option ascii) : bool :=
  xorb (word_at prev) (word_at next).

(** [int(s)] on a string of decimal digits. *)
Definition digit_value (c : ascii) : Z := Z.of_N (code c) - 48.

Fixpoint int_acc (acc : Z) (s : string) : Z :=
  match s with
  | EmptyString => acc
  | String c r => int_acc (10 * acc + digit_value c) r
  end.

Definition int (s : string) : Z := int_acc 0 s.

(** [sub in s]. *)
Fixpoint contains (sub s : string) : bool :=
  if String.prefix sub s then true
  else match s with
       | EmptyString => false
       | String _ r => contains sub r
       end.

(** [s.split('\n')]. *)
Definition newline : ascii := ascii_of_N 10.

Fixpoint split_lines (s : string) : list string :=
  match s with
  | EmptyString => [EmptyString]
  | String c r =>
      if Ascii.eqb c newline then EmptyString :: split_lines r
      else match split_lines r with
           | [] => [String c EmptyString]
           | l :: ls => String c l :: ls
           end
  end.

(** [s.strip()]. *)
Fixpoint lstrip (s : string) : string :=
  match s with
  | EmptyString => EmptyString
  | String c r => if is_space c then lstrip r else s
  end.

Fixpoint rstrip (s : string) : string :=
  match s with
  | EmptyString => EmptyString
  | String c r =>
      match rstrip r with
      | EmptyString => if is_space c then EmptyString else String c EmptyString
      | r' => String c r'
      end
  end.

Definition strip (s : string) : string := rstrip (lstrip s).

(** ** Regular expressions

    A matcher at a position receives the character before the position (for
    [\b]) and the rest of the line. *)

Section Matchers.
Context {R : Type}.

Definition cont : Type := option ascii -> string -> option R.

Definition or_else (a b : option R) : option R :=
  match a with
  | Some r => Some r
  | None => b
  end.

(** [re.search]: the leftmost position at which the pattern matches. *)
Fixpoint search (m : cont) (prev : option ascii) (s : string) : option R :=
  match m prev s with
  | Some r => Some r
  | None =>
      match s with
      | EmptyString => None
      | String c r => search m (Some c) r
      end
  end.

(** One character of a class. *)
Definition one (p : ascii -> bool) (k : cont) : cont :=
  fun _ s =>
    match s with
    | String c r => if p c then k (Some c) r else None
    | EmptyString => None
    end.

(** A literal string. *)
Fixpoint lit (l : string) (k : cont) : cont :=
  match l with
  | EmptyString => k
  | String a l' => one (Ascii.eqb a) (lit l' k)
  end.

(** A sequence of single characters, each of the given class. *)
Fixpoint chars (ps : list (ascii -> bool)) (k : cont) : cont :=
  match ps with
  | [] => k
  | p :: ps' => one p (chars ps' k)
  end.

(** [\b]. *)
Definition wordb (k : cont) : cont :=
  fun prev s => if boundary prev (head s) then k prev s else None.

(** [\s*], greedy: as many as possible, giving one back at a time. *)
Fixpoint spaces_star (k : cont) (prev : option ascii) (s : string) : option R :=
  match s with
  | String c r =>
      if is_space c then or_else (spaces_star k (Some c) r) (k prev s)
      else k prev s
  | EmptyString => k prev s
  end.

(** [\s+]. *)
Definition spaces_plus (k : cont) : cont := one is_space (spaces_star k).

(** [(\d{1,2})], greedy: two digits are tried before one.  The
    continuation receives the text of the group. *)
Definition digits12 (k : string -> cont) : cont :=
  fun _ s =>
    match s with
    | String c1 r1 =>
        if is_digit c1 then
          or_else
            match r1 with
            | String c2 r2 =>
                if is_digit c2
                then k (String c1 (String c2 EmptyString)) (Some c2) r2
                else None
            | EmptyString => None
            end
            (k (String c1 EmptyString) (Some c1) r1)
        else None
    | EmptyString => None
    end.

(** [(.+?)], lazy: after each character (any but a newline) the rest of
    the pattern is tried before a further character is taken.  [acc] holds
    the characters taken so far, last one first. *)
Fixpoint any_lazy (acc : string) (k : string -> cont) (s : string) : option R :=
  match s with
  | String c r =>
      if Ascii.eqb c newline then None
      else or_else (k (String c acc) (Some c) r) (any_lazy (String c acc) k r)
  | EmptyString => None
  end.
End Matchers.

Fixpoint rev_string (acc s : string) : string :=
  match s with
  | EmptyString => acc
  | String c r => rev_string (String c acc) r
  end.

(** [\b(2[34]14[0-9]{8})\b]; the result is group 1, the twelve characters
    from the position of the match. *)
Definition is_3_or_4 (c : ascii) : bool := in_range 51 52 c.

Definition enrollment_classes : list (ascii -> bool) :=
  Ascii.eqb "2" :: is_3_or_4 :: Ascii.eqb "1" :: Ascii.eqb "4" :: repeat is_digit 8.

Definition enrollment_re : @cont string :=
  fun prev s =>
    wordb (chars enrollment_classes
             (wordb (fun _ _ => Some (String.substring 0 12 s))))
      prev s.

(** [\b(\d{1,2})\s+(\d{1,2})\s+(\d{1,2})\b]; the result is the three groups. *)
Definition marks_re : @cont (string * string * string) :=
  wordb
    (digits12 (fun g1 => spaces_plus
    (digits12 (fun g2 => spaces_plus
    (digits12 (fun g3 => wordb (fun _ _ => Some (g1, g2, g3)))))))).

(** [CSE\(AIML\)\s+D[12]\s+(.+?)\s+[A-Z]{3}]; the result is group 1. *)
Definition is_1_or_2 (c : ascii) : bool := in_range 49 50 c.

Definition name_re : @cont string :=
  lit "CSE(AIML)" (spaces_plus (lit "D" (one is_1_or_2 (spaces_plus
    (fun _ s =>
       any_lazy EmptyString
         (fun g => spaces_plus (one is_upper (one is_upper (one is_upper
            (fun _ _ => Some (rev_string EmptyString g))))))
         s))))).

Definition re_search {R : Type} (m : @cont R) (line : string) : option R :=
  search m None line.

(** ** Records *)

(** A row of the extracted data: the dictionary appended to [data].  The
    key ['Status'] is present in the absent-student rows only. *)
Record record : Type := mk_record {
  Enrollment_No : string;
  Name : string;
  Section_A : Z;
  Section_B : Z;
  Total_Marks : Z;
  Source_File : string;
  Status : option string
}.

Definition DataFrame : Type := list record.

(** [df.empty] *)
Definition empty {A : Type} (df : list A) : bool :=
  match df with
  | [] => true
  | _ :: _ => false
  end.

(** ** Exceptions *)

Inductive outcome (A : Type) : Type :=
| Returns (a : A)
| Raises.
Arguments Returns {A} a.
Arguments Raises {A}.

Definition bind {A B : Type} (x : outcome A) (f : A -> outcome B) : outcome B :=
  match x with
  | Returns a => f a
  | Raises => Raises
  end.

Notation "x <- e ;; k" := (bind e (fun x => k))
  (at level 61, e at next level, right associativity).

(** [try: body except Exception: handler] *)
Definition try_except {A : Type} (body : outcome A) (handler : outcome A) : outcome A :=
  match body with
  | Returns a => Returns a
  | Raises => handler
  end.

(** An uploaded file: its name, and what [pdfplumber] makes of it.  Opening
    it raises, or gives the pages; [extract_text] on a page raises, or gives
    [None] or the text. *)
Record UploadedFile : Type := mk_file {
  name : string;
  open_pdf : outcome (list (outcome (option string)))
}.

(** ** [extract_marks_from_pdf] *)

Definition enrollment_search (line : string) : option string :=
  re_search enrollment_re line.

Definition name_search (line : string) : option string :=
  re_search name_re line.

Definition marks_search (line : string) : option (string * string * string) :=
  re_search marks_re line.

(** The test of line 51. *)
Definition marks_make_sense (section_a section_b total : Z) : bool :=
  Z.abs ((section_a + section_b) - total) <=? 1.

(** The loop [for offset in range(4)] from the offsets still to visit.  It
    returns the validated triple at which the loop breaks, or [None] when the
    loop runs to its end ([marks_found] stays [False]). *)
Fixpoint marks_loop (lines : list string) (i : nat) (offsets : list nat)
  : option (Z * Z * Z) :=
  match offsets with
  | [] => None
  | offset :: rest =>
      match nth_error lines (i + offset) with
      | Some check_line =>
          match marks_search check_line with
          | Some (g1, g2, g3) =>
              let section_a := int g1 in
              let section_b := int g2 in
              let total := int g3 in
              if marks_make_sense section_a section_b total
              then Some (section_a, section_b, total)
              else marks_loop lines i rest
          | None => marks_loop lines i rest
          end
      | None => marks_loop lines i rest
      end
  end.

Definition range (n : nat) : list nat := seq 0 n.

Definition present_record (file_name enrollment_no nm : string) (m : Z * Z * Z) : record :=
  let '(section_a, section_b, total) := m in
  {| Enrollment_No := enrollment_no; Name := nm;
     Section_A := section_a; Section_B := section_b; Total_Marks := total;
     Source_File := file_name; Status := None |}.

Definition absent_record (file_name enrollment_no nm : string) : record :=
  {| Enrollment_No := enrollment_no; Name := nm;
     Section_A := 0; Section_B := 0; Total_Marks := 0;
     Source_File := file_name; Status := Some "Absent" |}.

(** Pattern 2, reached when [marks_found] is false. *)
Definition absent_step (file_name enrollment_no nm : string)
    (lines : list string) (i : nat) (data : DataFrame) : DataFrame :=
  match nth_error lines (i + 1) with
  | Some check_line =>
      if contains "AB" check_line
      then data ++ [absent_record file_name enrollment_no nm]
      else data
  | None => data
  end.

(** The body of [for i, line in enumerate(lines)], with [data] threaded. *)
Definition line_step (file_name : string) (lines : list string)
    (data : DataFrame) (i : nat) (line : string) : DataFrame :=
  match enrollment_search line with
  | Some enrollment_no =>
      let nm := match name_search line with
                | Some g => strip g
                | None => "Unknown"
                end in
      match marks_loop lines i (range 4) with
      | Some m => data ++ [present_record file_name enrollment_no nm m]
      | None => absent_step file_name enrollment_no nm lines i data
      end
  | None => data
  end.

Fixpoint lines_loop (file_name : string) (lines : list string)
    (data : DataFrame) (i : nat) (todo : list string) : DataFrame :=
  match todo with
  | [] => data
  | line :: rest =>
      lines_loop file_name lines (line_step file_name lines data i line) (S i) rest
  end.

(** One page whose text was extracted. *)
Definition page_step (file_name : string) (data : DataFrame) (text : option string)
  : DataFrame :=
  match text with
  | None => data
  | Some EmptyString => data
  | Some t => let lines := split_lines t in lines_loop file_name lines data 0%nat lines
  end.

Fixpoint pages_loop (file_name : string) (data : DataFrame)
    (pages : list (outcome (option string))) : outcome DataFrame :=
  match pages with
  | [] => Returns data
  | page :: rest =>
      text <- page ;;
      pages_loop file_name (page_step file_name data text) rest
  end.

Definition extract_marks_from_pdf (pdf_file : UploadedFile) : outcome DataFrame :=
  try_except
    (pages <- open_pdf pdf_file ;; pages_loop (name pdf_file) [] pages)
    (Returns []).

(** ** [process_multiple_pdfs] *)

(** The loop over the uploaded files, with [all_data] threaded; the
    messages and the progress bar are left out. *)
Fixpoint files_loop (all_data : list DataFrame) (uploaded_files : list UploadedFile)
  : outcome (list DataFrame) :=
  match uploaded_files with
  | [] => Returns all_data
  | uploaded_file :: rest =>
      all_data' <- try_except
                     (df <- extract_marks_from_pdf uploaded_file ;;
                      Returns (if negb (empty df) then all_data ++ [df] else all_data))
                     (Returns all_data) ;;
      files_loop all_data' rest
  end.

(** [pd.concat(frames, ignore_index=True)] *)
Definition pd_concat {A : Type} (frames : list (list A)) : list A := List.concat frames.

Definition process_multiple_pdfs (uploaded_files : list UploadedFile) : outcome DataFrame :=
  all_data <- files_loop [] uploaded_files ;;
  if negb (empty all_data) then Returns (pd_concat all_data) else Returns [].

(** ** Frame operations *)

Section Frames.
Context {A : Type}.

(** [Series.unique()]: the distinct values, in order of first appearance. *)
Fixpoint unique (eqb : A -> A -> bool) (l : list A) : list A :=
  match l with
  | [] => []
  | x :: r => x :: filter (fun y => negb (eqb x y)) (unique eqb r)
  end.

(** Sorting by a comparison, stable. *)
Fixpoint insert (leb : A -> A -> bool) (x : A) (l : list A) : list A :=
  match l with
  | [] => [x]
  | y :: r => if leb x y then x :: y :: r else y :: insert leb x r
  end.

Fixpoint sort (leb : A -> A -> bool) (l : list A) : list A :=
  match l with
  | [] => []
  | x :: r => insert leb x (sort leb r)
  end.

(** [aggfunc='first'] *)
Definition agg_first {B : Type} (f : A -> B) (group : list A) : option B :=
  match group with
  | [] => None
  | r :: _ => Some (f r)
  end.

(** [aggfunc='sum'] *)
Definition agg_sum (f : A -> Z) (group : list A) : Z :=
  fold_left (fun acc r => acc + f r) group 0.
End Frames.

(** The position, counted from [i], of the first element equal to [v]. *)
Fixpoint run_start (i : Z) (v : Z) (sorted : list Z) : Z :=
  match sorted with
  | [] => i
  | x :: r => if x =? v then i else run_start (i + 1) v r
  end.

(** [Series.rank(method='min', ascending=False).astype(int)]: the values are
    put in descending order, and every member of a run of equal values gets
    the position, counted from 1, at which the run starts. *)
Definition rank_min_descending (values : list Z) : list Z :=
  let sorted := sort Z.geb values in
  map (fun v => run_start 1 v sorted) values.

(** Conversion of an integer column to float64. *)
Definition float_of_Z (z : Z) : float :=
  if z <? 0 then PrimFloat.opp (PrimFloat.of_uint63 (Uint63.of_Z (- z)))
  else PrimFloat.of_uint63 (Uint63.of_Z z).

(** [np.rint]: the nearest integer, ties to even.  Below 2^52 adding and
    subtracting 2^52 rounds to an integer in the default rounding mode; from
    2^52 on every float is an integer. *)
Definition two52 : float := float_of_Z (2 ^ 52).

Definition rint (x : float) : float :=
  let a := PrimFloat.abs x in
  if PrimFloat.ltb a two52 then
    let r := PrimFloat.sub (PrimFloat.add a two52) two52 in
    if PrimFloat.ltb x PrimFloat.zero then PrimFloat.opp r else r
  else x.

(** [Series.round(2)] on float64: [np.rint(x * 100) / 100]. *)
Definition round2 (x : float) : float :=
  PrimFloat.div (rint (PrimFloat.mul x (float_of_Z 100))) (float_of_Z 100).

(** ** [calculate_cumulative_rankings] *)

(** A row of [cumulative_data] after [groupby(...).agg(...).reset_index()]
    and the renaming of the columns. *)
Record group_row : Type := mk_group {
  g_Enrollment_No : string;
  g_Name : string;
  g_Cumulative_Total : Z;
  g_Total_Section_A : Z;
  g_Total_Section_B : Z;
  g_Source_Files : list string
}.

Definition group_of (key : string) (all_data : DataFrame) : DataFrame :=
  filter (fun r => String.eqb (Enrollment_No r) key) all_data.

Definition agg (key : string) (group : DataFrame) : group_row :=
  {| g_Enrollment_No := key;
     g_Name := match agg_first Name group with Some n => n | None => "" end;
     g_Cumulative_Total := agg_sum Total_Marks group;
     g_Total_Section_A := agg_sum Section_A group;
     g_Total_Section_B := agg_sum Section_B group;
     g_Source_Files := unique String.eqb (map Source_File group) |}.

(** [groupby] sorts the group keys. *)
Definition group_keys (all_data : DataFrame) : list string :=
  sort String.leb (unique String.eqb (map Enrollment_No all_data)).

Definition groupby_agg (all_data : DataFrame) : list group_row :=
  map (fun key => agg key (group_of key all_data)) (group_keys all_data).

(** A row of the returned frame. *)
Record cumulative_row : Type := mk_cumulative {
  c_Enrollment_No : string;
  c_Name : string;
  Cumulative_Total : Z;
  Total_Section_A : Z;
  Total_Section_B : Z;
  Source_Files : string;
  Exam_Count : Z;
  Average_per_Exam : float;
  Rank : Z
}.

Definition cumulative_row_of (g : group_row) (rank : Z) : cumulative_row :=
  let exam_count := Z.of_nat (List.length (g_Source_Files g)) in
  {| c_Enrollment_No := g_Enrollment_No g;
     c_Name := g_Name g;
     Cumulative_Total := g_Cumulative_Total g;
     Total_Section_A := g_Total_Section_A g;
     Total_Section_B := g_Total_Section_B g;
     Source_Files := String.concat ", " (g_Source_Files g);
     Exam_Count := exam_count;
     Average_per_Exam :=
       round2 (PrimFloat.div (float_of_Z (g_Cumulative_Total g)) (float_of_Z exam_count));
     Rank := rank |}.

Definition by_rank {A : Type} (rank : A -> Z) (x y : A) : bool := rank x <=? rank y.

Definition calculate_cumulative_rankings (all_data : DataFrame) : list cumulative_row :=
  if empty all_data then []
  else
    let cumulative_data := groupby_agg all_data in
    let ranks := rank_min_descending (map g_Cumulative_Total cumulative_data) in
    sort (by_rank Rank)
      (map (fun gr => cumulative_row_of (fst gr) (snd gr)) (combine cumulative_data ranks)).

(** ** [create_exam_wise_view] *)

(** A row of the pivot: the two index columns, one cell per source file (in
    column order; [None] is the missing value), the row total and the rank. *)
Record exam_row : Type := mk_exam_row {
  e_Enrollment_No : string;
  e_Name : string;
  e_Exams : list (string * option Z);
  e_Cumulative_Total : Z;
  e_Rank : Z
}.

Definition pair_eqb (x y : string * string) : bool :=
  (String.eqb (fst x) (fst y) && String.eqb (snd x) (snd y))%bool.

Definition pair_leb (x y : string * string) : bool :=
  match String.compare (fst x) (fst y) with
  | Lt => true
  | Eq => String.leb (snd x) (snd y)
  | Gt => false
  end.

Definition index_of (r : record) : string * string := (Enrollment_No r, Name r).

Definition pivot_index (all_data : DataFrame) : list (string * string) :=
  sort pair_leb (unique pair_eqb (map index_of all_data)).

Definition pivot_columns (all_data : DataFrame) : list string :=
  sort String.leb (unique String.eqb (map Source_File all_data)).

(** The cell of a row and a column: [aggfunc='first'] over the records of
    that student in that file, missing when there is none. *)
Definition cell (all_data : DataFrame) (key : string * string) (col : string) : option Z :=
  agg_first Total_Marks
    (filter (fun r => (pair_eqb (index_of r) key && String.eqb (Source_File r) col)%bool)
       all_data).

(** [sum(axis=1)], which skips the missing values. *)
Definition row_sum (cells : list (string * option Z)) : Z :=
  agg_sum (fun c => match snd c with Some v => v | None => 0 end) cells.

Definition pivot_row (all_data : DataFrame) (columns : list string)
    (key : string * string) : list (string * option Z) :=
  map (fun col => (col, cell all_data key col)) columns.

Definition exam_row_of (kc : (string * string) * list (string * option Z)) (rank : Z)
  : exam_row :=
  {| e_Enrollment_No := fst (fst kc);
     e_Name := snd (fst kc);
     e_Exams := snd kc;
     e_Cumulative_Total := row_sum (snd kc);
     e_Rank := rank |}.

Definition create_exam_wise_view (all_data : DataFrame) : list exam_row :=
  if empty all_data then []
  else
    let columns := pivot_columns all_data in
    let pivot_data :=
      map (fun key => (key, pivot_row all_data columns key)) (pivot_index all_data) in
    let ranks := rank_min_descending (map (fun kc => row_sum (snd kc)) pivot_data) in
    sort (by_rank e_Rank)
      (map (fun kr => exam_row_of (fst kr) (snd kr)) (combine pivot_data ranks)).

(** ** The results section of [main] *)

(** [cumulative_data.iloc[0]], which raises on a frame without rows. *)
Definition iloc_0 {A : Type} (df : list A) : outcome A :=
  match df with
  | [] => Raises
  | row :: _ => Returns row
  end.

(** [Series.max()] and [Series.min()] of an integer column; [None] is the
    NaN of an empty column. *)
Definition series_max (col : list Z) : option Z :=
  match col with
  | [] => None
  | x :: r => Some (fold_left Z.max r x)
  end.

Definition series_min (col : list Z) : option Z :=
  match col with
  | [] => None
  | x :: r => Some (fold_left Z.min r x)
  end.

(** The metrics "Total Students", "Highest Score" and "Lowest Score". *)
Definition total_students (cumulative_data : list cumulative_row) : nat :=
  List.length cumulative_data.

Definition highest_score (cumulative_data : list cumulative_row) : option Z :=
  series_max (map Cumulative_Total cumulative_data).

Definition lowest_score (cumulative_data : list cumulative_row) : option Z :=
  series_min (map Cumulative_Total cumulative_data).

(** [display_cols]: the eight columns shown in the rankings tab. *)
Definition display_cols : list string :=
  ["Rank"; "Enrollment No"; "Name"; "Cumulative Total";
   "Total Section A"; "Total Section B"; "Average per Exam"; "Exam Count"].

(** [highlight_top3], applied to a row of [display_df]: one style per
    column. *)
Definition highlight_top3 (row : cumulative_row) : list string :=
  if Rank row <=? 3
  then repeat "background-color: #90EE90" (List.length display_cols)
  else repeat "" (List.length display_cols).

(** [top_10]: the first ten rows, name and total, the name cut to twenty
    characters. *)
Definition top_10 (cumulative_data : list cumulative_row) : list (string * Z) :=
  map (fun row => (String.substring 0 20 (c_Name row), Cumulative_Total row))
    (firstn 10 cumulative_data).

(** ** Notions used in the statements *)

(** The triple a line contributes to the window search: the leftmost match
    of the marks pattern, when it passes the test of line 51. *)
Definition line_triple (check_line : string) : option (Z * Z * Z) :=
  match marks_search check_line with
  | Some (g1, g2, g3) =>
      if marks_make_sense (int g1) (int g2) (int g3)
      then Some (int g1, int g2, int g3)
      else None
  | None => None
  end.

Definition window_triple (lines : list string) (n : nat) : option (Z * Z * Z) :=
  match nth_error lines n with
  | Some check_line => line_triple check_line
  | None => None
  end.

(** The name recorded for a line. *)
Definition resolve_name (line : string) : string :=
  match name_search line with
  | Some g => strip g
  | None => "Unknown"
  end.

(** A string made of one character of each class in turn. *)
Fixpoint has_classes (ps : list (ascii -> bool)) (s : string) : bool :=
  match ps, s with
  | [], EmptyString => true
  | p :: ps', String c r => (p c && has_classes ps' r)%bool
  | _, _ => false
  end.

(** The identifier shape: what [2[34]14[0-9]{8}] matches in full. *)
Definition identifier_shape (s : string) : bool :=
  has_classes enrollment_classes s.

(** The character before the position reached after [s], when [prev] was
    the character before [s]. *)
Fixpoint last_char (prev : option ascii) (s : string) : option ascii :=
  match s with
  | EmptyString => prev
  | String c r => last_char (Some c) r
  end.

(** [id] occurs in [line] between [pre] and [post], with no word character
    next to it on either side. *)
Definition bounded_occurrence (line pre id post : string) : Prop :=
  line = (pre ++ id ++ post)%string /\
  identifier_shape id = true /\
  word_at (last_char None pre) = false /\
  word_at (head post) = false.

(** The records one line of a page contributes: the step run on an empty
    frame. *)
Definition line_records (file_name : string) (lines : list string) (il : nat * string)
  : DataFrame :=
  line_step file_name lines [] (fst il) (snd il).

(** [enumerate(lines)] *)
Definition enumerate {A : Type} (l : list A) : list (nat * A) :=
  combine (seq 0 (List.length l)) l.

(** Line [il] bears the identifier [x] and a score is located for it. *)
Definition scored_occurrence (file_name : string) (lines : list string) (x : string)
    (il : nat * string) : bool :=
  match enrollment_search (snd il) with
  | Some e => (String.eqb e x && negb (empty (line_records file_name lines il)))%bool
  | None => false
  end.

(** The texts of the pages, when [extract_text] raises on none of them. *)
Fixpoint page_texts (pages : list (outcome (option string))) : option (list (option string)) :=
  match pages with
  | [] => Some []
  | Raises :: _ => None
  | Returns text :: rest =>
      match page_texts rest with
      | Some texts => Some (text :: texts)
      | None => None
      end
  end.

(** The records of a document that is processed without an exception, and
    no record for a document on which opening or text extraction raises. *)
Definition document_records (f : UploadedFile) : DataFrame :=
  match open_pdf f with
  | Raises => []
  | Returns pages =>
      match page_texts pages with
      | Some texts => fold_left (page_step (name f)) texts []
      | None => []
      end
  end.

(** Processing the document raises: on opening it or on one of its pages. *)
Definition unreadable (f : UploadedFile) : Prop :=
  open_pdf f = Raises \/ exists pages, open_pdf f = Returns pages /\ In Raises pages.

(** The document opens and none of its pages has a text layer. *)
Definition no_content (f : UploadedFile) : Prop :=
  exists pages,
    open_pdf f = Returns pages /\
    Forall (fun page => page = Returns None \/ page = Returns (Some "")) pages.

(** The number of values strictly above [v]. *)
Definition above (v : Z) (values : list Z) : Z :=
  Z.of_nat (List.length (filter (fun w => v <? w) values)).

(** The last two steps of both views: rank the rows by their totals, then
    sort them by rank.  [mk] makes a row from what is known before ranking
    and the rank. *)
Definition rank_and_sort {G A : Type} (mk : G -> Z -> A) (rank : A -> Z)
    (gtotal : G -> Z) (groups : list G) : list A :=
  sort (by_rank rank)
    (map (fun gr => mk (fst gr) (snd gr))
       (combine groups (rank_min_descending (map gtotal groups)))).

(** Rounding the quotient [p / q] to the nearest integer, ties to even, in
    exact arithmetic. *)
Definition half_even (p q : Z) : Z :=
  let k := p / q in
  let r := p mod q in
  if 2 * r <? q then k
  else if q <? 2 * r then k + 1
  else if Z.even k then k else k + 1.

(** [round2] of the float quotient agrees with [half_even] on the
    hundredths. *)
Definition round2_exact (total count : Z) : bool :=
  PrimFloat.eqb
    (round2 (PrimFloat.div (float_of_Z total) (float_of_Z count)))
    (PrimFloat.div (float_of_Z (half_even (100 * total) count)) (float_of_Z 100)).

(** Every character of the string is in the class. *)
Fixpoint all_chars (p : ascii -> bool) (s : string) : bool :=
  match s with
  | EmptyString => true
  | String c r => (p c && all_chars p r)%bool
  end.

(** One or two digits. *)
Definition digits_1_2 (g : string) : bool :=
  (all_chars is_digit g
   && (Nat.eqb (String.length g) 1 || Nat.eqb (String.length g) 2))%bool.

(** A non-empty run of whitespace. *)
Definition blank (ws : string) : bool :=
  (all_chars is_space ws && negb (Nat.eqb (String.length ws) 0))%bool.

(** What the data model asks of a record: an identifier of the right
    shape, marks of at most two digits, and either a present record whose
    total is within one mark of the section sum or an absent record with all
    marks zero. *)
Definition well_formed (r : record) : Prop :=
  identifier_shape (Enrollment_No r) = true /\
  0 <= Section_A r <= 99 /\ 0 <= Section_B r <= 99 /\ 0 <= Total_Marks r <= 99 /\
  ((Status r = None /\ Z.abs (Section_A r + Section_B r - Total_Marks r) <= 1) \/
   (Status r = Some "Absent" /\
    Section_A r = 0 /\ Section_B r = 0 /\ Total_Marks r = 0)).

(** The sum of a column. *)
Definition total_of {A : Type} (f : A -> Z) (rows : list A) : Z :=
  fold_right Z.add 0 (map f rows).

(** Three groups of one or two digits stand in [line] after [pre],
    separated by whitespace only, with no word character next to the first
    digit or to the last one. *)
Definition triple_occurrence (line pre g1 g2 g3 : string) : Prop :=
  exists ws1 ws2 post,
    line = (pre ++ g1 ++ ws1 ++ g2 ++ ws2 ++ g3 ++ post)%string /\
    digits_1_2 g1 = true /\ digits_1_2 g2 = true /\ digits_1_2 g3 = true /\
    blank ws1 = true /\ blank ws2 = true /\
    word_at (last_char None pre) = false /\ word_at (head post) = false.

(** Any character but a newline: the class of [.]. *)
Definition not_newline (c : ascii) : bool := negb (Ascii.eqb c newline).

(** The text [g] stands in [line] where the name pattern wants it: after
    the marker, whitespace, [D1] or [D2] and whitespace, and before whitespace
    and three capital letters. *)
Definition name_occurrence (line g : string) : Prop :=
  exists pre ws1 d ws2 ws3 u post,
    line = (pre ++ "CSE(AIML)" ++ ws1 ++ "D" ++ String d "" ++ ws2
                ++ g ++ ws3 ++ u ++ post)%string /\
    blank ws1 = true /\ is_1_or_2 d = true /\ blank ws2 = true /\
    g <> "" /\ all_chars not_newline g = true /\
    blank ws3 = true /\ has_classes [is_upper; is_upper; is_upper] u = true.

(** The line bears an identifier. *)
Definition has_identifier (line : string) : bool :=
  match enrollment_search line with
  | Some _ => true
  | None => false
  end.

(** Rounding the quotient [p / q] to the nearest integer, ties upwards, in
    exact arithmetic. *)
Definition half_up (p q : Z) : Z := (2 * p + q) / (2 * q).

(** The [k] consecutive integers from [z] on. *)
Fixpoint consecutive (k : nat) (z : Z) : list Z :=
  match k with
  | O => []
  | S k' => z :: consecutive k' (z + 1)
  end.

(** One student sitting forty exams: 23 marks in the first file and absent
    in the thirty-nine others. *)
Definition forty_exams : DataFrame :=
  present_record "exam00.pdf" "231430142054" "ASHA" (10, 13, 23)
  :: map (fun k => absent_record
                     (String (ascii_of_nat (48 + k / 10))
                        (String (ascii_of_nat (48 + k mod 10)) ".pdf"))
                     "231430142054" "ASHA")
       (seq 1 39).

(** * Properties *)

(** ** The window search *)

Lemma marks_loop_cons lines i offset rest :
  marks_loop lines i (offset :: rest) =
  match window_triple lines (i + offset) with
  | Some m => Some m
  | None => marks_loop lines i rest
  end.
Proof.
  unfold window_triple, line_triple. simpl.
  destruct (nth_error lines (i + offset)) as [check_line|]; [|reflexivity].
  destruct (marks_search check_line) as [[[g1 g2] g3]|]; [|reflexivity].
  destruct (marks_make_sense (int g1) (int g2) (int g3)); reflexivity.
Qed.

Lemma marks_loop_seq lines i m : forall n start,
  marks_loop lines i (seq start n) = Some m <->
  exists k, (start <= k < start + n)%nat /\ window_triple lines (i + k) = Some m /\
            forall j, (start <= j < k)%nat -> window_triple lines (i + j) = None.
Proof.
  induction n as [|n IH]; intros start.
  - simpl. split; [discriminate|]. intros (k & Hk & _). lia.
  - cbn [seq]. rewrite marks_loop_cons.
    destruct (window_triple lines (i + start)) as [m0|] eqn:E.
    + split.
      * intros H. exists start. repeat split; try lia; congruence.
      * intros (k & Hk & Hm & Hbefore).
        destruct (Nat.eq_dec k start) as [->|Hne]; [congruence|].
        rewrite (Hbefore start) in E by lia. discriminate.
    + rewrite IH. split.
      * intros (k & Hk & Hm & Hbefore). exists k. repeat split; try lia; trivial.
        intros j Hj. destruct (Nat.eq_dec j start) as [->|Hne]; [exact E|].
        apply Hbefore. lia.
      * intros (k & Hk & Hm & Hbefore).
        destruct (Nat.eq_dec k start) as [->|Hne]; [congruence|].
        exists k. repeat split; try lia; trivial.
        intros j Hj. apply Hbefore. lia.
Qed.

Lemma marks_loop_none lines i : forall offsets,
  marks_loop lines i offsets = None <->
  forall k, In k offsets -> window_triple lines (i + k) = None.
Proof.
  induction offsets as [|offset rest IH].
  - simpl. split; [intros _ k []|reflexivity].
  - rewrite marks_loop_cons.
    destruct (window_triple lines (i + offset)) as [m0|] eqn:E.
    + split; [discriminate|]. intros H. rewrite (H offset) in E by (left; reflexivity).
      discriminate.
    + rewrite IH. split.
      * intros H k [<-|Hk]; [exact E|apply H, Hk].
      * intros H k Hk. apply H. right. exact Hk.
Qed.

Lemma marks_loop_window lines lines' i : forall offsets,
  (forall k, In k offsets -> nth_error lines' (i + k) = nth_error lines (i + k)) ->
  marks_loop lines' i offsets = marks_loop lines i offsets.
Proof.
  induction offsets as [|offset rest IH]; intros H; [reflexivity|].
  rewrite !marks_loop_cons. unfold window_triple.
  rewrite (H offset) by (left; reflexivity).
  rewrite IH; [reflexivity|]. intros k Hk. apply H. right. exact Hk.
Qed.

Lemma in_range_4 k : In k (range 4) <-> (k < 4)%nat.
Proof. unfold range. rewrite in_seq. lia. Qed.

Lemma marks_loop_range_4 lines i :
  (forall m,
      (exists k, (k < 4)%nat /\ window_triple lines (i + k) = Some m /\
                 forall j, (j < k)%nat -> window_triple lines (i + j) = None) ->
      marks_loop lines i (range 4) = Some m) /\
  (forall m,
      marks_loop lines i (range 4) = Some m ->
      exists k, (k < 4)%nat /\ window_triple lines (i + k) = Some m /\
                forall j, (j < k)%nat -> window_triple lines (i + j) = None).
Proof.
  split; intros m; unfold range; rewrite marks_loop_seq.
  - intros (k & Hk & Hm & Hb). exists k. repeat split; trivial; try lia.
    intros j Hj. apply Hb. lia.
  - intros (k & Hk & Hm & Hb). exists k. repeat split; trivial; try lia.
    intros j Hj. apply Hb. lia.
Qed.

(** ** C3 *)

(** C3. The validator accepts a triple exactly when the section sum and the
    total differ by at most one mark, and rejects every triple that is off by
    two or more.  In the window loop a line whose leftmost triple is
    (a, b, t) ends the loop with that triple when it is accepted and is
    passed over when it is rejected; on a page of a single line that bears an
    identifier, a record with these marks is appended when the triple is
    accepted and nothing is appended when it is rejected. *)
Theorem record_validator_tolerance (a b t : Z) :
  (marks_make_sense a b t = true <-> Z.abs (a + b - t) <= 1) /\
  (2 <= Z.abs (a + b - t) -> marks_make_sense a b t = false) /\
  (forall lines i offset rest check_line g1 g2 g3,
      nth_error lines (i + offset) = Some check_line ->
      marks_search check_line = Some (g1, g2, g3) ->
      int g1 = a -> int g2 = b -> int g3 = t ->
      marks_loop lines i (offset :: rest) =
      if Z.abs (a + b - t) <=? 1 then Some (a, b, t) else marks_loop lines i rest) /\
  (forall file_name line data enrollment_no g1 g2 g3,
      enrollment_search line = Some enrollment_no ->
      marks_search line = Some (g1, g2, g3) ->
      int g1 = a -> int g2 = b -> int g3 = t ->
      line_step file_name [line] data 0 line =
      if Z.abs (a + b - t) <=? 1
      then data ++ [present_record file_name enrollment_no (resolve_name line) (a, b, t)]
      else data).
Proof.
  unfold marks_make_sense. split; [apply Z.leb_le|]. split; [|split].
  - intros H. apply Z.leb_gt. lia.
  - intros lines i offset rest check_line g1 g2 g3 Hnth Hm Ha Hb Ht.
    cbn [marks_loop]. rewrite Hnth, Hm. cbv zeta. rewrite Ha, Hb, Ht.
    unfold marks_make_sense. reflexivity.
  - intros file_name line data enrollment_no g1 g2 g3 He Hm Ha Hb Ht.
    unfold line_step, absent_step. rewrite He. fold (resolve_name line).
    unfold range. cbn [seq]. rewrite !marks_loop_cons. unfold window_triple.
    cbn [nth_error Nat.add]. unfold line_triple. rewrite Hm, Ha, Hb, Ht.
    unfold marks_make_sense.
    destruct (Z.abs (a + b - t) <=? 1); reflexivity.
Qed.

(** ** Substrings *)

Lemma prefix_append sub : forall s,
  String.prefix sub s = true <-> exists post, s = (sub ++ post)%string.
Proof.
  induction sub as [|a sub IH]; intros s.
  - simpl. split; [intros _; exists s; reflexivity|]. destruct s; reflexivity.
  - destruct s as [|b s]; simpl.
    + split; [discriminate|]. intros (post & H). discriminate.
    + destruct (ascii_dec a b) as [->|Hne].
      * rewrite IH. split; intros (post & H); exists post; congruence.
      * split; [discriminate|]. intros (post & H). congruence.
Qed.

Lemma contains_unfold sub s :
  contains sub s =
  if String.prefix sub s then true
  else match s with
       | EmptyString => false
       | String _ r => contains sub r
       end.
Proof. destruct s; reflexivity. Qed.

Lemma contains_append sub : forall s,
  contains sub s = true <-> exists pre post, s = (pre ++ sub ++ post)%string.
Proof.
  induction s as [|c s IH]; rewrite contains_unfold.
  - destruct (String.prefix sub "") eqn:E.
    + split; [intros _|reflexivity]. apply prefix_append in E as (post & H).
      exists "", post. exact H.
    + split; [discriminate|]. intros (pre & post & H).
      destruct pre; [|discriminate]. simpl in H.
      assert (String.prefix sub "" = true) by (apply prefix_append; eauto).
      congruence.
  - destruct (String.prefix sub (String c s)) eqn:E.
    + split; [intros _|reflexivity]. apply prefix_append in E as (post & H).
      exists "", post. exact H.
    + rewrite IH. split.
      * intros (pre & post & H). exists (String c pre), post. simpl. congruence.
      * intros (pre & post & H). destruct pre as [|c' pre].
        -- simpl in H. assert (String.prefix sub (String c s) = true)
             by (apply prefix_append; eauto). congruence.
        -- simpl in H. exists pre, post. congruence.
Qed.

(** ** C10 *)

(** C10. For an identifier occurrence whose window holds no validated triple,
    the absent record (all marks zero, status Absent) is appended if and only
    if line i+1 exists and has the two characters AB somewhere in it, whatever
    stands around them; no other line decides it. *)
Theorem absence_marker_next_line
    (file_name : string) (lines : list string) (data : DataFrame) (i : nat)
    (line enrollment_no : string)
    (Hid : enrollment_search line = Some enrollment_no)
    (Hnone : marks_loop lines i (range 4) = None) :
  let absent := absent_record file_name enrollment_no (resolve_name line) in
  let marked := exists pre post, nth_error lines (i + 1) = Some (pre ++ "AB" ++ post)%string in
  (marked -> line_step file_name lines data i line = data ++ [absent]) /\
  (~ marked -> line_step file_name lines data i line = data) /\
  (line_step file_name lines data i line = data ++ [absent] <-> marked) /\
  Section_A absent = 0 /\ Section_B absent = 0 /\ Total_Marks absent = 0 /\
  Status absent = Some "Absent" /\
  (forall lines',
      marks_loop lines' i (range 4) = None ->
      nth_error lines' (i + 1) = nth_error lines (i + 1) ->
      line_step file_name lines' data i line = line_step file_name lines data i line).
Proof.
  intros absent marked.
  assert (Hstep : forall ls, marks_loop ls i (range 4) = None ->
            line_step file_name ls data i line =
            match nth_error ls (i + 1) with
            | Some check_line => if contains "AB" check_line then data ++ [absent] else data
            | None => data
            end).
  { intros ls Hls. unfold line_step, absent_step. rewrite Hid, Hls. reflexivity. }
  assert (Hyes : marked -> line_step file_name lines data i line = data ++ [absent]).
  { intros (pre & post & Hnth). rewrite (Hstep lines Hnone), Hnth.
    replace (contains "AB" (pre ++ "AB" ++ post)%string) with true; [reflexivity|].
    symmetry. apply contains_append. eauto. }
  assert (Hno : ~ marked -> line_step file_name lines data i line = data).
  { intros Hn. rewrite (Hstep lines Hnone).
    destruct (nth_error lines (i + 1)) as [check_line|] eqn:Hnth; [|reflexivity].
    destruct (contains "AB" check_line) eqn:Hc; [|reflexivity].
    exfalso. apply Hn. apply contains_append in Hc as (pre & post & ->).
    exists pre, post. reflexivity. }
  repeat split; trivial.
  - intros Heq. clear Hyes Hno. unfold marked.
    destruct (nth_error lines (i + 1)) as [check_line|] eqn:Hnth.
    + destruct (contains "AB" check_line) eqn:Hc.
      * apply contains_append in Hc as (pre & post & ->). exists pre, post. reflexivity.
      * rewrite (Hstep lines Hnone), Hnth, Hc in Heq.
        apply (f_equal (@List.length record)) in Heq. rewrite length_app in Heq.
        simpl in Heq. lia.
    + rewrite (Hstep lines Hnone), Hnth in Heq.
      apply (f_equal (@List.length record)) in Heq. rewrite length_app in Heq.
      simpl in Heq. lia.
  - intros lines' Hnone' Hsame. rewrite (Hstep lines' Hnone'), (Hstep lines Hnone), Hsame.
    reflexivity.
Qed.

Lemma absence_marker_next_line_witness :
  line_step "t.pdf" ["231430142054 CSE(AIML) D1 ASHA RAO GEN"; "LABORATORY"] [] 0
    "231430142054 CSE(AIML) D1 ASHA RAO GEN"
  = [absent_record "t.pdf" "231430142054" "ASHA"].
Proof.
  pose proof (absence_marker_next_line "t.pdf"
                ["231430142054 CSE(AIML) D1 ASHA RAO GEN"; "LABORATORY"] [] 0
                "231430142054 CSE(AIML) D1 ASHA RAO GEN" "231430142054"
                eq_refl eq_refl) as H.
  cbv zeta in H. destruct H as [H _]. apply H.
  exists "L", "ORATORY". reflexivity.
Defined.

(** ** C5 *)

(** C5 (as stated, refuted). The search does not stop at the first line of
    the window that contains a triple: were it so, the outcome would be that
    line's triple when it validates and nothing otherwise. *)
Lemma window_search_passes_rejected_line :
  ~ (forall (lines : list string) (i k : nat) (check_line : string),
        (k < 4)%nat ->
        nth_error lines (i + k) = Some check_line ->
        marks_search check_line <> None ->
        (forall j l, (j < k)%nat -> nth_error lines (i + j) = Some l ->
                     marks_search l = None) ->
        marks_loop lines i (range 4) = line_triple check_line).
Proof.
  intros H.
  specialize (H ["241430142001 RAVI 41 40 18"; "35 40 75"] 0%nat 0%nat
                "241430142001 RAVI 41 40 18").
  assert (Habs : Some (35, 40, 75) = @None (Z * Z * Z)); [|discriminate Habs].
  apply H.
  - lia.
  - reflexivity.
  - discriminate.
  - intros j l Hj. lia.
Qed.

(** C5 (amended). For an identifier on line i the search reads lines i to
    i+3 only, in order, and stops at the first of them whose leftmost triple
    passes validation; a line whose triple is rejected does not stop it.  What
    lies at offset 4 or later never matters: two documents that agree on
    lines i to i+3 give the same result, and when no line of the window has a
    validated triple nothing is matched. *)
Theorem score_window_bounded (lines : list string) (i : nat) :
  (forall m,
      marks_loop lines i (range 4) = Some m <->
      exists k, (k < 4)%nat /\ window_triple lines (i + k) = Some m /\
                forall j, (j < k)%nat -> window_triple lines (i + j) = None) /\
  ((forall k, (k < 4)%nat -> window_triple lines (i + k) = None) ->
   marks_loop lines i (range 4) = None) /\
  (forall lines' file_name data line,
      (forall k, (k < 4)%nat -> nth_error lines' (i + k) = nth_error lines (i + k)) ->
      marks_loop lines' i (range 4) = marks_loop lines i (range 4) /\
      line_step file_name lines' data i line = line_step file_name lines data i line).
Proof.
  split; [|split].
  - intros m. split; apply marks_loop_range_4.
  - intros H. apply marks_loop_none. intros k Hk. apply H, in_range_4, Hk.
  - intros lines' file_name data line Hsame.
    assert (Hloop : marks_loop lines' i (range 4) = marks_loop lines i (range 4)).
    { apply marks_loop_window. intros k Hk. apply Hsame, in_range_4, Hk. }
    split; [exact Hloop|].
    unfold line_step, absent_step. rewrite Hloop, (Hsame 1%nat) by lia. reflexivity.
Qed.

(** ** C4 *)

(** C4 (as stated, refuted). A rejected first-found triple does not close
    the numeric path: were it so, only the absence test could append. *)
Lemma rejected_triple_is_retried :
  ~ (forall (file_name : string) (lines : list string) (data : DataFrame)
            (i k : nat) (line enrollment_no check_line : string),
        enrollment_search line = Some enrollment_no ->
        (k < 4)%nat ->
        nth_error lines (i + k) = Some check_line ->
        marks_search check_line <> None ->
        line_triple check_line = None ->
        (forall j l, (j < k)%nat -> nth_error lines (i + j) = Some l ->
                     marks_search l = None) ->
        line_step file_name lines data i line =
        absent_step file_name enrollment_no (resolve_name line) lines i data).
Proof.
  intros H.
  specialize (H "t.pdf" ["231430142054 10 20 99"; "10 20 30"] [] 0%nat 0%nat
                "231430142054 10 20 99" "231430142054" "231430142054 10 20 99").
  assert (Habs : [present_record "t.pdf" "231430142054" "Unknown" (10, 20, 30)]
                 = @nil record); [|discriminate Habs].
  apply H.
  - reflexivity.
  - lia.
  - reflexivity.
  - discriminate.
  - reflexivity.
  - intros j l Hj. lia.
Qed.

(** C4 (amended). When the leftmost triple of a line of the window is
    rejected, the loop goes on to the next offset; the record of an identifier
    occurrence carries the leftmost triple of the first line of the window
    where that triple validates, and the numeric path appends nothing only
    when no line of the window has a validated leftmost triple.  Within one
    line no triple other than the leftmost is tried. *)
Theorem rejected_triple_moves_to_next_offset
    (file_name : string) (lines : list string) (data : DataFrame) (i : nat)
    (line enrollment_no : string)
    (Hid : enrollment_search line = Some enrollment_no) :
  (forall offset rest check_line g1 g2 g3,
      nth_error lines (i + offset) = Some check_line ->
      marks_search check_line = Some (g1, g2, g3) ->
      marks_make_sense (int g1) (int g2) (int g3) = false ->
      marks_loop lines i (offset :: rest) = marks_loop lines i rest) /\
  (forall k m,
      (k < 4)%nat ->
      window_triple lines (i + k) = Some m ->
      (forall j, (j < k)%nat -> window_triple lines (i + j) = None) ->
      line_step file_name lines data i line =
      data ++ [present_record file_name enrollment_no (resolve_name line) m]) /\
  ((forall k, (k < 4)%nat -> window_triple lines (i + k) = None) ->
   line_step file_name lines data i line =
   absent_step file_name enrollment_no (resolve_name line) lines i data).
Proof.
  split; [|split].
  - intros offset rest check_line g1 g2 g3 Hnth Hm Hrej.
    rewrite marks_loop_cons. unfold window_triple, line_triple.
    rewrite Hnth, Hm, Hrej. reflexivity.
  - intros k m Hk Hm Hb.
    assert (Hloop : marks_loop lines i (range 4) = Some m).
    { apply (proj1 (marks_loop_range_4 lines i)). eauto. }
    unfold line_step. rewrite Hid, Hloop. reflexivity.
  - intros Hnone.
    assert (Hloop : marks_loop lines i (range 4) = None).
    { apply marks_loop_none. intros k Hk. apply Hnone, in_range_4, Hk. }
    unfold line_step. rewrite Hid, Hloop. reflexivity.
Qed.

Lemma rejected_triple_moves_to_next_offset_witness :
  line_step "t.pdf" ["231430142054 10 20 99"; "10 20 30"] [] 0 "231430142054 10 20 99"
  = [present_record "t.pdf" "231430142054" "Unknown" (10, 20, 30)].
Proof.
  pose proof (rejected_triple_moves_to_next_offset "t.pdf"
                ["231430142054 10 20 99"; "10 20 30"] [] 0
                "231430142054 10 20 99" "231430142054" eq_refl) as [_ [H _]].
  apply (H 1%nat (10, 20, 30)).
  - lia.
  - reflexivity.
  - intros j Hj. assert (j = 0%nat) as -> by lia. reflexivity.
Defined.

(** ** Searching a line *)

Lemma search_skip {R : Type} (m : @cont R) rest : forall pre prev,
  (forall p1 c p2, pre = (p1 ++ String c p2)%string ->
                   m (last_char prev p1) (String c p2 ++ rest)%string = None) ->
  search m prev (pre ++ rest)%string = search m (last_char prev pre) rest.
Proof.
  induction pre as [|c pre IH]; intros prev H; [reflexivity|].
  cbn [String.append search last_char].
  rewrite (H "" c pre eq_refl : m prev (String c (pre ++ rest)%string) = None).
  apply IH. intros p1 c' p2 ->. apply (H (String c p1) c' p2). reflexivity.
Qed.

Lemma search_found {R : Type} (m : @cont R) r : forall s prev,
  search m prev s = Some r ->
  exists pre rest,
    s = (pre ++ rest)%string /\ m (last_char prev pre) rest = Some r /\
    forall p1 c p2, pre = (p1 ++ String c p2)%string ->
                    m (last_char prev p1) (String c p2 ++ rest)%string = None.
Proof.
  induction s as [|c s IH]; intros prev H.
  - cbn [search] in H. destruct (m prev "") eqn:E; [|discriminate].
    exists "", "". split; [reflexivity|]. split; [simpl; congruence|].
    intros [|] ? ? ?; discriminate.
  - cbn [search] in H. destruct (m prev (String c s)) eqn:E.
    + exists "", (String c s). split; [reflexivity|]. split; [simpl; congruence|].
      intros [|] ? ? ?; discriminate.
    + destruct (IH _ H) as (pre & rest & -> & Hm & Hbefore).
      exists (String c pre), rest. split; [reflexivity|]. split; [exact Hm|].
      intros [|c1 p1] c' p2 Heq; simpl in Heq; injection Heq as -> Heq.
      * subst pre. exact E.
      * apply Hbefore. exact Heq.
Qed.

Lemma chars_spec {R : Type} (k : @cont R) r : forall ps prev s,
  chars ps k prev s = Some r <->
  exists id rest,
    s = (id ++ rest)%string /\ has_classes ps id = true /\
    k (last_char prev id) rest = Some r.
Proof.
  induction ps as [|p ps IH]; intros prev s.
  - simpl. split.
    + intros H. exists "", s. auto.
    + intros (id & rest & -> & Hs & Hk). destruct id; [exact Hk|discriminate].
  - cbn [chars]. unfold one at 1. destruct s as [|c s].
    + split; [discriminate|]. intros (id & rest & Heq & Hs & _).
      destruct id; simpl in *; discriminate.
    + destruct (p c) eqn:Hp.
      * rewrite IH. split.
        -- intros (id & rest & -> & Hs & Hk). exists (String c id), rest.
           simpl. rewrite Hp, Hs. auto.
        -- intros (id & rest & Heq & Hs & Hk). destruct id as [|c' id]; [discriminate|].
           simpl in Heq. injection Heq as <- ->. simpl in Hs. rewrite Hp in Hs.
           exists id, rest. auto.
      * split; [discriminate|]. intros (id & rest & Heq & Hs & _).
        destruct id as [|c' id]; [discriminate|]. simpl in Heq. injection Heq as <- ->.
        simpl in Hs. rewrite Hp in Hs. discriminate.
Qed.

Lemma has_classes_length : forall ps s,
  has_classes ps s = true -> String.length s = List.length ps.
Proof.
  induction ps as [|p ps IH]; intros [|c s] H; simpl in *; try discriminate; trivial.
  apply andb_prop in H as [_ H]. f_equal. apply IH, H.
Qed.

Lemma substring_prefix : forall s rest,
  String.substring 0 (String.length s) (s ++ rest)%string = s.
Proof.
  induction s as [|c s IH]; intros rest; simpl.
  - destruct rest; reflexivity.
  - f_equal. apply IH.
Qed.

Lemma has_classes_last_word : forall ps s prev,
  has_classes ps s = true ->
  Forall (fun p => forall c, p c = true -> is_word c = true) ps ->
  ps <> [] ->
  word_at (last_char prev s) = true.
Proof.
  induction ps as [|p ps IH]; intros s prev Hs Hall Hne; [congruence|].
  destruct s as [|c s]; [discriminate|]. simpl in Hs.
  apply andb_prop in Hs as [Hp Hs]. inversion Hall as [|? ? Hpw Hall']; subst.
  cbn [last_char]. destruct ps as [|p' ps].
  - destruct s; [|discriminate]. simpl. apply Hpw, Hp.
  - apply (IH s (Some c) Hs Hall'). discriminate.
Qed.

Lemma in_range_word lo hi c :
  (48 <= lo)%N -> (hi <= 57)%N -> in_range lo hi c = true -> is_word c = true.
Proof.
  intros Hlo Hhi H. unfold is_word, is_digit.
  replace (in_range 48 57 c) with true; [reflexivity|].
  symmetry. unfold in_range in *. apply andb_prop in H as [H1 H2].
  apply N.leb_le in H1, H2. apply andb_true_intro. split; apply N.leb_le; lia.
Qed.

Lemma enrollment_classes_word :
  Forall (fun p => forall c, p c = true -> is_word c = true) enrollment_classes.
Proof.
  unfold enrollment_classes. simpl.
  repeat constructor;
    try (intros c H; apply Ascii.eqb_eq in H; subst; reflexivity);
    intros c H; apply (in_range_word _ _ c) in H; trivial; lia.
Qed.

Lemma identifier_shape_head id post :
  identifier_shape id = true -> word_at (head (id ++ post)%string) = true.
Proof.
  unfold identifier_shape, enrollment_classes. destruct id as [|c id]; [discriminate|].
  cbn [has_classes]. intros H. apply andb_prop in H as [H _].
  apply Ascii.eqb_eq in H. subst. reflexivity.
Qed.

(** The pattern at one position. *)
Lemma enrollment_re_spec prev s r :
  enrollment_re prev s = Some r <->
  exists post,
    s = (r ++ post)%string /\ identifier_shape r = true /\
    word_at prev = false /\ word_at (head post) = false.
Proof.
  unfold enrollment_re, wordb at 1. split.
  - destruct (boundary prev (head s)) eqn:Hb; [|discriminate].
    intros H. apply chars_spec in H as (id & rest & -> & Hid & Hk).
    unfold wordb in Hk.
    destruct (boundary (last_char prev id) (head rest)) eqn:Hb2; [|discriminate].
    injection Hk as <-.
    replace 12%nat with (String.length id)
      by (rewrite (has_classes_length _ _ Hid); reflexivity).
    rewrite substring_prefix.
    exists rest. repeat split; trivial.
    + unfold boundary in Hb. rewrite identifier_shape_head in Hb by exact Hid.
      destruct (word_at prev); [discriminate|reflexivity].
    + unfold boundary in Hb2.
      rewrite (has_classes_last_word _ _ prev Hid enrollment_classes_word) in Hb2
        by discriminate.
      destruct (word_at (head rest)); [discriminate|reflexivity].
  - intros (post & -> & Hid & Hprev & Hpost).
    unfold boundary. rewrite identifier_shape_head by exact Hid. rewrite Hprev.
    cbn [xorb]. apply chars_spec. exists r, post. repeat split; trivial.
    unfold wordb, boundary.
    rewrite (has_classes_last_word _ _ prev Hid enrollment_classes_word) by discriminate.
    rewrite Hpost. cbn [xorb].
    replace 12%nat with (String.length r)
      by (rewrite (has_classes_length _ _ Hid); reflexivity).
    rewrite substring_prefix. reflexivity.
Qed.

Lemma length_append : forall s1 s2,
  String.length (s1 ++ s2)%string = (String.length s1 + String.length s2)%nat.
Proof. induction s1 as [|c s1 IH]; intros s2; simpl; [reflexivity|]. rewrite IH. reflexivity. Qed.

Lemma append_assoc : forall s1 s2 s3 : string,
  ((s1 ++ s2) ++ s3 = s1 ++ (s2 ++ s3))%string.
Proof. induction s1 as [|c s1 IH]; intros; simpl; [reflexivity|]. rewrite IH. reflexivity. Qed.

Lemma last_char_append : forall s1 s2 prev,
  last_char prev (s1 ++ s2)%string = last_char (last_char prev s1) s2.
Proof. induction s1 as [|c s1 IH]; intros; simpl; [reflexivity|]. apply IH. Qed.

(** ** C7 *)

(** C7 (as stated, refuted). An identifier-shaped substring that touches a
    word character is not returned, although it is the only (hence the first)
    such substring of the line. *)
Lemma identifier_glued_to_word_not_found :
  ~ (forall pre id post : string,
        identifier_shape id = true ->
        (forall pre' id' post',
            (pre ++ id ++ post = pre' ++ id' ++ post')%string ->
            identifier_shape id' = true ->
            (String.length pre <= String.length pre')%nat) ->
        enrollment_search (pre ++ id ++ post)%string = Some id).
Proof.
  intros H. specialize (H "X" "231430142054" "" eq_refl).
  assert (Habs : @None string = Some "231430142054"); [|discriminate Habs].
  apply H. intros pre' id' post' Heq Hshape.
  destruct pre' as [|c pre']; [|simpl; lia].
  exfalso. destruct id' as [|c id']; [discriminate|].
  simpl in Heq. injection Heq as <- _.
  discriminate Hshape.
Qed.

(** C7 (amended). The scanner returns [id] exactly when [id] is the
    leftmost identifier-shaped substring of the line that stands at word
    boundaries, that is with no letter, digit or underscore next to it on
    either side; a line without such an occurrence gives no identifier. *)
Theorem identifier_scanner_first_bounded (line : string) :
  (forall id,
      enrollment_search line = Some id <->
      exists pre post,
        bounded_occurrence line pre id post /\
        forall pre' id' post',
          bounded_occurrence line pre' id' post' ->
          (String.length pre <= String.length pre')%nat) /\
  (enrollment_search line = None <->
   forall pre id post, ~ bounded_occurrence line pre id post).
Proof.
  assert (Hfound : forall id,
             enrollment_search line = Some id ->
             exists pre post,
               bounded_occurrence line pre id post /\
               forall pre' id' post',
                 bounded_occurrence line pre' id' post' ->
                 (String.length pre <= String.length pre')%nat).
  { intros id H. apply search_found in H as (pre & rest & -> & Hm & Hbefore).
    apply enrollment_re_spec in Hm as (post & -> & Hid & Hprev & Hpost).
    exists pre, post. split; [repeat split; trivial|].
    intros pre' id' post' (Heq & Hid' & Hprev' & Hpost').
    destruct (Nat.le_gt_cases (String.length pre) (String.length pre')) as [|Hlt]; trivial.
    exfalso.
    assert (Hsplit : forall (a b : string) x y,
               (a ++ x = b ++ y)%string -> (String.length b < String.length a)%nat ->
               exists c t, a = (b ++ String c t)%string /\ y = (String c t ++ x)%string).
    { induction a as [|ca a IHa]; intros b x y Habxy Hlen; [simpl in Hlen; lia|].
      destruct b as [|cb b].
      - simpl in Habxy. subst y. exists ca, a. split; reflexivity.
      - simpl in Habxy. injection Habxy as <- Habxy. simpl in Hlen.
        destruct (IHa b x y Habxy) as (c & t & -> & ->); [lia|].
        exists c, t. split; reflexivity. }
    destruct (Hsplit pre pre' _ _ Heq Hlt) as (c & t & Hpre & Hrest).
    specialize (Hbefore pre' c t Hpre).
    rewrite <- Hrest in Hbefore.
    assert (Hyes : enrollment_re (last_char None pre') (id' ++ post')%string = Some id').
    { apply enrollment_re_spec. exists post'. repeat split; trivial. }
    congruence. }
  assert (Hfirst : forall id pre post,
             bounded_occurrence line pre id post ->
             (forall pre' id' post',
                 bounded_occurrence line pre' id' post' ->
                 (String.length pre <= String.length pre')%nat) ->
             enrollment_search line = Some id).
  { intros id pre post (-> & Hid & Hprev & Hpost) Hmin.
    unfold enrollment_search, re_search. rewrite search_skip.
    - assert (Hyes : enrollment_re (last_char None pre) (id ++ post)%string = Some id).
      { apply enrollment_re_spec. exists post. repeat split; trivial. }
      destruct (id ++ post)%string; cbn [search]; rewrite Hyes; reflexivity.
    - intros p1 c p2 ->.
      destruct (enrollment_re (last_char None p1) (String c p2 ++ id ++ post)%string)
        as [r|] eqn:E; [|reflexivity].
      exfalso. apply enrollment_re_spec in E as (post' & Heq & Hid' & Hprev' & Hpost').
      assert (Hocc : bounded_occurrence ((p1 ++ String c p2) ++ id ++ post)%string p1 r post').
      { repeat split; trivial. rewrite append_assoc, Heq. reflexivity. }
      apply Hmin in Hocc. rewrite length_append in Hocc. simpl in Hocc. lia. }
  split.
  - intros id. split; [apply Hfound|]. intros (pre & post & Hocc & Hmin).
    eapply Hfirst; eauto.
  - split.
    + intros Hnone pre id post Hocc.
      (* a bounded occurrence matches at its own position, so the search finds something *)
      destruct Hocc as (-> & Hid & Hprev & Hpost).
      assert (Hyes : enrollment_re (last_char None pre) (id ++ post)%string = Some id).
      { apply enrollment_re_spec. exists post. repeat split; trivial. }
      assert (Hsome : forall pre0 prev, search enrollment_re prev (pre0 ++ id ++ post)%string = None ->
                 enrollment_re (last_char prev pre0) (id ++ post)%string = None).
      { induction pre0 as [|c0 pre0 IH0]; intros prev Hs.
        - simpl in *. destruct (id ++ post)%string; cbn [search] in Hs;
            destruct (enrollment_re prev _); congruence.
        - cbn [String.append search] in Hs.
          destruct (enrollment_re prev (String c0 (pre0 ++ id ++ post)%string)); [discriminate|].
          cbn [last_char]. apply IH0, Hs. }
      apply Hsome in Hnone. congruence.
    + intros Hno. destruct (enrollment_search line) as [id|] eqn:E; [|reflexivity].
      exfalso. destruct (Hfound id eq_refl) as (pre & post & Hocc & _).
      exact (Hno _ _ _ Hocc).
Qed.

(** ** The extraction loops *)

Lemma line_step_app file_name lines data i line :
  line_step file_name lines data i line = data ++ line_step file_name lines [] i line.
Proof.
  unfold line_step, absent_step.
  destruct (enrollment_search line); [|symmetry; apply app_nil_r].
  destruct (marks_loop lines i (range 4)); [reflexivity|].
  destruct (nth_error lines (i + 1)) as [check_line|]; [|symmetry; apply app_nil_r].
  destruct (contains "AB" check_line); [reflexivity|symmetry; apply app_nil_r].
Qed.

Lemma line_step_length file_name lines i line :
  (List.length (line_step file_name lines [] i line) <= 1)%nat.
Proof.
  unfold line_step, absent_step.
  destruct (enrollment_search line); [|simpl; lia].
  destruct (marks_loop lines i (range 4)); [simpl; lia|].
  destruct (nth_error lines (i + 1)) as [check_line|]; [|simpl; lia].
  destruct (contains "AB" check_line); simpl; lia.
Qed.

Lemma line_step_enrollment file_name lines i line r :
  In r (line_step file_name lines [] i line) ->
  enrollment_search line = Some (Enrollment_No r) /\ Source_File r = file_name.
Proof.
  unfold line_step, absent_step.
  destruct (enrollment_search line) as [e|]; [|intros []].
  destruct (marks_loop lines i (range 4)) as [[[a b] t]|].
  - intros [<-|[]]. split; reflexivity.
  - destruct (nth_error lines (i + 1)) as [check_line|]; [|intros []].
    destruct (contains "AB" check_line); [|intros []].
    intros [<-|[]]. split; reflexivity.
Qed.

Lemma lines_loop_flat_map file_name lines : forall todo data i,
  lines_loop file_name lines data i todo =
  data ++ flat_map (line_records file_name lines) (combine (seq i (List.length todo)) todo).
Proof.
  induction todo as [|line rest IH]; intros data i.
  - simpl. symmetry. apply app_nil_r.
  - cbn [lines_loop List.length seq combine flat_map].
    rewrite IH, line_step_app, <- app_assoc. reflexivity.
Qed.

Lemma page_step_app file_name data text :
  page_step file_name data text = data ++ page_step file_name [] text.
Proof.
  destruct text as [[|c t]|]; cbn [page_step]; try (symmetry; apply app_nil_r).
  cbv zeta. rewrite lines_loop_flat_map. symmetry. rewrite lines_loop_flat_map. reflexivity.
Qed.

Lemma pages_fold_flat_map file_name : forall texts data,
  fold_left (page_step file_name) texts data =
  data ++ flat_map (page_step file_name []) texts.
Proof.
  induction texts as [|text rest IH]; intros data; simpl.
  - symmetry. apply app_nil_r.
  - rewrite IH, page_step_app, <- app_assoc. reflexivity.
Qed.

Lemma pages_loop_texts file_name : forall pages data,
  pages_loop file_name data pages =
  match page_texts pages with
  | Some texts => Returns (fold_left (page_step file_name) texts data)
  | None => Raises
  end.
Proof.
  induction pages as [|page rest IH]; intros data; [reflexivity|].
  destruct page as [text|]; [|reflexivity].
  cbn [pages_loop bind page_texts]. rewrite IH.
  destruct (page_texts rest); reflexivity.
Qed.

Lemma extract_marks_document_records f :
  extract_marks_from_pdf f = Returns (document_records f).
Proof.
  unfold extract_marks_from_pdf, document_records.
  destruct (open_pdf f) as [pages|]; [|reflexivity].
  cbn [bind]. rewrite pages_loop_texts.
  destruct (page_texts pages); reflexivity.
Qed.

Lemma files_loop_frames : forall files all_data,
  files_loop all_data files =
  Returns (all_data ++ filter (fun df => negb (empty df)) (map document_records files)).
Proof.
  induction files as [|f rest IH]; intros all_data.
  - simpl. rewrite app_nil_r. reflexivity.
  - cbn [files_loop]. rewrite extract_marks_document_records.
    cbn [bind try_except map filter]. rewrite IH.
    destruct (negb (empty (document_records f))); [|reflexivity].
    rewrite <- app_assoc. reflexivity.
Qed.

Lemma concat_nonempty {A : Type} : forall frames : list (list A),
  List.concat (filter (fun df => negb (empty df)) frames) = List.concat frames.
Proof.
  induction frames as [|df rest IH]; [reflexivity|].
  cbn [filter]. destruct df as [|x df]; cbn [empty negb List.concat]; rewrite IH; reflexivity.
Qed.

Lemma page_texts_raises : forall pages, In Raises pages -> page_texts pages = None.
Proof.
  induction pages as [|page rest IH]; intros H; [destruct H|].
  destruct page as [text|]; [|reflexivity].
  destruct H as [H|H]; [discriminate|]. simpl. rewrite (IH H). reflexivity.
Qed.

(** ** C8 *)

(** C8 (as stated, refuted). The frame of one document can hold two records
    with the same identifier. *)
Lemma duplicate_identifier_kept_twice :
  ~ (forall (f : UploadedFile) (df : DataFrame),
        extract_marks_from_pdf f = Returns df -> NoDup (map Enrollment_No df)).
Proof.
  intros H.
  specialize (H (mk_file "t.pdf" (Returns [Returns (Some "231430142054 10 20 30
231430142054 12 20 32")]))
                [present_record "t.pdf" "231430142054" "Unknown" (10, 20, 30);
                 present_record "t.pdf" "231430142054" "Unknown" (12, 20, 32)]
                eq_refl).
  inversion H as [|x l Hnotin _]; subst. apply Hnotin. left. reflexivity.
Qed.

(** C8 (amended). Extraction never overwrites or removes a record: every
    line adds its own record (at most one) after those already in the frame,
    so the frame of a page is the concatenation, in line order, of what each
    line contributes, and for every identifier it holds as many records as
    there are lines bearing that identifier for which a score is located.
    The frame of a document is in the same way the concatenation of the
    frames of its pages. *)
Theorem extraction_keeps_every_occurrence (file_name : string) (lines : list string) :
  (forall data i line,
      line_step file_name lines data i line = data ++ line_records file_name lines (i, line) /\
      (List.length (line_records file_name lines (i, line)) <= 1)%nat) /\
  (forall data,
      lines_loop file_name lines data 0 lines =
      data ++ flat_map (line_records file_name lines) (enumerate lines)) /\
  (forall x,
      List.length (filter (fun r => String.eqb (Enrollment_No r) x)
                     (lines_loop file_name lines [] 0 lines)) =
      List.length (filter (scored_occurrence file_name lines x) (enumerate lines))) /\
  (forall texts data,
      fold_left (page_step file_name) texts data =
      data ++ flat_map (page_step file_name []) texts).
Proof.
  split; [|split; [|split]]; [| | |apply pages_fold_flat_map].
  - intros data i line. split; [apply line_step_app|apply line_step_length].
  - intros data. apply lines_loop_flat_map.
  - intros x. rewrite lines_loop_flat_map. cbn [app]. fold (enumerate lines).
    induction (enumerate lines) as [|il rest IH]; [reflexivity|].
    cbn [flat_map filter]. rewrite filter_app, length_app, IH.
    assert (Hone : List.length (filter (fun r => String.eqb (Enrollment_No r) x)
                                  (line_records file_name lines il)) =
                   if scored_occurrence file_name lines x il then 1%nat else 0%nat).
    { unfold scored_occurrence.
      pose proof (line_step_length file_name lines (fst il) (snd il)) as Hlen.
      pose proof (line_step_enrollment file_name lines (fst il) (snd il)) as Hen.
      fold (line_records file_name lines il) in Hlen, Hen.
      destruct (line_records file_name lines il) as [|r [|r' l]].
      - destruct (enrollment_search (snd il)); [rewrite andb_false_r|]; reflexivity.
      - destruct (Hen r (or_introl eq_refl)) as [-> _].
        cbn [filter empty negb]. rewrite andb_true_r.
        destruct (String.eqb (Enrollment_No r) x); reflexivity.
      - simpl in Hlen. lia. }
    rewrite Hone. destruct (scored_occurrence file_name lines x il); reflexivity.
Qed.

(** ** C9 *)

(** C9. The batch never raises.  Its result is the concatenation, in the
    order of the documents, of the records of the documents that were
    processed without an exception; a document on which opening or text
    extraction raises, or which has no text layer, contributes no record; and
    when no document contributes a record the result is the empty frame. *)
Theorem batch_skips_unreadable_documents (uploaded_files : list UploadedFile) :
  process_multiple_pdfs uploaded_files =
    Returns (List.concat (map document_records uploaded_files)) /\
  (forall f, unreadable f -> document_records f = []) /\
  (forall f, no_content f -> document_records f = []) /\
  (forall f, extract_marks_from_pdf f = Returns (document_records f)) /\
  (forall before f after,
      uploaded_files = before ++ f :: after ->
      unreadable f ->
      process_multiple_pdfs uploaded_files =
        Returns (List.concat (map document_records before) ++
                 List.concat (map document_records after))) /\
  ((forall f, In f uploaded_files -> document_records f = []) ->
   process_multiple_pdfs uploaded_files = Returns []).
Proof.
  assert (Hall : forall files,
             process_multiple_pdfs files = Returns (List.concat (map document_records files))).
  { intros files. unfold process_multiple_pdfs. rewrite files_loop_frames.
    cbn [bind app]. rewrite <- (concat_nonempty (map document_records files)).
    unfold pd_concat.
    destruct (filter (fun df => negb (empty df)) (map document_records files));
      reflexivity. }
  assert (Hunreadable : forall f, unreadable f -> document_records f = []).
  { intros f [H|(pages & H & Hin)]; unfold document_records; rewrite H; [reflexivity|].
    rewrite (page_texts_raises _ Hin). reflexivity. }
  repeat split; trivial.
  - intros f (pages & H & Hnone). unfold document_records. rewrite H. clear H.
    assert (Hgen : forall data,
               match page_texts pages with
               | Some texts => fold_left (page_step (name f)) texts data
               | None => []
               end = match page_texts pages with Some _ => data | None => [] end).
    { induction Hnone as [|page rest Hpage _ IH]; intros data; [reflexivity|].
      destruct Hpage as [->| ->]; cbn [page_texts];
        specialize (IH data); destruct (page_texts rest); trivial. }
    rewrite Hgen. destruct (page_texts pages); reflexivity.
  - apply extract_marks_document_records.
  - intros before f after -> Hf. rewrite Hall, map_app, concat_app. cbn [map List.concat].
    rewrite (Hunreadable f Hf). reflexivity.
  - intros Hnone. rewrite Hall. f_equal.
    induction uploaded_files as [|f rest IH]; [reflexivity|].
    cbn [map List.concat]. rewrite (Hnone f) by (left; reflexivity).
    apply IH. intros g Hg. apply Hnone. right. exact Hg.
Qed.

(** ** Sorting, distinct values and sums *)

Section SortFacts.
Context {A : Type} (leb : A -> A -> bool).

Lemma insert_perm x : forall l, Permutation (insert leb x l) (x :: l).
Proof.
  induction l as [|y l IH]; simpl; [reflexivity|].
  destruct (leb x y); [reflexivity|].
  rewrite IH. apply perm_swap.
Qed.

Lemma sort_perm : forall l, Permutation (sort leb l) l.
Proof.
  induction l as [|x l IH]; simpl; [reflexivity|].
  rewrite insert_perm, IH. reflexivity.
Qed.

Hypothesis leb_total : forall x y, leb x y = true \/ leb y x = true.
Hypothesis leb_trans : forall x y z, leb x y = true -> leb y z = true -> leb x z = true.

Lemma insert_sorted x : forall l,
  StronglySorted (fun a b => leb a b = true) l ->
  StronglySorted (fun a b => leb a b = true) (insert leb x l).
Proof.
  induction l as [|y l IH]; intros Hs; simpl.
  - repeat constructor.
  - inversion Hs as [|? ? Hl Hy]; subst. destruct (leb x y) eqn:E.
    + constructor; [exact Hs|]. constructor; [exact E|].
      eapply Forall_impl; [|exact Hy]. intros z Hz. eapply leb_trans; eauto.
    + constructor; [apply IH, Hl|].
      eapply Permutation_Forall; [symmetry; apply insert_perm|].
      constructor; [|exact Hy].
      destruct (leb_total x y) as [H|H]; [congruence|exact H].
Qed.

Lemma sort_sorted : forall l, StronglySorted (fun a b => leb a b = true) (sort leb l).
Proof.
  induction l as [|x l IH]; simpl; [constructor|]. apply insert_sorted, IH.
Qed.
End SortFacts.

Section UniqueFacts.
Context {A : Type} (eqb : A -> A -> bool).
Hypothesis eqb_eq : forall x y, eqb x y = true <-> x = y.

Lemma unique_In x : forall l, In x (unique eqb l) <-> In x l.
Proof.
  induction l as [|y l IH]; simpl; [reflexivity|].
  rewrite filter_In, IH. split.
  - intros [H|[H _]]; auto.
  - intros [H|H]; auto. destruct (eqb y x) eqn:E.
    + left. apply eqb_eq, E.
    + right. auto.
Qed.

Lemma unique_NoDup : forall l, NoDup (unique eqb l).
Proof.
  induction l as [|y l IH]; simpl; constructor.
  - rewrite filter_In. intros [_ H].
    rewrite (proj2 (eqb_eq y y) eq_refl) in H. discriminate.
  - apply NoDup_filter, IH.
Qed.
End UniqueFacts.

Lemma pair_eqb_eq x y : pair_eqb x y = true <-> x = y.
Proof.
  unfold pair_eqb. destruct x as [a b], y as [c d]. simpl.
  rewrite andb_true_iff, !String.eqb_eq. split; [intros [-> ->]|intros [= -> ->]]; auto.
Qed.

Lemma agg_sum_fold_right {A : Type} (f : A -> Z) (group : list A) :
  agg_sum f group = fold_right Z.add 0 (map f group).
Proof.
  unfold agg_sum.
  assert (H : forall l a, fold_left (fun acc r => acc + f r) l a
                          = a + fold_right Z.add 0 (map f l)).
  { induction l as [|x l IH]; intros a; simpl; [lia|]. rewrite IH. lia. }
  rewrite H. lia.
Qed.

Lemma filter_length_perm {A : Type} (p : A -> bool) (l l' : list A) :
  Permutation l l' -> List.length (filter p l) = List.length (filter p l').
Proof.
  induction 1 as [|x l l' _ IH|x y l|l l' l'' _ IH1 _ IH2]; simpl.
  - reflexivity.
  - destruct (p x); simpl; congruence.
  - destruct (p x), (p y); reflexivity.
  - congruence.
Qed.

Lemma filter_length_map {A B : Type} (f : A -> B) (p : B -> bool) (l : list A) :
  List.length (filter p (map f l)) = List.length (filter (fun x => p (f x)) l).
Proof.
  induction l as [|x l IH]; simpl; [reflexivity|].
  destruct (p (f x)); simpl; congruence.
Qed.

Lemma combine_map_self {A B : Type} (h : A -> B) (l : list A) :
  combine l (map h l) = map (fun x => (x, h x)) l.
Proof. induction l as [|x l IH]; simpl; [reflexivity|]. rewrite IH. reflexivity. Qed.

(** ** Ranking *)

Lemma filter_none {A : Type} (p : A -> bool) : forall l,
  (forall x, In x l -> p x = false) -> filter p l = [].
Proof.
  induction l as [|x l IH]; intros H; [reflexivity|].
  simpl. rewrite (H x) by (left; reflexivity). apply IH.
  intros y Hy. apply H. right. exact Hy.
Qed.

Lemma geb_total x y : (x >=? y) = true \/ (y >=? x) = true.
Proof. rewrite !Z.geb_le. lia. Qed.

Lemma geb_trans x y z : (x >=? y) = true -> (y >=? z) = true -> (x >=? z) = true.
Proof. rewrite !Z.geb_le. lia. Qed.

Lemma run_start_above v : forall sorted i,
  StronglySorted (fun a b => (a >=? b) = true) sorted ->
  In v sorted ->
  run_start i v sorted = i + above v sorted.
Proof.
  unfold above.
  induction sorted as [|x r IH]; intros i Hs Hin; [destruct Hin|].
  inversion Hs as [|? ? Hr Hx]; subst. cbn [run_start filter].
  destruct (x =? v) eqn:E.
  - apply Z.eqb_eq in E. subst x.
    replace (v <? v) with false by (symmetry; apply Z.ltb_irrefl).
    replace (filter (fun w => v <? w) r) with (@nil Z); [simpl; lia|].
    symmetry. apply filter_none.
    intros w Hw. rewrite Forall_forall in Hx. specialize (Hx w Hw).
    apply Z.geb_le in Hx. apply Z.ltb_ge. exact Hx.
  - apply Z.eqb_neq in E. destruct Hin as [Hin|Hin]; [congruence|].
    rewrite Forall_forall in Hx. pose proof (Hx v Hin) as Hxv. apply Z.geb_le in Hxv.
    replace (v <? x) with true by (symmetry; apply Z.ltb_lt; lia).
    rewrite (IH (i + 1) Hr Hin). cbn [List.length]. lia.
Qed.

Lemma rank_min_descending_above values :
  rank_min_descending values = map (fun v => 1 + above v values) values.
Proof.
  unfold rank_min_descending. apply map_ext_in. intros v Hv.
  rewrite run_start_above.
  - unfold above. f_equal. f_equal. apply filter_length_perm, sort_perm.
  - apply sort_sorted; [apply geb_total|apply geb_trans].
  - eapply Permutation_in; [symmetry; apply sort_perm|exact Hv].
Qed.

Lemma above_perm v (l l' : list Z) : Permutation l l' -> above v l = above v l'.
Proof. intros H. unfold above. f_equal. apply filter_length_perm, H. Qed.

Lemma above_highest v (l : list Z) : (forall w, In w l -> w <= v) -> above v l = 0.
Proof.
  intros H. unfold above. rewrite filter_none; [reflexivity|].
  intros w Hw. apply Z.ltb_ge, H, Hw.
Qed.

Lemma StronglySorted_weaken {A : Type} (R S : A -> A -> Prop) (l : list A) :
  (forall x y, R x y -> S x y) -> StronglySorted R l -> StronglySorted S l.
Proof.
  intros HRS. induction 1 as [|x l Hl IH Hx]; constructor; trivial.
  eapply Forall_impl; [|exact Hx]. intros y. apply HRS.
Qed.

(** What both views do after their totals are known: rank, then sort by
    rank. *)
Section Ranked.
Context {G A : Type} (mk : G -> Z -> A) (total rank : A -> Z) (gtotal : G -> Z).
Hypothesis total_mk : forall g r, total (mk g r) = gtotal g.
Hypothesis rank_mk : forall g r, rank (mk g r) = r.

Lemma ranked_perm groups :
  Permutation (rank_and_sort mk rank gtotal groups)
    (map (fun g => mk g (1 + above (gtotal g) (map gtotal groups))) groups).
Proof.
  unfold rank_and_sort. rewrite sort_perm, rank_min_descending_above, map_map.
  rewrite combine_map_self, map_map. reflexivity.
Qed.

Lemma ranked_totals groups :
  Permutation (map total (rank_and_sort mk rank gtotal groups)) (map gtotal groups).
Proof.
  rewrite (Permutation_map total (ranked_perm groups)), map_map.
  erewrite map_ext; [reflexivity|]. intros g. apply total_mk.
Qed.

Lemma ranked_above groups :
  Forall (fun row =>
            rank row = 1 + above (total row) (map total (rank_and_sort mk rank gtotal groups)))
    (rank_and_sort mk rank gtotal groups).
Proof.
  eapply Permutation_Forall; [symmetry; apply ranked_perm|].
  apply Forall_forall. intros row Hrow. apply in_map_iff in Hrow as (g & <- & _).
  rewrite rank_mk, total_mk. f_equal. apply above_perm. symmetry. apply ranked_totals.
Qed.

Lemma ranked_sorted groups :
  StronglySorted (fun a b => rank a <= rank b) (rank_and_sort mk rank gtotal groups).
Proof.
  unfold rank_and_sort.
  eapply StronglySorted_weaken; [|apply sort_sorted].
  - intros x y H. apply Z.leb_le, H.
  - intros x y. unfold by_rank. rewrite !Z.leb_le. lia.
  - intros x y z. unfold by_rank. rewrite !Z.leb_le. lia.
Qed.
End Ranked.

Lemma cumulative_rankings_ranked all_data :
  calculate_cumulative_rankings all_data =
  if empty all_data then []
  else rank_and_sort cumulative_row_of Rank g_Cumulative_Total (groupby_agg all_data).
Proof. reflexivity. Qed.

Lemma exam_wise_view_ranked all_data :
  create_exam_wise_view all_data =
  if empty all_data then []
  else rank_and_sort exam_row_of e_Rank (fun kc => row_sum (snd kc))
         (map (fun key => (key, pivot_row all_data (pivot_columns all_data) key))
            (pivot_index all_data)).
Proof. reflexivity. Qed.

(** ** C2 *)

(** C2. The rank of a value is one plus the number of values strictly above
    it, so the highest total has rank 1, equal totals have equal ranks, and
    after a tie the ranks skip: the totals 100, 90, 90, 80 get the ranks
    1, 2, 2, 4.  Both views rank their rows by cumulative total in this way,
    and both return their rows in ascending order of rank. *)
Theorem min_ranking_descending :
  (forall values,
      rank_min_descending values = map (fun v => 1 + above v values) values) /\
  (forall values v, (forall w, In w values -> w <= v) -> 1 + above v values = 1) /\
  rank_min_descending [100; 90; 90; 80] = [1; 2; 2; 4] /\
  (forall all_data,
      let out := calculate_cumulative_rankings all_data in
      Forall (fun row =>
                Rank row = 1 + above (Cumulative_Total row) (map Cumulative_Total out))
        out /\
      StronglySorted (fun a b => Rank a <= Rank b) out) /\
  (forall all_data,
      let out := create_exam_wise_view all_data in
      Forall (fun row =>
                e_Rank row = 1 + above (e_Cumulative_Total row) (map e_Cumulative_Total out))
        out /\
      StronglySorted (fun a b => e_Rank a <= e_Rank b) out).
Proof.
  split; [apply rank_min_descending_above|].
  split; [intros values v H; rewrite above_highest by exact H; reflexivity|].
  split; [reflexivity|]. split.
  - intros all_data out. subst out. rewrite cumulative_rankings_ranked.
    destruct (empty all_data); [split; constructor|]. split.
    + apply (ranked_above cumulative_row_of Cumulative_Total Rank g_Cumulative_Total);
        reflexivity.
    + apply (ranked_sorted cumulative_row_of Rank g_Cumulative_Total).
  - intros all_data out. subst out. rewrite exam_wise_view_ranked.
    destruct (empty all_data); [split; constructor|]. cbv zeta. split.
    + apply (ranked_above exam_row_of e_Cumulative_Total e_Rank
               (fun kc => row_sum (snd kc))); reflexivity.
    + apply (ranked_sorted exam_row_of e_Rank (fun kc => row_sum (snd kc))).
Qed.

(** ** The two views, row by row *)

Lemma group_keys_perm all_data :
  Permutation (group_keys all_data) (unique String.eqb (map Enrollment_No all_data)).
Proof. apply sort_perm. Qed.

Lemma cumulative_rows_perm all_data :
  empty all_data = false ->
  Permutation (calculate_cumulative_rankings all_data)
    (map (fun key =>
            let g := agg key (group_of key all_data) in
            cumulative_row_of g
              (1 + above (g_Cumulative_Total g)
                     (map g_Cumulative_Total (groupby_agg all_data))))
       (group_keys all_data)).
Proof.
  intros Hne. rewrite cumulative_rankings_ranked, Hne.
  rewrite (ranked_perm cumulative_row_of Rank g_Cumulative_Total) by reflexivity.
  unfold groupby_agg at 2. rewrite map_map. reflexivity.
Qed.

Lemma exam_rows_perm all_data :
  empty all_data = false ->
  exists rank_of : (string * string) * list (string * option Z) -> Z,
    Permutation (create_exam_wise_view all_data)
      (map (fun key =>
              let kc := (key, pivot_row all_data (pivot_columns all_data) key) in
              exam_row_of kc (rank_of kc))
         (pivot_index all_data)).
Proof.
  intros Hne. rewrite exam_wise_view_ranked, Hne. cbv zeta.
  exists (fun kc =>
            1 + above (row_sum (snd kc))
                  (map (fun kc' => row_sum (snd kc'))
                     (map (fun key => (key, pivot_row all_data (pivot_columns all_data) key))
                        (pivot_index all_data)))).
  rewrite (ranked_perm exam_row_of e_Rank (fun kc => row_sum (snd kc)))
    by reflexivity.
  rewrite map_map. reflexivity.
Qed.

Lemma agg_first_none {A B : Type} (f : A -> B) (l : list A) :
  agg_first f l = None <-> l = [].
Proof. destruct l; simpl; split; congruence. Qed.

(** For every total up to 400 and every exam count up to 12 the float
    computation gives the float nearest to the exact quotient rounded, ties
    to even, to hundredths. *)
Lemma round2_half_even_small :
  forallb (fun count =>
             forallb (fun total => round2_exact total count) (map Z.of_nat (seq 0 401)))
    (map Z.of_nat (seq 1 12)) = true.
Proof. vm_compute. reflexivity. Qed.

(** For fewer than forty exams and a total of at most 99 marks per exam
    the float computation agrees with the exact quotient rounded, ties to
    even, to hundredths. *)
Lemma round2_half_even_below_40 :
  forallb (fun count =>
             forallb (fun total => round2_exact total count)
               (consecutive (Z.to_nat (99 * count + 1)) 0))
    (consecutive 39 1) = true.
Proof. vm_compute. reflexivity. Qed.

Lemma consecutive_In z : forall k a,
  a <= z < a + Z.of_nat k -> In z (consecutive k a).
Proof.
  induction k as [|k IH]; intros a H; [lia|].
  cbn [consecutive]. destruct (Z.eq_dec a z) as [->|Hne]; [left; reflexivity|].
  right. apply IH. lia.
Qed.

Lemma round2_exact_below_40 total count :
  1 <= count < 40 -> 0 <= total <= 99 * count ->
  PrimFloat.eqb
    (round2 (PrimFloat.div (float_of_Z total) (float_of_Z count)))
    (PrimFloat.div (float_of_Z (half_even (100 * total) count)) (float_of_Z 100))
  = true.
Proof.
  intros Hcount Htotal. pose proof round2_half_even_below_40 as Hall.
  rewrite forallb_forall in Hall.
  specialize (Hall count (consecutive_In count 39 1 ltac:(lia))).
  rewrite forallb_forall in Hall.
  apply (Hall total). apply consecutive_In. lia.
Qed.

(** ** C1 *)

(** C1 (as stated, refuted). The stored average is not always the quotient
    rounded to two decimals: for 23 marks over forty exams the quotient is
    0.575, which rounds to 0.58 whether ties go to the even digit or upwards,
    and the stored average is 0.57. *)
Lemma average_of_forty_exams_is_not_rounded :
  ~ (forall all_data row,
        In row (calculate_cumulative_rankings all_data) ->
        PrimFloat.eqb (Average_per_Exam row)
          (PrimFloat.div
             (float_of_Z (half_even (100 * Cumulative_Total row) (Exam_Count row)))
             (float_of_Z 100)) = true) /\
  ~ (forall all_data row,
        In row (calculate_cumulative_rankings all_data) ->
        PrimFloat.eqb (Average_per_Exam row)
          (PrimFloat.div
             (float_of_Z (half_up (100 * Cumulative_Total row) (Exam_Count row)))
             (float_of_Z 100)) = true).
Proof.
  assert (Hrow : exists row,
             In row (calculate_cumulative_rankings forty_exams) /\
             Cumulative_Total row = 23 /\ Exam_Count row = 40 /\
             Average_per_Exam row = PrimFloat.div (float_of_Z 57) (float_of_Z 100)).
  { eexists. split; [vm_compute; left; reflexivity|]. repeat split. }
  destruct Hrow as (row & Hin & Ht & Hn & Ha).
  split; intros H; specialize (H forty_exams row Hin);
    rewrite Ht, Hn, Ha in H; vm_compute in H; discriminate H.
Qed.

(** C1 (amended). The aggregate has exactly one row per identifier of the
    records.  In the row of an identifier the cumulative total is the sum of
    the totals of its records, the exam count is the number of distinct source
    files among them (not the number of records), and the average is the
    binary64 quotient of the two put through the float rounding
    rint(100 x) / 100.  For fewer than forty exams and a total of at most 99
    marks per exam this average equals the exact quotient rounded to two
    decimals, ties to even.  Two records of one
    identifier from two different files with totals 30 and 45 give the single
    row with total 75, exam count 2 and average 37.5; two records of one
    identifier from the same file give a row with exam count 1. *)
Theorem cumulative_aggregation (all_data : DataFrame) :
  let out := calculate_cumulative_rankings all_data in
  NoDup (map c_Enrollment_No out) /\
  (forall x, In x (map c_Enrollment_No out) <-> In x (map Enrollment_No all_data)) /\
  Forall (fun row =>
            let group :=
              filter (fun r => String.eqb (Enrollment_No r) (c_Enrollment_No row)) all_data in
            Cumulative_Total row = fold_right Z.add 0 (map Total_Marks group) /\
            (exists docs,
                NoDup docs /\
                (forall d, In d docs <-> In d (map Source_File group)) /\
                Exam_Count row = Z.of_nat (List.length docs)) /\
            Average_per_Exam row =
              round2 (PrimFloat.div (float_of_Z (Cumulative_Total row))
                        (float_of_Z (Exam_Count row))) /\
            (Exam_Count row < 40 ->
             0 <= Cumulative_Total row <= 99 * Exam_Count row ->
             PrimFloat.eqb (Average_per_Exam row)
               (PrimFloat.div
                  (float_of_Z (half_even (100 * Cumulative_Total row) (Exam_Count row)))
                  (float_of_Z 100)) = true))
    out /\
  (forall X n1 n2 a1 b1 a2 b2 d1 d2 s1 s2,
      d1 <> d2 ->
      exists row,
        calculate_cumulative_rankings
          [mk_record X n1 a1 b1 30 d1 s1; mk_record X n2 a2 b2 45 d2 s2] = [row] /\
        c_Enrollment_No row = X /\ Cumulative_Total row = 75 /\
        Exam_Count row = 2 /\ Average_per_Exam row = 37.5%float) /\
  (forall X n1 n2 a1 b1 a2 b2 t1 t2 d s1 s2,
      exists row,
        calculate_cumulative_rankings
          [mk_record X n1 a1 b1 t1 d s1; mk_record X n2 a2 b2 t2 d s2] = [row] /\
        c_Enrollment_No row = X /\ Cumulative_Total row = t1 + t2 /\ Exam_Count row = 1).
Proof.
  intros out. subst out.
  assert (Hkeys : empty all_data = false ->
            Permutation (map c_Enrollment_No (calculate_cumulative_rankings all_data))
              (unique String.eqb (map Enrollment_No all_data))).
  { intros Hne. rewrite (Permutation_map _ (cumulative_rows_perm all_data Hne)), map_map.
    cbn [cumulative_row_of c_Enrollment_No agg g_Enrollment_No].
    rewrite map_id. apply group_keys_perm. }
  split; [|split; [|split; [|split]]].
  - destruct (empty all_data) eqn:Hne.
    + destruct all_data; [constructor|discriminate].
    + eapply Permutation_NoDup; [symmetry; apply Hkeys; reflexivity|].
      apply unique_NoDup, String.eqb_eq.
  - intros x. destruct (empty all_data) eqn:Hne.
    + destruct all_data; [reflexivity|discriminate].
    + rewrite <- (unique_In String.eqb String.eqb_eq x (map Enrollment_No all_data)).
      split; apply Permutation_in; [|symmetry]; apply Hkeys; reflexivity.
  - destruct (empty all_data) eqn:Hne.
    + destruct all_data; [constructor|discriminate].
    + eapply Permutation_Forall; [symmetry; apply cumulative_rows_perm, Hne|].
      apply Forall_forall. intros row Hrow. apply in_map_iff in Hrow as (key & <- & Hkey).
      cbv zeta. cbn [cumulative_row_of c_Enrollment_No Cumulative_Total Exam_Count
                       Average_per_Exam agg g_Enrollment_No g_Cumulative_Total
                       g_Source_Files].
      fold (group_of key all_data). split; [apply agg_sum_fold_right|].
      split; [|split; [reflexivity|]].
      * exists (unique String.eqb (map Source_File (group_of key all_data))).
        split; [apply unique_NoDup, String.eqb_eq|]. split; [|reflexivity].
        intros d. apply unique_In, String.eqb_eq.
      * intros Hcount Htotal. apply round2_exact_below_40; [split; [|exact Hcount]|exact Htotal].
        assert (Hid : In key (map Enrollment_No all_data)).
        { apply (unique_In String.eqb String.eqb_eq).
          eapply Permutation_in; [apply group_keys_perm|exact Hkey]. }
        apply in_map_iff in Hid as (r & Hr & Hin).
        assert (Hg : In r (group_of key all_data)).
        { apply filter_In. split; [exact Hin|]. apply String.eqb_eq, Hr. }
        destruct (group_of key all_data) as [|r0 g]; [destruct Hg|].
        cbn [map unique List.length]. lia.
  - intros X n1 n2 a1 b1 a2 b2 d1 d2 s1 s2 Hd.
    assert (Hone : group_keys [mk_record X n1 a1 b1 30 d1 s1; mk_record X n2 a2 b2 45 d2 s2]
                    = [X]).
    { unfold group_keys. cbn [map Enrollment_No unique filter].
      rewrite String.eqb_refl. reflexivity. }
    assert (Hfiles : unique String.eqb [d1; d2] = [d1; d2]).
    { cbn [unique filter]. rewrite (proj2 (String.eqb_neq d1 d2) Hd). reflexivity. }
    rewrite cumulative_rankings_ranked. cbn [empty]. unfold groupby_agg. rewrite Hone.
    cbn [map group_of filter Enrollment_No]. rewrite String.eqb_refl.
    unfold agg. cbn [map Source_File]. rewrite Hfiles.
    eexists. split; [reflexivity|]. repeat split.
  - intros X n1 n2 a1 b1 a2 b2 t1 t2 d s1 s2.
    assert (Hone : group_keys [mk_record X n1 a1 b1 t1 d s1; mk_record X n2 a2 b2 t2 d s2]
                   = [X]).
    { unfold group_keys. cbn [map Enrollment_No unique filter].
      rewrite String.eqb_refl. reflexivity. }
    assert (Hfiles : unique String.eqb [d; d] = [d]).
    { cbn [unique filter]. rewrite String.eqb_refl. reflexivity. }
    rewrite cumulative_rankings_ranked. cbn [empty]. unfold groupby_agg. rewrite Hone.
    cbn [map group_of filter Enrollment_No]. rewrite String.eqb_refl.
    unfold agg. cbn [map Source_File]. rewrite Hfiles.
    eexists. split; [reflexivity|]. repeat split.
Qed.

(** ** C6 *)

Lemma pivot_columns_perm all_data :
  Permutation (pivot_columns all_data) (unique String.eqb (map Source_File all_data)).
Proof. apply sort_perm. Qed.

Lemma pivot_row_columns all_data columns key :
  map fst (pivot_row all_data columns key) = columns.
Proof. unfold pivot_row. rewrite map_map. apply map_id. Qed.

Lemma pivot_row_cell all_data columns key d c :
  In (d, c) (pivot_row all_data columns key) <-> In d columns /\ c = cell all_data key d.
Proof.
  unfold pivot_row. rewrite in_map_iff. split.
  - intros (col & [= <- <-] & Hcol). auto.
  - intros [Hd ->]. exists d. auto.
Qed.

(** C6. The pivot has exactly one row per (identifier, name) pair of the
    records, and every row has one cell per distinct source file.  The cell
    of a file holds the total of the student's first record from that file; it
    is missing, not zero, exactly when the student has no record from that
    file.  The cumulative total of the row is the sum of its cells with the
    missing ones counted as zero.  A student with 40 marks in file A only,
    next to a student with 50 marks in file B only, has a missing cell for B
    and the cumulative total 40. *)
Theorem exam_wise_projection (all_data : DataFrame) :
  let out := create_exam_wise_view all_data in
  let key_of := fun row => (e_Enrollment_No row, e_Name row) in
  NoDup (map key_of out) /\
  (forall key, In key (map key_of out) <-> In key (map index_of all_data)) /\
  Forall (fun row =>
            NoDup (map fst (e_Exams row)) /\
            (forall d, In d (map fst (e_Exams row)) <-> In d (map Source_File all_data)) /\
            (forall d c,
                In (d, c) (e_Exams row) ->
                c = agg_first Total_Marks
                      (filter (fun r => (pair_eqb (index_of r) (key_of row)
                                         && String.eqb (Source_File r) d)%bool)
                         all_data)) /\
            (forall d,
                In (d, None) (e_Exams row) <->
                In d (map Source_File all_data) /\
                forall r, In r all_data -> index_of r = key_of row -> Source_File r <> d) /\
            (forall d v,
                In (d, Some v) (e_Exams row) ->
                exists r, In r all_data /\ index_of r = key_of row /\
                          Source_File r = d /\ Total_Marks r = v) /\
            e_Cumulative_Total row =
              fold_right Z.add 0
                (map (fun c => match snd c with Some v => v | None => 0 end) (e_Exams row)))
    out /\
  create_exam_wise_view
    [mk_record "231430142001" "ASHA" 20 20 40 "A.pdf" None;
     mk_record "231430142002" "RAVI" 25 25 50 "B.pdf" None]
  = [mk_exam_row "231430142002" "RAVI" [("A.pdf", None); ("B.pdf", Some 50)] 50 1;
     mk_exam_row "231430142001" "ASHA" [("A.pdf", Some 40); ("B.pdf", None)] 40 2].
Proof.
  intros out key_of. subst out.
  assert (Hcols : forall d, In d (pivot_columns all_data) <-> In d (map Source_File all_data)).
  { intros d. rewrite <- (unique_In String.eqb String.eqb_eq d (map Source_File all_data)).
    split; apply Permutation_in; [|symmetry]; apply pivot_columns_perm. }
  destruct (empty all_data) eqn:Hne.
  { destruct all_data; [|discriminate]. repeat split; try constructor; intros []. }
  destruct (exam_rows_perm all_data Hne) as (rank_of & Hperm).
  assert (Hkeys : Permutation (map key_of (create_exam_wise_view all_data))
                    (unique pair_eqb (map index_of all_data))).
  { rewrite (Permutation_map key_of Hperm), map_map.
    erewrite map_ext; [rewrite map_id; apply sort_perm|].
    intros [a b]. reflexivity. }
  split; [|split; [|split; [|reflexivity]]].
  - eapply Permutation_NoDup; [symmetry; exact Hkeys|].
    apply unique_NoDup, pair_eqb_eq.
  - intros key. rewrite <- (unique_In pair_eqb pair_eqb_eq key (map index_of all_data)).
    split; apply Permutation_in; [|symmetry]; exact Hkeys.
  - eapply Permutation_Forall; [symmetry; exact Hperm|].
    apply Forall_forall. intros row Hrow. apply in_map_iff in Hrow as (key & <- & _).
    cbv zeta. unfold key_of.
    cbn [exam_row_of e_Enrollment_No e_Name e_Exams e_Cumulative_Total fst snd].
    replace (fst key, snd key) with key by (destruct key; reflexivity).
    rewrite pivot_row_columns.
    split; [|split; [exact Hcols|split; [|split; [|split]]]].
    + eapply Permutation_NoDup; [symmetry; apply pivot_columns_perm|].
      apply unique_NoDup, String.eqb_eq.
    + intros d c Hin. apply pivot_row_cell in Hin as [_ ->]. reflexivity.
    + intros d. rewrite pivot_row_cell, Hcols. unfold cell.
      split; intros [Hd Hcell]; (split; [exact Hd|]).
      * symmetry in Hcell. apply agg_first_none in Hcell.
        intros r Hr Hkey Hsrc.
        assert (Hin : In r (filter (fun r => (pair_eqb (index_of r) key
                                               && String.eqb (Source_File r) d)%bool)
                              all_data)).
        { apply filter_In. split; [exact Hr|]. apply andb_true_intro.
          split; [apply pair_eqb_eq, Hkey|apply String.eqb_eq, Hsrc]. }
        rewrite Hcell in Hin. destruct Hin.
      * symmetry. apply agg_first_none. apply filter_none.
        intros r Hr. apply andb_false_iff.
        destruct (pair_eqb (index_of r) key) eqn:E; [right|left; reflexivity].
        apply String.eqb_neq. apply (Hcell r Hr). apply pair_eqb_eq, E.
    + intros d v Hin. apply pivot_row_cell in Hin as [_ Hcell]. unfold cell in Hcell.
      destruct (filter (fun r => (pair_eqb (index_of r) key
                                  && String.eqb (Source_File r) d)%bool) all_data)
        as [|r l] eqn:Hf; [discriminate|].
      injection Hcell as ->. exists r.
      assert (Hin : In r (r :: l)) by (left; reflexivity).
      rewrite <- Hf in Hin. apply filter_In in Hin as [Hr Hb].
      apply andb_prop in Hb as [Hk Hs].
      apply pair_eqb_eq in Hk. apply String.eqb_eq in Hs. auto.
    + unfold row_sum. apply agg_sum_fold_right.
Qed.

(** * Further properties of the extraction *)

(** ** What the matchers consume *)

Lemma one_some {R : Type} (p : ascii -> bool) (k : @cont R) prev s r :
  one p k prev s = Some r ->
  exists c rest, s = String c rest /\ p c = true /\ k (Some c) rest = Some r.
Proof.
  unfold one. destruct s as [|c rest]; [discriminate|].
  destruct (p c) eqn:Hp; [|discriminate]. intros H. exists c, rest. auto.
Qed.

Lemma lit_some {R : Type} (k : @cont R) r : forall l prev s,
  lit l k prev s = Some r ->
  exists rest, s = (l ++ rest)%string /\ k (last_char prev l) rest = Some r.
Proof.
  induction l as [|a l IH]; intros prev s H.
  - exists s. auto.
  - cbn [lit] in H. apply one_some in H as (c & rest & -> & Hc & H).
    apply Ascii.eqb_eq in Hc. subst c.
    apply IH in H as (rest' & -> & H). exists rest'. auto.
Qed.

Lemma spaces_star_some {R : Type} (k : @cont R) r : forall s prev,
  spaces_star k prev s = Some r ->
  exists ws rest,
    s = (ws ++ rest)%string /\ all_chars is_space ws = true /\
    k (last_char prev ws) rest = Some r.
Proof.
  induction s as [|c s IH]; intros prev H.
  - exists "", "". auto.
  - cbn [spaces_star] in H. destruct (is_space c) eqn:Hc.
    + destruct (spaces_star k (Some c) s) as [r'|] eqn:E.
      * injection H as ->. apply IH in E as (ws & rest & -> & Hws & Hk).
        exists (String c ws), rest. simpl. rewrite Hc, Hws. auto.
      * exists "", (String c s). auto.
    + exists "", (String c s). auto.
Qed.

Lemma spaces_plus_some {R : Type} (k : @cont R) r prev s :
  spaces_plus k prev s = Some r ->
  exists ws rest,
    s = (ws ++ rest)%string /\ blank ws = true /\
    k (last_char prev ws) rest = Some r.
Proof.
  unfold spaces_plus. intros H. apply one_some in H as (c & s' & -> & Hc & H).
  apply spaces_star_some in H as (ws & rest & -> & Hws & Hk).
  exists (String c ws), rest. unfold blank. simpl. rewrite Hc, Hws. auto.
Qed.

Lemma digits12_some {R : Type} (k : string -> @cont R) r prev s :
  digits12 k prev s = Some r ->
  exists g rest,
    s = (g ++ rest)%string /\ digits_1_2 g = true /\
    k g (last_char prev g) rest = Some r.
Proof.
  unfold digits12. destruct s as [|c1 r1]; [discriminate|].
  destruct (is_digit c1) eqn:H1; [|discriminate].
  assert (Hone : k (String c1 "") (Some c1) r1 = Some r ->
                 exists g rest,
                   String c1 r1 = (g ++ rest)%string /\ digits_1_2 g = true /\
                   k g (last_char prev g) rest = Some r).
  { intros H. exists (String c1 ""), r1. unfold digits_1_2. simpl. rewrite H1. auto. }
  destruct r1 as [|c2 r2]; [exact Hone|].
  destruct (is_digit c2) eqn:H2; [|exact Hone].
  destruct (k (String c1 (String c2 "")) (Some c2) r2) as [r'|] eqn:E; [|exact Hone].
  intros H. injection H as ->.
  exists (String c1 (String c2 "")), r2. unfold digits_1_2. simpl. rewrite H1, H2. auto.
Qed.

Lemma digits_1_2_head g rest :
  digits_1_2 g = true -> word_at (head (g ++ rest)%string) = true.
Proof.
  unfold digits_1_2. destruct g as [|c g]; [discriminate|].
  simpl. intros H. apply andb_prop in H as [H _]. apply andb_prop in H as [H _].
  unfold is_word. rewrite H. reflexivity.
Qed.

Lemma digits_1_2_cases g :
  digits_1_2 g = true ->
  (exists c, g = String c "" /\ is_digit c = true) \/
  (exists c1 c2, g = String c1 (String c2 "") /\ is_digit c1 = true /\ is_digit c2 = true).
Proof.
  unfold digits_1_2. intros H. apply andb_prop in H as [Hd Hl].
  destruct g as [|c1 [|c2 [|c3 g]]]; simpl in Hl; try discriminate.
  - left. exists c1. simpl in Hd. rewrite andb_true_r in Hd. auto.
  - right. exists c1, c2. simpl in Hd. rewrite andb_true_r in Hd.
    apply andb_prop in Hd as [H1 H2]. auto.
Qed.

Lemma is_digit_word c : is_digit c = true -> is_word c = true.
Proof. intros H. unfold is_word. rewrite H. reflexivity. Qed.

Lemma digits_1_2_last g prev :
  digits_1_2 g = true -> word_at (last_char prev g) = true.
Proof.
  intros H. destruct (digits_1_2_cases g H) as [(c & -> & Hc)|(c1 & c2 & -> & H1 & H2)];
    simpl; apply is_digit_word; assumption.
Qed.

Lemma is_digit_value c : is_digit c = true -> 0 <= digit_value c <= 9.
Proof.
  unfold is_digit, in_range, digit_value. intros H. apply andb_prop in H as [H1 H2].
  apply N.leb_le in H1, H2. lia.
Qed.

Lemma digits_1_2_int g : digits_1_2 g = true -> 0 <= int g <= 99.
Proof.
  intros H. destruct (digits_1_2_cases g H) as [(c & -> & Hc)|(c1 & c2 & -> & H1 & H2)];
    unfold int; cbn [int_acc].
  - pose proof (is_digit_value c Hc). lia.
  - pose proof (is_digit_value c1 H1). pose proof (is_digit_value c2 H2). lia.
Qed.

(** The marks pattern at one position. *)
Lemma marks_re_some prev s g1 g2 g3 :
  marks_re prev s = Some (g1, g2, g3) ->
  exists ws1 ws2 post,
    s = (g1 ++ ws1 ++ g2 ++ ws2 ++ g3 ++ post)%string /\
    digits_1_2 g1 = true /\ digits_1_2 g2 = true /\ digits_1_2 g3 = true /\
    blank ws1 = true /\ blank ws2 = true /\
    word_at prev = false /\ word_at (head post) = false.
Proof.
  unfold marks_re, wordb at 1.
  destruct (boundary prev (head s)) eqn:Hb; [|discriminate]. intros H.
  apply digits12_some in H as (h1 & r1 & -> & Hg1 & H).
  apply spaces_plus_some in H as (ws1 & r2 & -> & Hw1 & H).
  apply digits12_some in H as (h2 & r3 & -> & Hg2 & H).
  apply spaces_plus_some in H as (ws2 & r4 & -> & Hw2 & H).
  apply digits12_some in H as (h3 & post & -> & Hg3 & H).
  unfold wordb in H.
  destruct (boundary _ (head post)) eqn:Hb2; [|discriminate].
  injection H as -> -> ->.
  exists ws1, ws2, post. repeat split; trivial.
  - unfold boundary in Hb. rewrite digits_1_2_head in Hb by exact Hg1.
    destruct (word_at prev); [discriminate|reflexivity].
  - unfold boundary in Hb2. rewrite digits_1_2_last in Hb2 by exact Hg3.
    destruct (word_at (head post)); [discriminate|reflexivity].
Qed.

Lemma space_not_digit c : is_space c = true -> is_digit c = false.
Proof.
  destruct c as [[] [] [] [] [] [] [] []]; vm_compute; intros H;
    first [reflexivity | discriminate H].
Qed.

Lemma not_word_not_digit o : word_at o = false -> forall c, o = Some c -> is_digit c = false.
Proof.
  intros H c ->. simpl in H. destruct (is_digit c) eqn:E; [|reflexivity].
  rewrite (is_digit_word c E) in H. discriminate.
Qed.

Lemma blank_head ws rest :
  blank ws = true -> exists c, head (ws ++ rest)%string = Some c /\ is_space c = true.
Proof.
  unfold blank. destruct ws as [|c ws]; simpl.
  - discriminate.
  - intros H. rewrite andb_true_r in H. apply andb_prop in H as [H _]. eauto.
Qed.

Lemma digits_head g rest :
  digits_1_2 g = true -> exists c, head (g ++ rest)%string = Some c /\ is_digit c = true.
Proof.
  intros H. destruct (digits_1_2_cases g H) as [(c & -> & Hc)|(c1 & c2 & -> & H1 & H2)];
    simpl; eauto.
Qed.

Lemma digits12_intro {R : Type} (k : string -> @cont R) r prev g rest :
  digits_1_2 g = true ->
  (forall c, head rest = Some c -> is_digit c = false) ->
  k g (last_char prev g) rest = Some r ->
  digits12 k prev (g ++ rest)%string = Some r.
Proof.
  intros Hg Hrest Hk.
  destruct (digits_1_2_cases g Hg) as [(c & -> & Hc)|(c1 & c2 & -> & H1 & H2)].
  - simpl in *. rewrite Hc. destruct rest as [|c2 r2]; [exact Hk|].
    rewrite (Hrest c2 eq_refl). exact Hk.
  - simpl in *. rewrite H1, H2, Hk. reflexivity.
Qed.

Lemma spaces_star_intro {R : Type} (k : @cont R) r rest :
  (forall c, head rest = Some c -> is_space c = false) ->
  forall ws prev,
    all_chars is_space ws = true ->
    k (last_char prev ws) rest = Some r ->
    spaces_star k prev (ws ++ rest)%string = Some r.
Proof.
  intros Hrest. induction ws as [|c ws IH]; intros prev Hws Hk.
  - simpl in *. destruct rest as [|c r0]; [exact Hk|].
    cbn [spaces_star]. rewrite (Hrest c eq_refl). exact Hk.
  - simpl in Hws. apply andb_prop in Hws as [Hc Hws].
    cbn [String.append spaces_star]. rewrite Hc, (IH (Some c) Hws Hk). reflexivity.
Qed.

Lemma spaces_plus_intro {R : Type} (k : @cont R) r rest ws prev :
  (forall c, head rest = Some c -> is_space c = false) ->
  blank ws = true ->
  k (last_char prev ws) rest = Some r ->
  spaces_plus k prev (ws ++ rest)%string = Some r.
Proof.
  intros Hrest Hws Hk. unfold blank in Hws. destruct ws as [|c ws].
  - simpl in Hws. discriminate.
  - simpl in Hws. rewrite andb_true_r in Hws. apply andb_prop in Hws as [Hc Hws].
    unfold spaces_plus, one. cbn [String.append]. rewrite Hc.
    apply spaces_star_intro; assumption.
Qed.

Lemma digit_not_space c : is_digit c = true -> is_space c = false.
Proof.
  intros H. destruct (is_space c) eqn:E; [|reflexivity].
  rewrite (space_not_digit c E) in H. discriminate.
Qed.

(** The marks pattern at one position, in both directions. *)
Lemma marks_re_spec prev s g1 g2 g3 :
  marks_re prev s = Some (g1, g2, g3) <->
  exists ws1 ws2 post,
    s = (g1 ++ ws1 ++ g2 ++ ws2 ++ g3 ++ post)%string /\
    digits_1_2 g1 = true /\ digits_1_2 g2 = true /\ digits_1_2 g3 = true /\
    blank ws1 = true /\ blank ws2 = true /\
    word_at prev = false /\ word_at (head post) = false.
Proof.
  split; [apply marks_re_some|].
  intros (ws1 & ws2 & post & -> & Hg1 & Hg2 & Hg3 & Hw1 & Hw2 & Hprev & Hpost).
  unfold marks_re, wordb at 1, boundary.
  rewrite digits_1_2_head by exact Hg1. rewrite Hprev. cbn [xorb].
  assert (Hsp : forall ws rest, blank ws = true ->
            forall c, head (ws ++ rest)%string = Some c -> is_digit c = false).
  { intros ws rest Hws c Hc. destruct (blank_head ws rest Hws) as (c' & Hc' & Hs).
    rewrite Hc in Hc'. injection Hc' as <-. apply space_not_digit, Hs. }
  assert (Hdg : forall g rest, digits_1_2 g = true ->
            forall c, head (g ++ rest)%string = Some c -> is_space c = false).
  { intros g rest Hg c Hc. destruct (digits_head g rest Hg) as (c' & Hc' & Hd).
    rewrite Hc in Hc'. injection Hc' as <-. apply digit_not_space, Hd. }
  apply digits12_intro; [exact Hg1|apply Hsp, Hw1|].
  apply spaces_plus_intro; [apply Hdg, Hg2|exact Hw1|].
  apply digits12_intro; [exact Hg2|apply Hsp, Hw2|].
  apply spaces_plus_intro; [apply Hdg, Hg3|exact Hw2|].
  apply digits12_intro; [exact Hg3|apply not_word_not_digit, Hpost|].
  unfold wordb, boundary. rewrite digits_1_2_last by exact Hg3. rewrite Hpost. reflexivity.
Qed.

Lemma append_split_shorter : forall (a b x y : string),
  (a ++ x = b ++ y)%string -> (String.length b < String.length a)%nat ->
  exists c t, a = (b ++ String c t)%string /\ y = (String c t ++ x)%string.
Proof.
  induction a as [|ca a IHa]; intros b x y Habxy Hlen; [simpl in Hlen; lia|].
  destruct b as [|cb b].
  - simpl in Habxy. subst y. exists ca, a. split; reflexivity.
  - simpl in Habxy. injection Habxy as <- Habxy. simpl in Hlen.
    destruct (IHa b x y Habxy) as (c & t & -> & ->); [lia|].
    exists c, t. split; reflexivity.
Qed.

(** ** The score triple of a line *)

(** X1. The marks pattern finds a triple in a line exactly when three groups
    of one or two digits stand there one after the other, separated by
    whitespace only and free of word characters at both ends; the triple
    returned is the leftmost such occurrence, and a line without one gives no
    triple. *)
Theorem marks_search_leftmost (line : string) :
  (forall g1 g2 g3,
      marks_search line = Some (g1, g2, g3) <->
      exists pre,
        triple_occurrence line pre g1 g2 g3 /\
        forall pre' h1 h2 h3,
          triple_occurrence line pre' h1 h2 h3 ->
          (String.length pre <= String.length pre')%nat) /\
  (marks_search line = None <->
   forall pre g1 g2 g3, ~ triple_occurrence line pre g1 g2 g3).
Proof.
  assert (Hat : forall pre g1 g2 g3,
             triple_occurrence line pre g1 g2 g3 <->
             exists rest, line = (pre ++ rest)%string /\
                          marks_re (last_char None pre) rest = Some (g1, g2, g3)).
  { intros pre g1 g2 g3. unfold triple_occurrence. split.
    - intros (ws1 & ws2 & post & -> & H). eexists. split; [reflexivity|].
      apply marks_re_spec. exists ws1, ws2, post. split; [reflexivity|exact H].
    - intros (rest & -> & H). apply marks_re_spec in H as (ws1 & ws2 & post & -> & H).
      exists ws1, ws2, post. split; [reflexivity|exact H]. }
  assert (Hfound : forall g1 g2 g3,
             marks_search line = Some (g1, g2, g3) ->
             exists pre,
               triple_occurrence line pre g1 g2 g3 /\
               forall pre' h1 h2 h3,
                 triple_occurrence line pre' h1 h2 h3 ->
                 (String.length pre <= String.length pre')%nat).
  { intros g1 g2 g3 H. apply search_found in H as (pre & rest & Hline & Hm & Hbefore).
    exists pre. split; [apply Hat; eauto|].
    intros pre' h1 h2 h3 Hocc. apply Hat in Hocc as (rest' & Hline' & Hm').
    destruct (Nat.le_gt_cases (String.length pre) (String.length pre')) as [|Hlt]; trivial.
    exfalso. rewrite Hline in Hline'.
    destruct (append_split_shorter pre pre' _ _ Hline' Hlt) as (c & t & Hpre & Hrest).
    specialize (Hbefore pre' c t Hpre). rewrite <- Hrest in Hbefore. congruence. }
  assert (Hsome : forall pre rest t prev,
             marks_re (last_char prev pre) rest = Some t ->
             search marks_re prev (pre ++ rest)%string <> None).
  { induction pre as [|c pre IH]; intros rest t prev Hm.
    - simpl in *. destruct rest; cbn [search]; rewrite Hm; discriminate.
    - cbn [String.append search].
      destruct (marks_re prev (String c (pre ++ rest)%string)); [discriminate|].
      apply (IH rest t (Some c)). exact Hm. }
  split.
  - intros g1 g2 g3. split; [apply Hfound|].
    intros (pre & Hocc & Hmin). apply Hat in Hocc as (rest & -> & Hm).
    unfold marks_search, re_search. rewrite search_skip.
    + destruct rest; cbn [search]; rewrite Hm; reflexivity.
    + intros p1 c p2 ->.
      destruct (marks_re (last_char None p1) (String c p2 ++ rest)%string)
        as [[[h1 h2] h3]|] eqn:E; [|reflexivity].
      exfalso.
      assert (Hocc : triple_occurrence ((p1 ++ String c p2) ++ rest)%string p1 h1 h2 h3).
      { apply Hat. eexists. split; [apply append_assoc|exact E]. }
      apply Hmin in Hocc. rewrite length_append in Hocc. simpl in Hocc. lia.
  - split.
    + intros Hnone pre g1 g2 g3 Hocc. apply Hat in Hocc as (rest & -> & Hm).
      exact (Hsome pre rest _ None Hm Hnone).
    + intros Hno. destruct (marks_search line) as [[[g1 g2] g3]|] eqn:E; [|reflexivity].
      exfalso. destruct (Hfound g1 g2 g3 eq_refl) as (pre & Hocc & _).
      exact (Hno _ _ _ _ Hocc).
Qed.

(** ** The records of a document *)

Lemma enrollment_search_shape line e :
  enrollment_search line = Some e -> identifier_shape e = true.
Proof.
  intros H. apply search_found in H as (pre & rest & _ & Hm & _).
  apply enrollment_re_spec in Hm as (post & _ & Hid & _). exact Hid.
Qed.

Lemma line_triple_bounds l a b t :
  line_triple l = Some (a, b, t) ->
  0 <= a <= 99 /\ 0 <= b <= 99 /\ 0 <= t <= 99 /\ Z.abs (a + b - t) <= 1.
Proof.
  unfold line_triple. destruct (marks_search l) as [[[g1 g2] g3]|] eqn:E; [|discriminate].
  destruct (marks_make_sense (int g1) (int g2) (int g3)) eqn:Hv; [|discriminate].
  intros [= <- <- <-].
  apply search_found in E as (pre & rest & _ & Hm & _).
  apply marks_re_some in Hm as (ws1 & ws2 & post & _ & Hg1 & Hg2 & Hg3 & _).
  repeat split; try (apply digits_1_2_int; assumption).
  apply Z.leb_le. exact Hv.
Qed.

Lemma marks_loop_line_triple lines i m : forall offsets,
  marks_loop lines i offsets = Some m -> exists l, In l lines /\ line_triple l = Some m.
Proof.
  induction offsets as [|offset rest IH]; [discriminate|].
  rewrite marks_loop_cons. unfold window_triple.
  destruct (nth_error lines (i + offset)) as [l|] eqn:Hnth; [|exact IH].
  destruct (line_triple l) as [m0|] eqn:E; [|exact IH].
  intros [= <-]. exists l. split; [eapply nth_error_In; eauto|exact E].
Qed.

Lemma line_step_well_formed file_name lines i line r :
  In r (line_step file_name lines [] i line) ->
  Source_File r = file_name /\ well_formed r.
Proof.
  unfold line_step, absent_step.
  destruct (enrollment_search line) as [e|] eqn:He; [|intros []].
  apply enrollment_search_shape in He.
  destruct (marks_loop lines i (range 4)) as [[[a b] t]|] eqn:Hm.
  - intros [<-|[]]. apply marks_loop_line_triple in Hm as (l & _ & Hl).
    apply line_triple_bounds in Hl as (Ha & Hb & Ht & Hv).
    split; [reflexivity|]. unfold well_formed. simpl. auto 10.
  - destruct (nth_error lines (i + 1)) as [check_line|]; [|intros []].
    destruct (contains "AB" check_line); [|intros []].
    intros [<-|[]]. split; [reflexivity|]. unfold well_formed. simpl.
    repeat split; trivial; try lia. right. auto.
Qed.

Lemma page_step_well_formed file_name text r :
  In r (page_step file_name [] text) -> Source_File r = file_name /\ well_formed r.
Proof.
  destruct text as [[|c t]|]; cbn [page_step]; try (intros []).
  cbv zeta. rewrite lines_loop_flat_map. cbn [app]. intros H.
  apply in_flat_map in H as (il & _ & H). apply line_step_well_formed in H. exact H.
Qed.

Lemma document_records_well_formed f r :
  In r (document_records f) -> Source_File r = name f /\ well_formed r.
Proof.
  unfold document_records. destruct (open_pdf f) as [pages|]; [|intros []].
  destruct (page_texts pages) as [texts|]; [|intros []].
  rewrite pages_fold_flat_map. cbn [app]. intros H.
  apply in_flat_map in H as (text & _ & H). apply page_step_well_formed in H. exact H.
Qed.

Lemma process_multiple_pdfs_concat files :
  process_multiple_pdfs files = Returns (List.concat (map document_records files)).
Proof.
  unfold process_multiple_pdfs. rewrite files_loop_frames.
  cbn [bind app]. rewrite <- (concat_nonempty (map document_records files)).
  unfold pd_concat.
  destruct (filter (fun df => negb (empty df)) (map document_records files)); reflexivity.
Qed.

(** X2. Extraction of a document always returns a frame, and every record in
    it carries the name of the document as its source file, an identifier of
    the twelve-digit shape, marks between 0 and 99, and is either a present
    record whose total is within one mark of the section sum or an absent
    record with all marks zero. *)
Theorem extracted_records_well_formed (pdf_file : UploadedFile) :
  exists df,
    extract_marks_from_pdf pdf_file = Returns df /\
    Forall (fun r => Source_File r = name pdf_file /\ well_formed r) df.
Proof.
  exists (document_records pdf_file). split; [apply extract_marks_document_records|].
  apply Forall_forall. intros r. apply document_records_well_formed.
Qed.

(** X3. Every record of the combined frame is well formed and names one of
    the uploaded files as its source, and the combined frame has as many rows
    as the frames of the documents together. *)
Theorem batch_records_provenance (uploaded_files : list UploadedFile) :
  exists df,
    process_multiple_pdfs uploaded_files = Returns df /\
    Forall (fun r => In (Source_File r) (map name uploaded_files) /\ well_formed r) df /\
    List.length df =
      fold_right Nat.add 0%nat
        (map (fun f => List.length (document_records f)) uploaded_files).
Proof.
  exists (List.concat (map document_records uploaded_files)).
  split; [apply process_multiple_pdfs_concat|]. split.
  - apply Forall_forall. intros r Hr. apply in_concat in Hr as (df & Hdf & Hr).
    apply in_map_iff in Hdf as (f & <- & Hf).
    apply document_records_well_formed in Hr as [Hs Hw]. split; [|exact Hw].
    rewrite Hs. apply in_map, Hf.
  - induction uploaded_files as [|f rest IH]; [reflexivity|].
    cbn [map List.concat fold_right]. rewrite length_app, IH. reflexivity.
Qed.

(** ** The name of a record *)

Lemma rev_string_rev : forall g a b,
  rev_string a (rev_string b g) = rev_string (g ++ a)%string b.
Proof.
  induction g as [|c g IH]; intros a b; [reflexivity|].
  cbn [rev_string]. rewrite IH. reflexivity.
Qed.

Lemma append_empty_r : forall s : string, (s ++ "")%string = s.
Proof. induction s as [|c s IH]; simpl; [reflexivity|]. rewrite IH. reflexivity. Qed.

Lemma any_lazy_some {R : Type} (k : string -> @cont R) r : forall s acc,
  any_lazy acc k s = Some r ->
  exists g rest,
    s = (g ++ rest)%string /\ g <> "" /\ all_chars not_newline g = true /\
    k (rev_string acc g) (last_char None g) rest = Some r.
Proof.
  induction s as [|c s IH]; intros acc H; [discriminate|].
  cbn [any_lazy] in H. destruct (Ascii.eqb c newline) eqn:Hc; [discriminate|].
  destruct (k (String c acc) (Some c) s) as [r'|] eqn:E.
  - injection H as ->. exists (String c ""), s. unfold not_newline. simpl. rewrite Hc.
    repeat split; trivial. discriminate.
  - cbn [or_else] in H. apply IH in H as (g & rest & -> & Hne & Hg & Hk).
    exists (String c g), rest. unfold not_newline in *. simpl. rewrite Hc, Hg.
    repeat split; trivial; [discriminate|].
    destruct g; [contradiction Hne; reflexivity|exact Hk].
Qed.

Lemma chars_some {R : Type} (k : @cont R) r ps prev s :
  chars ps k prev s = Some r ->
  exists u rest, s = (u ++ rest)%string /\ has_classes ps u = true.
Proof.
  intros H. apply chars_spec in H as (u & rest & Hs & Hu & _). eauto.
Qed.

Lemma name_re_some prev s g :
  name_re prev s = Some g ->
  exists ws1 d ws2 ws3 u post,
    s = ("CSE(AIML)" ++ ws1 ++ "D" ++ String d "" ++ ws2 ++ g ++ ws3 ++ u ++ post)%string /\
    blank ws1 = true /\ is_1_or_2 d = true /\ blank ws2 = true /\
    g <> "" /\ all_chars not_newline g = true /\
    blank ws3 = true /\ has_classes [is_upper; is_upper; is_upper] u = true.
Proof.
  unfold name_re. intros H.
  apply lit_some in H as (r1 & -> & H).
  apply spaces_plus_some in H as (ws1 & r2 & -> & Hw1 & H).
  apply lit_some in H as (r3 & -> & H).
  apply one_some in H as (d & r4 & -> & Hd & H).
  apply spaces_plus_some in H as (ws2 & r5 & -> & Hw2 & H).
  apply any_lazy_some in H as (h & r6 & -> & Hne & Hnl & H).
  apply spaces_plus_some in H as (ws3 & r7 & -> & Hw3 & H).
  change (chars [is_upper; is_upper; is_upper]
            (fun _ _ => Some (rev_string "" (rev_string "" h)))
            (last_char (last_char None h) ws3) r7 = Some g) in H.
  apply chars_spec in H as (u & post & -> & Hu & H).
  rewrite rev_string_rev in H. cbn [rev_string] in H. rewrite append_empty_r in H.
  injection H as <-.
  exists ws1, d, ws2, ws3, u, post. repeat split; trivial.
Qed.

Lemma lstrip_split : forall s,
  exists l, s = (l ++ lstrip s)%string /\ all_chars is_space l = true.
Proof.
  induction s as [|c s (l & Hs & Hl)]; [exists ""; auto|].
  cbn [lstrip]. destruct (is_space c) eqn:Hc.
  - exists (String c l). simpl. rewrite Hc, Hl, <- Hs. auto.
  - exists "". auto.
Qed.

Lemma rstrip_split : forall s,
  exists r, s = (rstrip s ++ r)%string /\ all_chars is_space r = true.
Proof.
  induction s as [|c s (r & Hs & Hr)]; [exists ""; auto|].
  cbn [rstrip]. destruct (rstrip s) as [|c' t] eqn:E.
  - simpl in Hs. subst r. destruct (is_space c) eqn:Hc.
    + exists (String c s). simpl. rewrite Hc, Hr. auto.
    + exists s. auto.
  - exists r. split; [|exact Hr]. simpl. f_equal. exact Hs.
Qed.

Lemma lstrip_head s c : head (lstrip s) = Some c -> is_space c = false.
Proof.
  induction s as [|c0 s IH]; [discriminate|].
  cbn [lstrip]. destruct (is_space c0) eqn:Hc; [exact IH|].
  simpl. intros [= <-]. exact Hc.
Qed.

Lemma rstrip_head s c : head (rstrip s) = Some c -> head s = Some c.
Proof.
  destruct s as [|c0 s]; [discriminate|]. cbn [rstrip].
  destruct (rstrip s); [destruct (is_space c0)|]; simpl; congruence.
Qed.

Lemma rstrip_last : forall s prev c,
  rstrip s <> "" -> last_char prev (rstrip s) = Some c -> is_space c = false.
Proof.
  induction s as [|c0 s IH]; intros prev c Hne; [contradiction Hne; reflexivity|].
  cbn [rstrip] in *. destruct (rstrip s) as [|c' t] eqn:E.
  - destruct (is_space c0) eqn:Hc; [contradiction Hne; reflexivity|].
    simpl. intros [= <-]. exact Hc.
  - intros H. apply (IH (Some c0) c); [discriminate|exact H].
Qed.

Lemma strip_clean s :
  (forall c, head (strip s) = Some c -> is_space c = false) /\
  (forall c, last_char None (strip s) = Some c -> is_space c = false).
Proof.
  unfold strip. split; intros c H.
  - apply rstrip_head in H. apply (lstrip_head s c H).
  - destruct (rstrip (lstrip s)) eqn:E; [discriminate|].
    rewrite <- E in H. apply (rstrip_last (lstrip s) None c); [congruence|exact H].
Qed.

(** X4. The name recorded for a line is either the sentinel Unknown, used
    whenever the name pattern does not match and in particular whenever the
    line lacks the marker CSE(AIML), or the text of the pattern's group with
    the whitespace at its two ends removed.  That group is a non-empty stretch
    of the line standing after the marker, whitespace, D1 or D2 and
    whitespace, and before whitespace and three capital letters.  The recorded
    name never begins or ends with whitespace. *)
Theorem name_resolver_sound (line : string) :
  (name_search line = None -> resolve_name line = "Unknown") /\
  (contains "CSE(AIML)" line = false -> resolve_name line = "Unknown") /\
  (forall g,
      name_search line = Some g ->
      name_occurrence line g /\
      exists l r,
        g = (l ++ resolve_name line ++ r)%string /\
        all_chars is_space l = true /\ all_chars is_space r = true) /\
  (forall c, head (resolve_name line) = Some c -> is_space c = false) /\
  (forall c, last_char None (resolve_name line) = Some c -> is_space c = false).
Proof.
  assert (Hocc : forall g, name_search line = Some g -> name_occurrence line g).
  { intros g H. apply search_found in H as (pre & rest & -> & Hm & _).
    apply name_re_some in Hm as (ws1 & d & ws2 & ws3 & u & post & -> & Hrest).
    exists pre, ws1, d, ws2, ws3, u, post. split; [reflexivity|exact Hrest]. }
  unfold resolve_name. split; [intros ->; reflexivity|]. split; [|split; [|split]].
  - intros Hno. destruct (name_search line) as [g|] eqn:E; [|reflexivity].
    exfalso. destruct (Hocc g eq_refl) as (pre & ws1 & d & ws2 & ws3 & u & post & Hl & _).
    assert (Hc : contains "CSE(AIML)" line = true).
    { apply contains_append. exists pre. eexists. exact Hl. }
    congruence.
  - intros g Hg. split; [apply Hocc, Hg|]. rewrite Hg. unfold strip.
    destruct (lstrip_split g) as (l & Hl & Hls).
    destruct (rstrip_split (lstrip g)) as (r & Hr & Hrs).
    exists l, r. split; [|auto]. rewrite <- Hr. exact Hl.
  - intros c. destruct (name_search line) as [g|]; [apply strip_clean|].
    simpl. intros [= <-]. reflexivity.
  - intros c. destruct (name_search line) as [g|]; [apply strip_clean|].
    simpl. intros [= <-]. reflexivity.
Qed.

(** ** The lines of a page *)

Lemma split_lines_cons s : exists l ls, split_lines s = l :: ls.
Proof.
  induction s as [|c s (l & ls & IH)]; [exists "", []; reflexivity|].
  cbn [split_lines]. rewrite IH. destruct (Ascii.eqb c newline); eauto.
Qed.

Lemma concat_cons_cons sep (x y : string) ys :
  String.concat sep (x :: y :: ys) = (x ++ sep ++ String.concat sep (y :: ys))%string.
Proof. reflexivity. Qed.

(** X5. Splitting a page text at the newlines loses nothing: the lines
    joined again with newlines give the text back, no line contains a
    newline, and there is always at least one line, one more than there are
    newlines in the text. *)
Theorem split_lines_round_trip (text : string) :
  String.concat (String newline "") (split_lines text) = text /\
  Forall (fun line => all_chars not_newline line = true) (split_lines text) /\
  List.length (split_lines text) =
    S (List.length (filter (fun c => Ascii.eqb c newline) (list_ascii_of_string text))).
Proof.
  induction text as [|c text (IHjoin & IHnl & IHlen)].
  - repeat split. repeat constructor.
  - cbn [split_lines list_ascii_of_string filter].
    destruct (split_lines_cons text) as (l & ls & E). rewrite E in *.
    destruct (Ascii.eqb c newline) eqn:Hc.
    + apply Ascii.eqb_eq in Hc. subst c. repeat split.
      * rewrite concat_cons_cons, IHjoin. reflexivity.
      * constructor; [reflexivity|exact IHnl].
      * cbn [List.length] in *. rewrite IHlen. reflexivity.
    + repeat split.
      * destruct ls as [|l' ls]; [simpl in *; congruence|].
        rewrite concat_cons_cons. rewrite concat_cons_cons in IHjoin.
        cbn [String.append]. f_equal. exact IHjoin.
      * inversion IHnl as [|? ? Hl Hls]; subst. constructor; [|exact Hls].
        unfold not_newline in *. simpl. rewrite Hc, Hl. reflexivity.
      * exact IHlen.
Qed.

(** * Further properties of the two views *)

(** ** Sums over groups *)

Lemma total_of_app {A : Type} (f : A -> Z) (l l' : list A) :
  total_of f (l ++ l') = total_of f l + total_of f l'.
Proof.
  unfold total_of. induction l as [|x l IH]; simpl; [reflexivity|]. rewrite IH. lia.
Qed.

Lemma total_of_perm {A : Type} (f : A -> Z) (l l' : list A) :
  Permutation l l' -> total_of f l = total_of f l'.
Proof.
  unfold total_of. induction 1; simpl; lia.
Qed.

Lemma total_of_map {A B : Type} (g : A -> B) (f : B -> Z) (l : list A) :
  total_of f (map g l) = total_of (fun x => f (g x)) l.
Proof. unfold total_of. rewrite map_map. reflexivity. Qed.

Lemma total_of_ext {A : Type} (f g : A -> Z) (l : list A) :
  (forall x, In x l -> f x = g x) -> total_of f l = total_of g l.
Proof.
  unfold total_of. intros H. f_equal. apply map_ext_in, H.
Qed.

Section Partition.
Context {A K : Type} (key : A -> K) (eqb : K -> K -> bool) (f : A -> Z).
Hypothesis eqb_eq : forall x y, eqb x y = true <-> x = y.

Lemma indicator_sum v k0 : forall keys,
  NoDup keys -> In k0 keys ->
  total_of (fun k => if eqb k0 k then v else 0) keys = v.
Proof.
  unfold total_of. induction keys as [|k keys IH]; intros Hnd Hin; [destruct Hin|].
  inversion Hnd as [|? ? Hnotin Hnd']; subst. simpl.
  destruct (eqb k0 k) eqn:E.
  - apply eqb_eq in E. subst k.
    replace (fold_right Z.add 0 (map (fun k => if eqb k0 k then v else 0) keys)) with 0;
      [lia|].
    symmetry. clear IH Hin Hnd Hnd'. induction keys as [|k keys IH]; [reflexivity|].
    simpl. destruct (eqb k0 k) eqn:E.
    + apply eqb_eq in E. subst k. exfalso. apply Hnotin. left. reflexivity.
    + rewrite IH; [reflexivity|]. intros H. apply Hnotin. right. exact H.
  - destruct Hin as [->|Hin].
    + rewrite (proj2 (eqb_eq k0 k0) eq_refl) in E. discriminate.
    + rewrite (IH Hnd' Hin). lia.
Qed.

Lemma partition_sum keys : forall l,
  NoDup keys ->
  (forall x, In x l -> In (key x) keys) ->
  total_of (fun k => total_of f (filter (fun x => eqb (key x) k) l)) keys = total_of f l.
Proof.
  induction l as [|x l IH]; intros Hnd Hin.
  - unfold total_of. simpl. clear Hnd Hin.
    induction keys as [|k keys IHk]; simpl; [reflexivity|]. exact IHk.
  - rewrite (total_of_ext _
               (fun k => (if eqb (key x) k then f x else 0)
                         + total_of f (filter (fun y => eqb (key y) k) l))).
    + assert (Hsplit : forall (g h : K -> Z) ks,
                 total_of (fun k => g k + h k) ks = total_of g ks + total_of h ks).
      { unfold total_of. induction ks as [|k ks IHk]; simpl; [reflexivity|].
        rewrite IHk. lia. }
      rewrite Hsplit, IH, indicator_sum; trivial.
      * apply Hin. left. reflexivity.
      * intros y Hy. apply Hin. right. exact Hy.
    + intros k _. cbn [filter]. destruct (eqb (key x) k); unfold total_of; simpl; lia.
Qed.
End Partition.

(** ** The rows of the cumulative ranking *)

Lemma group_keys_NoDup all_data : NoDup (group_keys all_data).
Proof.
  eapply Permutation_NoDup; [symmetry; apply group_keys_perm|].
  apply unique_NoDup, String.eqb_eq.
Qed.

Lemma group_keys_In all_data x :
  In x (group_keys all_data) <-> In x (map Enrollment_No all_data).
Proof.
  rewrite <- (unique_In String.eqb String.eqb_eq x (map Enrollment_No all_data)).
  split; apply Permutation_in; [|symmetry]; apply group_keys_perm.
Qed.

Lemma cumulative_rows_shape all_data row :
  In row (calculate_cumulative_rankings all_data) ->
  In (c_Enrollment_No row) (map Enrollment_No all_data) /\
  exists rank,
    row = cumulative_row_of
            (agg (c_Enrollment_No row) (group_of (c_Enrollment_No row) all_data)) rank.
Proof.
  destruct (empty all_data) eqn:Hne.
  - destruct all_data; [intros []|discriminate].
  - intros H. eapply Permutation_in in H; [|apply cumulative_rows_perm, Hne].
    apply in_map_iff in H as (key & <- & Hkey). cbv zeta.
    cbn [cumulative_row_of c_Enrollment_No agg g_Enrollment_No].
    split; [apply group_keys_In, Hkey|]. eexists. reflexivity.
Qed.

Lemma group_of_nonempty all_data key :
  In key (map Enrollment_No all_data) -> group_of key all_data <> [].
Proof.
  intros H. apply in_map_iff in H as (r & Hr & Hin).
  assert (Hg : In r (group_of key all_data)).
  { apply filter_In. split; [exact Hin|]. apply String.eqb_eq, Hr. }
  intros E. rewrite E in Hg. destruct Hg.
Qed.

Lemma filter_first {A : Type} (p : A -> bool) x t : forall l,
  filter p l = x :: t ->
  exists before after,
    l = before ++ x :: after /\ p x = true /\ forall y, In y before -> p y = false.
Proof.
  induction l as [|y l IH]; [discriminate|].
  cbn [filter]. destruct (p y) eqn:Hy.
  - intros [= -> <-]. exists [], l. repeat split; trivial. intros ? [].
  - intros H. destruct (IH H) as (before & after & -> & Hx & Hb).
    exists (y :: before), after. repeat split; trivial.
    intros z [<-|Hz]; [exact Hy|apply Hb, Hz].
Qed.

Lemma unique_length_le {A : Type} (eqb : A -> A -> bool) : forall l,
  (List.length (unique eqb l) <= List.length l)%nat.
Proof.
  induction l as [|x l IH]; simpl; [lia|].
  pose proof (filter_length_le (fun y => negb (eqb x y)) (unique eqb l)). lia.
Qed.

Lemma unique_nonempty {A : Type} (eqb : A -> A -> bool) (l : list A) :
  l <> [] -> (1 <= List.length (unique eqb l))%nat.
Proof. destruct l; [congruence|]. simpl. lia. Qed.

(** X6. Grouping loses no marks: the cumulative totals of the rows add up
    to the total marks of all records, and so do the two section totals. *)
Theorem aggregation_conserves_marks (all_data : DataFrame) :
  let out := calculate_cumulative_rankings all_data in
  total_of Cumulative_Total out = total_of Total_Marks all_data /\
  total_of Total_Section_A out = total_of Section_A all_data /\
  total_of Total_Section_B out = total_of Section_B all_data.
Proof.
  intros out. subst out. destruct (empty all_data) eqn:Hne.
  { destruct all_data; [repeat split|discriminate]. }
  pose proof (cumulative_rows_perm all_data Hne) as Hperm. cbv zeta in Hperm.
  split; [|split];
    (rewrite (total_of_perm _ _ _ Hperm), total_of_map;
     cbn [cumulative_row_of Cumulative_Total Total_Section_A Total_Section_B agg
            g_Cumulative_Total g_Total_Section_A g_Total_Section_B];
     erewrite total_of_ext;
     [ apply (partition_sum Enrollment_No String.eqb _ String.eqb_eq
                (group_keys all_data) all_data);
       [ apply group_keys_NoDup | intros r Hr; apply group_keys_In, in_map, Hr ]
     | intros key _; apply agg_sum_fold_right ]).
Qed.

Lemma well_formed_sums (group : DataFrame) :
  Forall well_formed group ->
  0 <= total_of Total_Marks group <= 99 * Z.of_nat (List.length group) /\
  Z.abs (total_of Section_A group + total_of Section_B group - total_of Total_Marks group)
  <= Z.of_nat (List.length group).
Proof.
  unfold total_of. induction 1 as [|r group Hr _ IH]; [simpl; lia|].
  destruct Hr as (_ & Ha & Hb & Ht & Hcase). cbn [map fold_right List.length].
  destruct Hcase as [[_ Hv]|(_ & -> & -> & ->)]; lia.
Qed.

(** X7. When every record is well formed, as the extracted ones are, the
    row of an identifier with n records has an exam count between 1 and n, a
    cumulative total between 0 and 99 n, and section totals whose sum is
    within n marks of the cumulative total. *)
Theorem aggregated_rows_consistent (all_data : DataFrame)
    (Hwf : Forall well_formed all_data) :
  Forall (fun row =>
            let n := Z.of_nat (List.length
                       (filter (fun r => String.eqb (Enrollment_No r) (c_Enrollment_No row))
                          all_data)) in
            1 <= Exam_Count row <= n /\
            0 <= Cumulative_Total row <= 99 * n /\
            Z.abs (Total_Section_A row + Total_Section_B row - Cumulative_Total row) <= n)
    (calculate_cumulative_rankings all_data).
Proof.
  apply Forall_forall. intros row Hrow.
  apply cumulative_rows_shape in Hrow as (Hid & rank & Hrow).
  set (id := c_Enrollment_No row) in *. cbv zeta.
  fold (group_of id all_data). rewrite Hrow.
  cbn [cumulative_row_of Exam_Count Cumulative_Total Total_Section_A Total_Section_B agg
         g_Cumulative_Total g_Total_Section_A g_Total_Section_B g_Source_Files].
  assert (Hg : Forall well_formed (group_of id all_data)).
  { apply Forall_forall. intros r Hr. apply filter_In in Hr as [Hr _].
    rewrite Forall_forall in Hwf. apply Hwf, Hr. }
  pose proof (well_formed_sums _ Hg) as [Ht Hs].
  rewrite !agg_sum_fold_right. fold (total_of Total_Marks (group_of id all_data)).
  fold (total_of Section_A (group_of id all_data)).
  fold (total_of Section_B (group_of id all_data)).
  pose proof (unique_length_le String.eqb (map Source_File (group_of id all_data))) as Hle.
  rewrite length_map in Hle.
  pose proof (unique_nonempty String.eqb (map Source_File (group_of id all_data))) as Hge.
  assert (Hne : map Source_File (group_of id all_data) <> []).
  { pose proof (group_of_nonempty all_data id Hid). destruct (group_of id all_data);
      [congruence|discriminate]. }
  specialize (Hge Hne). repeat split; try lia.
Qed.

Lemma aggregated_rows_consistent_witness :
  let all_data := [present_record "a.pdf" "231430142054" "ASHA" (29, 24, 53);
                   absent_record "b.pdf" "231430142054" "ASHA"] in
  Forall well_formed all_data /\
  Forall (fun row =>
            let n := Z.of_nat (List.length
                       (filter (fun r => String.eqb (Enrollment_No r) (c_Enrollment_No row))
                          all_data)) in
            1 <= Exam_Count row <= n /\
            0 <= Cumulative_Total row <= 99 * n /\
            Z.abs (Total_Section_A row + Total_Section_B row - Cumulative_Total row) <= n)
    (calculate_cumulative_rankings all_data).
Proof.
  intros all_data.
  assert (Hwf : Forall well_formed all_data).
  { apply Forall_cons; [|apply Forall_cons; [|apply Forall_nil]].
    - unfold well_formed. simpl. split; [reflexivity|].
      repeat (split; [lia|]). left. split; [reflexivity|lia].
    - unfold well_formed. simpl. split; [reflexivity|].
      repeat (split; [lia|]). right. repeat split. }
  split; [exact Hwf|]. exact (aggregated_rows_consistent all_data Hwf).
Defined.

(** X8. The name of a row is the name of the first record of its identifier
    in the order of the frame, and its two section totals are the sums of the
    section marks of the records of the identifier. *)
Theorem aggregated_row_fields (all_data : DataFrame) :
  Forall (fun row =>
            let id := c_Enrollment_No row in
            let group := filter (fun r => String.eqb (Enrollment_No r) id) all_data in
            (exists before r after,
                all_data = before ++ r :: after /\
                Enrollment_No r = id /\
                (forall r', In r' before -> Enrollment_No r' <> id) /\
                c_Name row = Name r) /\
            Total_Section_A row = total_of Section_A group /\
            Total_Section_B row = total_of Section_B group)
    (calculate_cumulative_rankings all_data).
Proof.
  apply Forall_forall. intros row Hrow.
  apply cumulative_rows_shape in Hrow as (Hid & rank & Hrow).
  cbv zeta. set (id := c_Enrollment_No row) in *. fold (group_of id all_data).
  rewrite Hrow.
  cbn [cumulative_row_of c_Name Total_Section_A Total_Section_B agg g_Name
         g_Total_Section_A g_Total_Section_B].
  split; [|split; apply agg_sum_fold_right].
  pose proof (group_of_nonempty all_data id Hid) as Hne.
  destruct (group_of id all_data) as [|r t] eqn:E; [congruence|].
  apply filter_first in E as (before & after & Hdata & Hr & Hbefore).
  exists before, r, after. repeat split; trivial.
  - apply String.eqb_eq, Hr.
  - intros r' Hr'. apply String.eqb_neq, Hbefore, Hr'.
Qed.

(** ** Rank and position *)

Lemma above_le v : forall l, 0 <= above v l <= Z.of_nat (List.length l).
Proof.
  intros l. unfold above. pose proof (filter_length_le (fun w => v <? w) l). lia.
Qed.

Lemma above_app v (l l' : list Z) : above v (l ++ l') = above v l + above v l'.
Proof. unfold above. rewrite filter_app, length_app. lia. Qed.

Lemma above_antitone va vb : forall l,
  va <= vb -> above vb l <= above va l.
Proof.
  unfold above. induction l as [|w l IH]; intros Hle; [simpl; lia|].
  specialize (IH Hle). cbn [filter].
  destruct (vb <? w) eqn:Eb; destruct (va <? w) eqn:Ea; cbn [List.length]; lia.
Qed.

Lemma above_strict va vb : forall l,
  In vb l -> va < vb -> above vb l < above va l.
Proof.
  induction l as [|w l IH]; intros Hin Hlt; [destruct Hin|].
  change (w :: l) with ([w] ++ l). rewrite !above_app.
  destruct Hin as [->|Hin].
  - pose proof (above_antitone va vb l (Z.lt_le_incl _ _ Hlt)).
    unfold above at 1 3. cbn [filter].
    rewrite Z.ltb_irrefl. replace (va <? vb) with true by (symmetry; apply Z.ltb_lt, Hlt).
    change (Z.of_nat (List.length (@nil Z))) with 0.
    change (Z.of_nat (List.length [vb])) with 1. lia.
  - specialize (IH Hin Hlt). pose proof (above_antitone va vb [w] (Z.lt_le_incl _ _ Hlt)).
    lia.
Qed.

Lemma StronglySorted_weaken_in {A : Type} (R S : A -> A -> Prop) : forall l : list A,
  (forall x y, In x l -> In y l -> R x y -> S x y) ->
  StronglySorted R l -> StronglySorted S l.
Proof.
  induction l as [|x l IH]; intros HRS Hs; [constructor|].
  inversion Hs as [|? ? Hl Hx]; subst. constructor.
  - apply IH; [|exact Hl]. intros a b Ha Hb. apply HRS; right; assumption.
  - apply Forall_forall. intros y Hy. rewrite Forall_forall in Hx.
    apply HRS; [left; reflexivity|right; exact Hy|apply Hx, Hy].
Qed.

Lemma StronglySorted_app_tail {A : Type} (R : A -> A -> Prop) : forall l1 x l2,
  StronglySorted R (l1 ++ x :: l2) -> Forall (R x) l2.
Proof.
  induction l1 as [|y l1 IH]; intros x l2 Hs; simpl in Hs.
  - inversion Hs; assumption.
  - inversion Hs; subst. apply IH. assumption.
Qed.

Section RankPosition.
Context {G A : Type} (mk : G -> Z -> A) (total rank : A -> Z) (gtotal : G -> Z).
Hypothesis total_mk : forall g r, total (mk g r) = gtotal g.
Hypothesis rank_mk : forall g r, rank (mk g r) = r.

Lemma ranked_length groups :
  List.length (rank_and_sort mk rank gtotal groups) = List.length groups.
Proof.
  rewrite (Permutation_length (ranked_perm mk rank gtotal groups)). apply length_map.
Qed.

Lemma ranked_descending groups :
  StronglySorted (fun a b => total b <= total a) (rank_and_sort mk rank gtotal groups).
Proof.
  eapply StronglySorted_weaken_in; [|apply (ranked_sorted mk rank gtotal)].
  intros a b Ha Hb Hrank.
  pose proof (ranked_above mk total rank gtotal total_mk rank_mk groups) as Habove.
  rewrite Forall_forall in Habove. cbv beta in Hrank.
  rewrite (Habove a Ha), (Habove b Hb) in Hrank.
  destruct (Z.le_gt_cases (total b) (total a)) as [|Hlt]; trivial.
  pose proof (above_strict (total a) (total b)
                (map total (rank_and_sort mk rank gtotal groups))
                (in_map total _ _ Hb) Hlt).
  lia.
Qed.

Lemma ranked_position groups l1 row l2 :
  rank_and_sort mk rank gtotal groups = l1 ++ row :: l2 ->
  1 <= rank row <= 1 + Z.of_nat (List.length l1).
Proof.
  intros E.
  pose proof (ranked_above mk total rank gtotal total_mk rank_mk groups) as Habove.
  pose proof (ranked_descending groups) as Hdesc. rewrite E in Habove, Hdesc.
  rewrite Forall_forall in Habove. rewrite (Habove row) by (apply in_elt).
  rewrite map_app. cbn [map]. change (total row :: map total l2)
    with ([total row] ++ map total l2). rewrite !above_app.
  pose proof (above_le (total row) (map total l1)) as H1. rewrite length_map in H1.
  assert (H2 : above (total row) [total row] = 0).
  { unfold above. cbn [filter]. rewrite Z.ltb_irrefl. reflexivity. }
  assert (H3 : above (total row) (map total l2) = 0).
  { apply above_highest. intros w Hw. apply in_map_iff in Hw as (b & <- & Hb).
    apply StronglySorted_app_tail in Hdesc. rewrite Forall_forall in Hdesc.
    apply Hdesc, Hb. }
  lia.
Qed.

Lemma ranked_head groups row rest :
  rank_and_sort mk rank gtotal groups = row :: rest ->
  rank row = 1 /\ forall r, In r (row :: rest) -> total r <= total row.
Proof.
  intros E. split.
  - pose proof (ranked_position groups [] row rest E). simpl in *. lia.
  - pose proof (ranked_descending groups) as Hdesc. rewrite E in Hdesc.
    inversion Hdesc as [|? ? _ Hrow]; subst. rewrite Forall_forall in Hrow.
    intros r [<-|Hr]; [lia|apply Hrow, Hr].
Qed.
End RankPosition.

(** X9. In both views the rows come in descending order of cumulative
    total, and the rank of a row lies between 1 and its position in the
    output, counted from 1; in particular no rank exceeds the number of
    rows. *)
Theorem rank_within_position (all_data : DataFrame) :
  (let out := calculate_cumulative_rankings all_data in
   StronglySorted (fun a b => Cumulative_Total b <= Cumulative_Total a) out /\
   forall l1 row l2,
     out = l1 ++ row :: l2 ->
     1 <= Rank row <= 1 + Z.of_nat (List.length l1) /\
     Rank row <= Z.of_nat (List.length out)) /\
  (let out := create_exam_wise_view all_data in
   StronglySorted (fun a b => e_Cumulative_Total b <= e_Cumulative_Total a) out /\
   forall l1 row l2,
     out = l1 ++ row :: l2 ->
     1 <= e_Rank row <= 1 + Z.of_nat (List.length l1) /\
     e_Rank row <= Z.of_nat (List.length out)).
Proof.
  split; cbv zeta.
  - rewrite cumulative_rankings_ranked. destruct (empty all_data).
    { split; [constructor|]. intros [|] ? ? ?; discriminate. }
    split.
    + apply (ranked_descending cumulative_row_of Cumulative_Total Rank g_Cumulative_Total);
        reflexivity.
    + intros l1 row l2 E.
      pose proof (ranked_position cumulative_row_of Cumulative_Total Rank g_Cumulative_Total
                    (fun _ _ => eq_refl) (fun _ _ => eq_refl) _ l1 row l2 E) as H.
      split; [exact H|]. rewrite E, length_app. cbn [List.length]. lia.
  - rewrite exam_wise_view_ranked. destruct (empty all_data).
    { split; [constructor|]. intros [|] ? ? ?; discriminate. }
    split.
    + apply (ranked_descending exam_row_of e_Cumulative_Total e_Rank
               (fun kc => row_sum (snd kc))); reflexivity.
    + intros l1 row l2 E.
      pose proof (ranked_position exam_row_of e_Cumulative_Total e_Rank
                    (fun kc => row_sum (snd kc))
                    (fun _ _ => eq_refl) (fun _ _ => eq_refl) _ l1 row l2 E) as H.
      split; [exact H|]. rewrite E, length_app. cbn [List.length]. lia.
Qed.

(** ** The results shown by [main] *)

Lemma fold_max_head : forall r x, (forall y, In y r -> y <= x) -> fold_left Z.max r x = x.
Proof.
  induction r as [|y r IH]; intros x H; [reflexivity|].
  cbn [fold_left]. rewrite Z.max_l by (apply H; left; reflexivity).
  apply IH. intros z Hz. apply H. right. exact Hz.
Qed.

Lemma fold_min_spec : forall r x,
  (forall y, In y (x :: r) -> fold_left Z.min r x <= y) /\ In (fold_left Z.min r x) (x :: r).
Proof.
  induction r as [|z r IH]; intros x.
  - simpl. split; [intros y [<-|[]]; lia|left; reflexivity].
  - cbn [fold_left]. destruct (IH (Z.min x z)) as [Hle Hin]. split.
    + intros y [<-|[<-|Hy]].
      * specialize (Hle (Z.min x z) (or_introl eq_refl)). lia.
      * specialize (Hle (Z.min x z) (or_introl eq_refl)). lia.
      * apply Hle. right. exact Hy.
    + destruct Hin as [Hin|Hin]; [|right; right; exact Hin].
      rewrite <- Hin. destruct (Z.min_spec x z) as [[_ ->]|[_ ->]];
        [left|right; left]; reflexivity.
Qed.

Lemma cumulative_rankings_length all_data :
  List.length (calculate_cumulative_rankings all_data)
  = List.length (unique String.eqb (map Enrollment_No all_data)).
Proof.
  rewrite cumulative_rankings_ranked. destruct all_data as [|r l]; [reflexivity|].
  cbn [empty].
  rewrite (ranked_length cumulative_row_of Rank g_Cumulative_Total).
  unfold groupby_agg. rewrite length_map. apply Permutation_length, group_keys_perm.
Qed.

Lemma StronglySorted_app_cross {A : Type} (R : A -> A -> Prop) : forall l1 l2,
  StronglySorted R (l1 ++ l2) -> forall a b, In a l1 -> In b l2 -> R a b.
Proof.
  induction l1 as [|x l1 IH]; intros l2 Hs a b Ha Hb; [destruct Ha|].
  simpl in Hs. inversion Hs as [|? ? Hl Hx]; subst. destruct Ha as [<-|Ha].
  - rewrite Forall_forall in Hx. apply Hx, in_or_app. right. exact Hb.
  - apply (IH l2 Hl a b Ha Hb).
Qed.

Lemma cumulative_rankings_descending all_data :
  StronglySorted (fun a b => Cumulative_Total b <= Cumulative_Total a)
    (calculate_cumulative_rankings all_data).
Proof.
  rewrite cumulative_rankings_ranked. destruct (empty all_data); [constructor|].
  apply (ranked_descending cumulative_row_of Cumulative_Total Rank g_Cumulative_Total);
    reflexivity.
Qed.

Lemma cumulative_rankings_position all_data l1 row l2 :
  calculate_cumulative_rankings all_data = l1 ++ row :: l2 ->
  1 <= Rank row <= 1 + Z.of_nat (List.length l1).
Proof.
  rewrite cumulative_rankings_ranked. destruct (empty all_data).
  - intros E. destruct l1; discriminate.
  - apply (ranked_position cumulative_row_of Cumulative_Total Rank g_Cumulative_Total);
      reflexivity.
Qed.

Lemma cumulative_rankings_rank_sorted all_data :
  StronglySorted (fun a b => Rank a <= Rank b) (calculate_cumulative_rankings all_data).
Proof.
  rewrite cumulative_rankings_ranked. destruct (empty all_data); [constructor|].
  apply (ranked_sorted cumulative_row_of Rank g_Cumulative_Total).
Qed.

Lemma cumulative_rankings_above all_data :
  Forall (fun row =>
            Rank row = 1 + above (Cumulative_Total row)
                             (map Cumulative_Total (calculate_cumulative_rankings all_data)))
    (calculate_cumulative_rankings all_data).
Proof.
  rewrite cumulative_rankings_ranked. destruct (empty all_data); [constructor|].
  apply (ranked_above cumulative_row_of Cumulative_Total Rank g_Cumulative_Total);
    reflexivity.
Qed.

(** X10. When the combined frame has a record, the first row of the ranking
    exists, has rank 1 and holds the highest cumulative total, which is the
    "Highest Score" metric; the "Lowest Score" metric is a cumulative total of
    some row and no row is below it; and "Total Students" counts the distinct
    identifiers of the records. *)
Theorem top_performer_and_metrics (all_data : DataFrame) (Hne : all_data <> []) :
  let out := calculate_cumulative_rankings all_data in
  exists top low,
    iloc_0 out = Returns top /\
    Rank top = 1 /\
    (forall row, In row out -> Cumulative_Total row <= Cumulative_Total top) /\
    highest_score out = Some (Cumulative_Total top) /\
    lowest_score out = Some low /\
    In low (map Cumulative_Total out) /\
    (forall row, In row out -> low <= Cumulative_Total row) /\
    total_students out = List.length (unique String.eqb (map Enrollment_No all_data)).
Proof.
  intros out.
  pose proof (cumulative_rankings_length all_data) as Hlen. fold out in Hlen.
  pose proof (cumulative_rankings_descending all_data) as Hdesc. fold out in Hdesc.
  pose proof (cumulative_rankings_position all_data) as Hpos. fold out in Hpos.
  destruct out as [|top rest] eqn:E.
  { destruct all_data as [|r l]; [congruence|]. simpl in Hlen. discriminate. }
  pose proof (fold_min_spec (map Cumulative_Total rest) (Cumulative_Total top)) as [Hmin Hin].
  exists top, (fold_left Z.min (map Cumulative_Total rest) (Cumulative_Total top)).
  assert (Htop : forall row, In row (top :: rest) -> Cumulative_Total row <= Cumulative_Total top).
  { inversion Hdesc as [|? ? _ Hrow]; subst. rewrite Forall_forall in Hrow.
    intros row [<-|Hr]; [lia|apply Hrow, Hr]. }
  repeat split; trivial.
  - specialize (Hpos [] top rest eq_refl). simpl in Hpos. lia.
  - unfold highest_score. cbn [map series_max]. f_equal. apply fold_max_head.
    intros y Hy. apply in_map_iff in Hy as (row & <- & Hrow). apply Htop. right. exact Hrow.
  - intros row Hrow. apply Hmin. apply (in_map Cumulative_Total) in Hrow. exact Hrow.
Qed.

Lemma top_performer_and_metrics_witness :
  let all_data := [present_record "a.pdf" "231430142054" "ASHA" (29, 24, 53);
                   present_record "a.pdf" "231430142055" "RAVI" (30, 25, 55)] in
  exists top low,
    iloc_0 (calculate_cumulative_rankings all_data) = Returns top /\
    Rank top = 1 /\
    (forall row, In row (calculate_cumulative_rankings all_data) ->
                 Cumulative_Total row <= Cumulative_Total top) /\
    highest_score (calculate_cumulative_rankings all_data) = Some (Cumulative_Total top) /\
    lowest_score (calculate_cumulative_rankings all_data) = Some low /\
    In low (map Cumulative_Total (calculate_cumulative_rankings all_data)) /\
    (forall row, In row (calculate_cumulative_rankings all_data) ->
                 low <= Cumulative_Total row) /\
    total_students (calculate_cumulative_rankings all_data)
    = List.length (unique String.eqb (map Enrollment_No all_data)).
Proof.
  intros all_data.
  apply (top_performer_and_metrics all_data). discriminate.
Defined.

(** X11. The style function returns one style per displayed column.  A row
    is highlighted exactly when fewer than three rows have a strictly higher
    cumulative total; the first three rows of the ranking are always
    highlighted, and every row above a highlighted row is highlighted too. *)
Theorem top_three_highlighted (all_data : DataFrame) :
  let out := calculate_cumulative_rankings all_data in
  let styled := fun row =>
    highlight_top3 row = repeat "background-color: #90EE90" (List.length display_cols) in
  Forall (fun row => List.length (highlight_top3 row) = List.length display_cols) out /\
  Forall (fun row =>
            styled row <-> above (Cumulative_Total row) (map Cumulative_Total out) < 3)
    out /\
  (forall l1 row l2, out = l1 ++ row :: l2 -> (List.length l1 < 3)%nat -> styled row) /\
  (forall l1 a l2 b l3, out = l1 ++ a :: l2 ++ b :: l3 -> styled b -> styled a).
Proof.
  intros out styled.
  assert (Hstyled : forall row, styled row <-> Rank row <= 3).
  { intros row. unfold styled, highlight_top3. destruct (Rank row <=? 3) eqn:E.
    - apply Z.leb_le in E. tauto.
    - apply Z.leb_gt in E. split; [discriminate|lia]. }
  split; [|split; [|split]].
  - apply Forall_forall. intros row _. unfold highlight_top3.
    destruct (Rank row <=? 3); apply repeat_length.
  - pose proof (cumulative_rankings_above all_data) as Habove. fold out in Habove.
    eapply Forall_impl; [|exact Habove]. intros row Hrank. cbv beta in Hrank.
    rewrite Hstyled, Hrank. lia.
  - intros l1 row l2 E Hlen. apply Hstyled.
    pose proof (cumulative_rankings_position all_data l1 row l2 E). lia.
  - intros l1 a l2 b l3 E Hb. apply Hstyled. apply Hstyled in Hb.
    pose proof (cumulative_rankings_rank_sorted all_data) as Hs. fold out in Hs. rewrite E in Hs.
    apply StronglySorted_app_tail in Hs. rewrite Forall_forall in Hs.
    specialize (Hs b (in_elt b l2 l3)). cbv beta in Hs. lia.
Qed.

Lemma substring_length_le : forall n s, (String.length (String.substring 0 n s) <= n)%nat.
Proof.
  induction n as [|n IH]; intros [|c s]; simpl; try lia. specialize (IH s). lia.
Qed.

Lemma substring_is_prefix : forall n s,
  exists rest, s = (String.substring 0 n s ++ rest)%string.
Proof.
  induction n as [|n IH]; intros [|c s]; simpl.
  - exists "". reflexivity.
  - exists (String c s). reflexivity.
  - exists "". reflexivity.
  - destruct (IH s) as (rest & H). exists rest. f_equal. exact H.
Qed.

(** X12. The chart of the top ten holds the first ten rows of the ranking,
    or all of them when there are fewer, in ranking order; each charted name
    is the beginning of the row's name, at most twenty characters long; and no
    row left out of the chart has a higher cumulative total than a charted
    one. *)
Theorem top_ten_chart (all_data : DataFrame) :
  let out := calculate_cumulative_rankings all_data in
  List.length (top_10 out) = Nat.min 10 (List.length out) /\
  (forall k row,
      nth_error out k = Some row -> (k < 10)%nat ->
      exists nm rest,
        nth_error (top_10 out) k = Some (nm, Cumulative_Total row) /\
        c_Name row = (nm ++ rest)%string /\ (String.length nm <= 20)%nat) /\
  (forall p row, In p (top_10 out) -> In row (skipn 10 out) -> Cumulative_Total row <= snd p).
Proof.
  intros out. unfold top_10. split; [|split].
  - rewrite length_map. apply length_firstn.
  - intros k row Hk Hlt.
    destruct (substring_is_prefix 20 (c_Name row)) as (rest & Hrest).
    exists (String.substring 0 20 (c_Name row)), rest.
    split; [|split; [exact Hrest|apply substring_length_le]].
    rewrite nth_error_map, nth_error_firstn.
    destruct (Nat.ltb_spec k 10); [|lia]. rewrite Hk. reflexivity.
  - intros p row Hp Hrow. apply in_map_iff in Hp as (a & <- & Ha). cbn [snd].
    pose proof (cumulative_rankings_descending all_data) as Hdesc. fold out in Hdesc.
    rewrite <- (firstn_skipn 10 out) in Hdesc.
    apply (StronglySorted_app_cross _ _ _ Hdesc a row Ha Hrow).
Qed.

(** ** The rows of the exam-wise view *)

Lemma pivot_index_perm all_data :
  Permutation (pivot_index all_data) (unique pair_eqb (map index_of all_data)).
Proof. apply sort_perm. Qed.

Lemma pivot_index_In all_data key :
  In key (pivot_index all_data) <-> In key (map index_of all_data).
Proof.
  rewrite <- (unique_In pair_eqb pair_eqb_eq key (map index_of all_data)).
  split; apply Permutation_in; [|symmetry]; apply pivot_index_perm.
Qed.

Lemma pivot_index_NoDup all_data : NoDup (pivot_index all_data).
Proof.
  eapply Permutation_NoDup; [symmetry; apply pivot_index_perm|].
  apply unique_NoDup, pair_eqb_eq.
Qed.

Lemma pivot_columns_In all_data d :
  In d (pivot_columns all_data) <-> In d (map Source_File all_data).
Proof.
  rewrite <- (unique_In String.eqb String.eqb_eq d (map Source_File all_data)).
  split; apply Permutation_in; [|symmetry]; apply pivot_columns_perm.
Qed.

Lemma pivot_columns_NoDup all_data : NoDup (pivot_columns all_data).
Proof.
  eapply Permutation_NoDup; [symmetry; apply pivot_columns_perm|].
  apply unique_NoDup, String.eqb_eq.
Qed.

Lemma exam_rows_shape all_data row :
  In row (create_exam_wise_view all_data) ->
  In (e_Enrollment_No row, e_Name row) (map index_of all_data) /\
  e_Exams row = pivot_row all_data (pivot_columns all_data) (e_Enrollment_No row, e_Name row) /\
  e_Cumulative_Total row = row_sum (e_Exams row).
Proof.
  destruct (empty all_data) eqn:Hne.
  - destruct all_data; [intros []|discriminate].
  - destruct (exam_rows_perm all_data Hne) as (rank_of & Hperm).
    intros H. eapply Permutation_in in H; [|exact Hperm].
    apply in_map_iff in H as (key & <- & Hkey). cbv zeta.
    cbn [exam_row_of e_Enrollment_No e_Name e_Exams e_Cumulative_Total fst snd].
    replace (fst key, snd key) with key by (destruct key; reflexivity).
    split; [apply pivot_index_In, Hkey|]. split; reflexivity.
Qed.

Lemma exam_wise_view_length all_data :
  List.length (create_exam_wise_view all_data)
  = List.length (unique pair_eqb (map index_of all_data)).
Proof.
  rewrite exam_wise_view_ranked. destruct all_data as [|r l]; [reflexivity|].
  cbn [empty].
  rewrite (ranked_length exam_row_of e_Rank (fun kc => row_sum (snd kc))).
  rewrite length_map. apply Permutation_length, pivot_index_perm.
Qed.

(** X13. No row of the exam-wise view is empty: every row has a mark in the
    column of at least one file.  The view shows exactly the identifiers of
    the records, and it has at least as many rows as the cumulative ranking,
    since an identifier read with two different names fills two rows. *)
Theorem exam_rows_never_empty (all_data : DataFrame) :
  let out := create_exam_wise_view all_data in
  Forall (fun row => exists d v, In (d, Some v) (e_Exams row)) out /\
  (forall x, In x (map e_Enrollment_No out) <-> In x (map Enrollment_No all_data)) /\
  (List.length (calculate_cumulative_rankings all_data) <= List.length out)%nat.
Proof.
  intros out. split; [|split].
  - apply Forall_forall. intros row Hrow.
    apply exam_rows_shape in Hrow as (Hkey & Hcells & _).
    apply in_map_iff in Hkey as (r & Hr & Hin).
    exists (Source_File r), (Total_Marks
      match filter (fun r' => (pair_eqb (index_of r') (e_Enrollment_No row, e_Name row)
                               && String.eqb (Source_File r') (Source_File r))%bool) all_data
      with r0 :: _ => r0 | [] => r end).
    rewrite Hcells. apply pivot_row_cell. split; [apply pivot_columns_In, in_map, Hin|].
    unfold cell.
    assert (Hf : In r (filter (fun r' => (pair_eqb (index_of r') (e_Enrollment_No row, e_Name row)
                                          && String.eqb (Source_File r') (Source_File r))%bool)
                         all_data)).
    { apply filter_In. split; [exact Hin|]. apply andb_true_intro.
      split; [apply pair_eqb_eq, Hr|apply String.eqb_refl]. }
    destruct (filter _ all_data); [destruct Hf|reflexivity].
  - intros x. split.
    + intros H. apply in_map_iff in H as (row & <- & Hrow).
      apply exam_rows_shape in Hrow as (Hkey & _).
      apply in_map_iff in Hkey as (r & Hr & Hin). injection Hr as <- _.
      apply in_map, Hin.
    + intros H. apply in_map_iff in H as (r & <- & Hr).
      assert (Hk : In (index_of r) (map (fun row => (e_Enrollment_No row, e_Name row)) out)).
      { destruct (empty all_data) eqn:Hne; [destruct all_data; [destruct Hr|discriminate]|].
        destruct (exam_rows_perm all_data Hne) as (rank_of & Hperm).
        eapply Permutation_in; [symmetry; apply Permutation_map, Hperm|].
        rewrite map_map. cbn [exam_row_of e_Enrollment_No e_Name fst snd].
        apply in_map_iff. exists (index_of r). split; [reflexivity|].
        apply pivot_index_In, in_map, Hr. }
      apply in_map_iff in Hk as (row & Hrow & Hin). apply in_map_iff.
      exists row. split; [|exact Hin]. injection Hrow as -> _. reflexivity.
  - unfold out. rewrite cumulative_rankings_length, exam_wise_view_length.
    rewrite <- (length_map fst (unique pair_eqb (map index_of all_data))).
    apply NoDup_incl_length; [apply unique_NoDup, String.eqb_eq|].
    intros x Hx. apply (proj1 (unique_In String.eqb String.eqb_eq x _)) in Hx.
    apply in_map_iff in Hx as (r & <- & Hr). apply in_map_iff.
    exists (index_of r). split; [reflexivity|].
    apply (proj2 (unique_In pair_eqb pair_eqb_eq _ _)), in_map, Hr.
Qed.

(** ** When the two views agree *)

Lemma NoDup_map_filter {A B : Type} (f : A -> B) (p : A -> bool) : forall l,
  NoDup (map f l) -> NoDup (map f (filter p l)).
Proof.
  induction l as [|x l IH]; intros H; [constructor|].
  simpl in H. inversion H as [|? ? Hnotin Hnd]; subst. cbn [filter].
  destruct (p x); [|apply IH, Hnd]. cbn [map]. constructor; [|apply IH, Hnd].
  intros Hin. apply Hnotin. apply in_map_iff in Hin as (y & Hy & Hin).
  apply filter_In in Hin as [Hin _]. rewrite <- Hy. apply in_map, Hin.
Qed.

Lemma filter_at_most_one {A B : Type} (f : A -> B) (p : A -> bool) (v : B) (l : list A) :
  NoDup (map f l) ->
  (forall x, In x l -> p x = true -> f x = v) ->
  (List.length (filter p l) <= 1)%nat.
Proof.
  intros Hnd Hv. pose proof (NoDup_map_filter f p l Hnd) as H.
  destruct (filter p l) as [|a [|b t]] eqn:E; simpl; try lia.
  exfalso.
  assert (Ha : In a (filter p l)) by (rewrite E; left; reflexivity).
  assert (Hb : In b (filter p l)) by (rewrite E; right; left; reflexivity).
  apply filter_In in Ha as [Ha Hpa]. apply filter_In in Hb as [Hb Hpb].
  cbn [map] in H. inversion H as [|? ? Hnotin _]; subst. apply Hnotin.
  rewrite (Hv a Ha Hpa), <- (Hv b Hb Hpb). left. reflexivity.
Qed.

Lemma filter_andb {A : Type} (p q : A -> bool) : forall l,
  filter (fun x => (p x && q x)%bool) l = filter q (filter p l).
Proof.
  induction l as [|x l IH]; [reflexivity|].
  cbn [filter]. destruct (p x); cbn [andb filter]; rewrite IH; reflexivity.
Qed.

Lemma row_sum_total (all_data : DataFrame) key :
  NoDup (map (fun r => (index_of r, Source_File r)) all_data) ->
  row_sum (pivot_row all_data (pivot_columns all_data) key) =
  total_of Total_Marks (filter (fun r => pair_eqb (index_of r) key) all_data).
Proof.
  intros Hnd. unfold row_sum, pivot_row. rewrite agg_sum_fold_right, map_map. cbn [snd].
  change (fold_right Z.add 0
            (map (fun col => match cell all_data key col with Some v => v | None => 0 end)
               (pivot_columns all_data)))
    with (total_of (fun col => match cell all_data key col with Some v => v | None => 0 end)
            (pivot_columns all_data)).
  rewrite <- (partition_sum Source_File String.eqb Total_Marks String.eqb_eq
                (pivot_columns all_data)
                (filter (fun r => pair_eqb (index_of r) key) all_data)).
  - apply total_of_ext. intros col _. unfold cell. rewrite filter_andb.
    pose proof (filter_at_most_one (fun r => (index_of r, Source_File r))
                  (fun r => (pair_eqb (index_of r) key && String.eqb (Source_File r) col)%bool)
                  (key, col) all_data Hnd) as Hone.
    rewrite filter_andb in Hone.
    assert (Hsame : forall r, In r all_data ->
              (pair_eqb (index_of r) key && String.eqb (Source_File r) col)%bool = true ->
              (index_of r, Source_File r) = (key, col)).
    { intros r _ Hr. apply andb_prop in Hr as [Hk Hs].
      apply pair_eqb_eq in Hk. apply String.eqb_eq in Hs. congruence. }
    specialize (Hone Hsame).
    destruct (filter (fun r => String.eqb (Source_File r) col)
                (filter (fun r => pair_eqb (index_of r) key) all_data)) as [|a [|b t]].
    + reflexivity.
    + unfold total_of. simpl. lia.
    + simpl in Hone. lia.
  - apply pivot_columns_NoDup.
  - intros r Hr. apply filter_In in Hr as [Hr _]. apply pivot_columns_In, in_map, Hr.
Qed.

(** X14. When no student has two records from the same file, that is when
    the (identifier, name, source file) triples of the records are pairwise
    distinct, the cumulative total of an exam-wise row is the sum of the
    totals of all records of that identifier and name. *)
Theorem exam_row_total_is_record_sum (all_data : DataFrame)
    (Hnd : NoDup (map (fun r => (index_of r, Source_File r)) all_data)) :
  Forall (fun row =>
            e_Cumulative_Total row =
            total_of Total_Marks
              (filter (fun r => pair_eqb (index_of r) (e_Enrollment_No row, e_Name row))
                 all_data))
    (create_exam_wise_view all_data).
Proof.
  apply Forall_forall. intros row Hrow.
  apply exam_rows_shape in Hrow as (_ & Hcells & Htotal).
  rewrite Htotal, Hcells. apply row_sum_total, Hnd.
Qed.

Lemma exam_row_total_is_record_sum_witness :
  let all_data := [present_record "a.pdf" "231430142054" "ASHA" (29, 24, 53);
                   present_record "b.pdf" "231430142054" "ASHA" (20, 21, 41)] in
  NoDup (map (fun r => (index_of r, Source_File r)) all_data) /\
  Forall (fun row =>
            e_Cumulative_Total row =
            total_of Total_Marks
              (filter (fun r => pair_eqb (index_of r) (e_Enrollment_No row, e_Name row))
                 all_data))
    (create_exam_wise_view all_data).
Proof.
  intros all_data.
  assert (Hnd : NoDup (map (fun r => (index_of r, Source_File r)) all_data)).
  { repeat constructor; simpl; intuition discriminate. }
  split; [exact Hnd|]. exact (exam_row_total_is_record_sum all_data Hnd).
Defined.

Lemma exam_wise_above all_data :
  Forall (fun row =>
            e_Rank row = 1 + above (e_Cumulative_Total row)
                               (map e_Cumulative_Total (create_exam_wise_view all_data)))
    (create_exam_wise_view all_data).
Proof.
  rewrite exam_wise_view_ranked. destruct (empty all_data); [constructor|].
  apply (ranked_above exam_row_of e_Cumulative_Total e_Rank (fun kc => row_sum (snd kc)));
    reflexivity.
Qed.

Lemma cumulative_rankings_ids all_data x :
  In x (map c_Enrollment_No (calculate_cumulative_rankings all_data)) <->
  In x (map Enrollment_No all_data).
Proof.
  destruct (empty all_data) eqn:Hne.
  { destruct all_data; [reflexivity|discriminate]. }
  rewrite <- group_keys_In.
  assert (Hperm : Permutation (map c_Enrollment_No (calculate_cumulative_rankings all_data))
                    (group_keys all_data)).
  { rewrite (Permutation_map _ (cumulative_rows_perm all_data Hne)), map_map.
    cbn [cumulative_row_of c_Enrollment_No agg g_Enrollment_No]. rewrite map_id.
    reflexivity. }
  split; apply Permutation_in; [|symmetry]; exact Hperm.
Qed.

Lemma NoDup_map_injective_in {A B : Type} (f : A -> B) : forall l,
  (forall x y, In x l -> In y l -> f x = f y -> x = y) ->
  NoDup l -> NoDup (map f l).
Proof.
  induction l as [|x l IH]; intros Hinj Hnd; [constructor|].
  inversion Hnd as [|? ? Hnotin Hnd']; subst. cbn [map]. constructor.
  - intros Hin. apply in_map_iff in Hin as (y & Hy & Hin). apply Hnotin.
    rewrite (Hinj x y (or_introl eq_refl) (or_intror Hin) (eq_sym Hy)). exact Hin.
  - apply IH; [|exact Hnd']. intros a b Ha Hb. apply Hinj; right; assumption.
Qed.

Section ConsistentNames.
Variable all_data : DataFrame.
Hypothesis one_per_file : NoDup (map (fun r => (index_of r, Source_File r)) all_data).
Hypothesis one_name :
  forall r r', In r all_data -> In r' all_data ->
               Enrollment_No r = Enrollment_No r' -> Name r = Name r'.

Lemma group_by_pair_is_group key :
  In key (map index_of all_data) ->
  filter (fun r => pair_eqb (index_of r) key) all_data = group_of (fst key) all_data.
Proof.
  intros Hkey. apply in_map_iff in Hkey as (r0 & <- & H0).
  unfold group_of. apply filter_ext_in. intros r Hr. cbn [index_of fst].
  destruct (String.eqb (Enrollment_No r) (Enrollment_No r0)) eqn:E.
  - apply String.eqb_eq in E. apply pair_eqb_eq. unfold index_of.
    rewrite E, (one_name r r0 Hr H0 E). reflexivity.
  - apply String.eqb_neq in E. destruct (pair_eqb (index_of r) (index_of r0)) eqn:P;
      [|reflexivity].
    apply pair_eqb_eq in P. injection P as P _. congruence.
Qed.

Lemma pivot_row_sum_is_group_sum key :
  In key (map index_of all_data) ->
  row_sum (pivot_row all_data (pivot_columns all_data) key)
  = agg_sum Total_Marks (group_of (fst key) all_data).
Proof.
  intros Hkey. rewrite (row_sum_total all_data key one_per_file).
  rewrite (group_by_pair_is_group key Hkey), agg_sum_fold_right. reflexivity.
Qed.

Lemma pivot_index_ids : Permutation (map fst (pivot_index all_data)) (group_keys all_data).
Proof.
  apply NoDup_Permutation.
  - apply NoDup_map_injective_in; [|apply pivot_index_NoDup].
    intros [a b] [c d] Hx Hy Heq. simpl in Heq. subst c.
    apply pivot_index_In in Hx, Hy.
    apply in_map_iff in Hx as (r & Hr & Hrin). apply in_map_iff in Hy as (r' & Hr' & Hrin').
    injection Hr as <- <-. injection Hr' as Hid <-.
    f_equal. symmetry. apply one_name; auto.
  - apply group_keys_NoDup.
  - intros x. rewrite group_keys_In. split.
    + intros H. apply in_map_iff in H as (key & <- & Hkey).
      apply pivot_index_In in Hkey. apply in_map_iff in Hkey as (r & <- & Hr).
      apply (in_map Enrollment_No), Hr.
    + intros H. apply in_map_iff in H as (r & <- & Hr). apply in_map_iff.
      exists (index_of r). split; [reflexivity|]. apply pivot_index_In, in_map, Hr.
Qed.

Lemma view_totals_perm :
  Permutation (map e_Cumulative_Total (create_exam_wise_view all_data))
    (map Cumulative_Total (calculate_cumulative_rankings all_data)).
Proof.
  rewrite exam_wise_view_ranked, cumulative_rankings_ranked.
  destruct (empty all_data); [reflexivity|].
  rewrite (ranked_totals exam_row_of e_Cumulative_Total e_Rank
             (fun kc => row_sum (snd kc))) by reflexivity.
  rewrite (ranked_totals cumulative_row_of Cumulative_Total Rank g_Cumulative_Total)
    by reflexivity.
  unfold groupby_agg. rewrite !map_map. cbn [snd agg g_Cumulative_Total].
  rewrite (map_ext_in _ (fun key => agg_sum Total_Marks (group_of (fst key) all_data))).
  - rewrite <- (map_map fst (fun id => agg_sum Total_Marks (group_of id all_data))).
    apply Permutation_map, pivot_index_ids.
  - intros key Hkey. apply pivot_row_sum_is_group_sum, pivot_index_In, Hkey.
Qed.

Lemma views_agree_rows erow :
  In erow (create_exam_wise_view all_data) ->
  exists crow,
    In crow (calculate_cumulative_rankings all_data) /\
    c_Enrollment_No crow = e_Enrollment_No erow /\
    c_Name crow = e_Name erow /\
    Cumulative_Total crow = e_Cumulative_Total erow /\
    Rank crow = e_Rank erow.
Proof.
  intros He.
  pose proof (exam_wise_above all_data) as Hea. rewrite Forall_forall in Hea.
  specialize (Hea erow He).
  apply exam_rows_shape in He as (Hkey & Hcells & Htotal).
  assert (Hid : In (e_Enrollment_No erow) (map Enrollment_No all_data)).
  { apply in_map_iff in Hkey as (r & Hr & Hin). injection Hr as <- _. apply in_map, Hin. }
  apply cumulative_rankings_ids in Hid. apply in_map_iff in Hid as (crow & Hcid & Hc).
  exists crow. split; [exact Hc|]. split; [exact Hcid|].
  pose proof (cumulative_rankings_above all_data) as Hca. rewrite Forall_forall in Hca.
  specialize (Hca crow Hc).
  apply cumulative_rows_shape in Hc as (Hin & rank & Hshape). rewrite Hcid in Hshape, Hin.
  assert (Ht : Cumulative_Total crow = e_Cumulative_Total erow).
  { rewrite Htotal, Hcells, (pivot_row_sum_is_group_sum _ Hkey), Hshape. reflexivity. }
  split; [|split; [exact Ht|]].
  - rewrite Hshape. cbn [cumulative_row_of c_Name agg g_Name].
    pose proof (group_by_pair_is_group _ Hkey) as Hg. cbn [fst] in Hg. rewrite <- Hg.
    destruct (filter (fun r => pair_eqb (index_of r) (e_Enrollment_No erow, e_Name erow))
                all_data) as [|r t] eqn:E.
    + exfalso. apply in_map_iff in Hkey as (r & Hr & Hrin).
      assert (Hf : In r (filter (fun r => pair_eqb (index_of r)
                                            (e_Enrollment_No erow, e_Name erow)) all_data)).
      { apply filter_In. split; [exact Hrin|]. apply pair_eqb_eq, Hr. }
      rewrite E in Hf. destruct Hf.
    + assert (Hf : In r (r :: t)) by (left; reflexivity). rewrite <- E in Hf.
      apply filter_In in Hf as [_ Hf]. apply pair_eqb_eq in Hf. injection Hf as _ Hn.
      simpl. exact Hn.
  - rewrite Hca, Hea, Ht. f_equal. apply above_perm. symmetry. apply view_totals_perm.
Qed.
End ConsistentNames.

(** X15. When no student has two records from the same file and every
    identifier is read with one name only, the two views agree: every
    exam-wise row has the identifier, name, cumulative total and rank of a row
    of the cumulative ranking, and the two views have the same number of
    rows. *)
Theorem views_agree (all_data : DataFrame)
    (one_per_file : NoDup (map (fun r => (index_of r, Source_File r)) all_data))
    (one_name : forall r r', In r all_data -> In r' all_data ->
                             Enrollment_No r = Enrollment_No r' -> Name r = Name r') :
  Forall (fun erow =>
            exists crow,
              In crow (calculate_cumulative_rankings all_data) /\
              c_Enrollment_No crow = e_Enrollment_No erow /\
              c_Name crow = e_Name erow /\
              Cumulative_Total crow = e_Cumulative_Total erow /\
              Rank crow = e_Rank erow)
    (create_exam_wise_view all_data) /\
  List.length (create_exam_wise_view all_data)
  = List.length (calculate_cumulative_rankings all_data).
Proof.
  split.
  - apply Forall_forall. intros erow. apply views_agree_rows; assumption.
  - rewrite <- (length_map e_Cumulative_Total), <- (length_map Cumulative_Total).
    apply Permutation_length, view_totals_perm; assumption.
Qed.

Lemma views_agree_witness :
  let all_data := [present_record "a.pdf" "231430142054" "ASHA" (29, 24, 53);
                   present_record "a.pdf" "231430142055" "RAVI" (30, 25, 55);
                   present_record "b.pdf" "231430142054" "ASHA" (20, 21, 41)] in
  Forall (fun erow =>
            exists crow,
              In crow (calculate_cumulative_rankings all_data) /\
              c_Enrollment_No crow = e_Enrollment_No erow /\
              c_Name crow = e_Name erow /\
              Cumulative_Total crow = e_Cumulative_Total erow /\
              Rank crow = e_Rank erow)
    (create_exam_wise_view all_data) /\
  List.length (create_exam_wise_view all_data)
  = List.length (calculate_cumulative_rankings all_data).
Proof.
  intros all_data. apply (views_agree all_data).
  - repeat constructor; simpl; intuition discriminate.
  - intros r r' Hr Hr' Hid. simpl in Hr, Hr'.
    destruct Hr as [<-|[<-|[<-|[]]]]; destruct Hr' as [<-|[<-|[<-|[]]]];
      first [reflexivity | discriminate Hid].
Defined.

(** ** From the uploaded files to the ranking *)

Lemma batch_frame_well_formed uploaded_files all_data :
  process_multiple_pdfs uploaded_files = Returns all_data ->
  Forall (fun r => In (Source_File r) (map name uploaded_files) /\ well_formed r) all_data.
Proof.
  rewrite process_multiple_pdfs_concat. intros [= <-].
  apply Forall_forall. intros r Hr. apply in_concat in Hr as (df & Hdf & Hr).
  apply in_map_iff in Hdf as (f & <- & Hf).
  apply document_records_well_formed in Hr as [Hs Hw]. split; [|exact Hw].
  rewrite Hs. apply in_map, Hf.
Qed.

(** X16. In the ranking computed from the combined frame of a batch, the
    exam count of every student is at least 1 and at most the number of
    uploaded files (the "Total Exams" metric), the cumulative total is not
    negative, and the two section totals together are within one mark per
    record of the cumulative total. *)
Theorem ranking_of_batch_consistent (uploaded_files : list UploadedFile)
    (all_data : DataFrame)
    (Hbatch : process_multiple_pdfs uploaded_files = Returns all_data) :
  Forall (fun row =>
            let n := Z.of_nat (List.length
                       (filter (fun r => String.eqb (Enrollment_No r) (c_Enrollment_No row))
                          all_data)) in
            1 <= Exam_Count row <= Z.of_nat (List.length uploaded_files) /\
            Exam_Count row <= n /\
            0 <= Cumulative_Total row <= 99 * n /\
            Z.abs (Total_Section_A row + Total_Section_B row - Cumulative_Total row) <= n)
    (calculate_cumulative_rankings all_data).
Proof.
  pose proof (batch_frame_well_formed _ _ Hbatch) as Hall.
  assert (Hwf : Forall well_formed all_data).
  { eapply Forall_impl; [|exact Hall]. intros r [_ H]. exact H. }
  apply Forall_forall. intros row Hrow.
  pose proof (cumulative_rows_shape all_data row Hrow) as (Hid & rank & Hshape).
  set (id := c_Enrollment_No row) in *. cbv zeta. fold (group_of id all_data).
  assert (Hg : Forall well_formed (group_of id all_data)).
  { apply Forall_forall. intros r Hr. apply filter_In in Hr as [Hr _].
    rewrite Forall_forall in Hwf. apply Hwf, Hr. }
  pose proof (well_formed_sums _ Hg) as [Ht Hs].
  rewrite Hshape.
  cbn [cumulative_row_of Exam_Count Cumulative_Total Total_Section_A Total_Section_B agg
         g_Cumulative_Total g_Total_Section_A g_Total_Section_B g_Source_Files].
  rewrite !agg_sum_fold_right. fold (total_of Total_Marks (group_of id all_data)).
  fold (total_of Section_A (group_of id all_data)).
  fold (total_of Section_B (group_of id all_data)).
  pose proof (unique_length_le String.eqb (map Source_File (group_of id all_data))) as Hle.
  rewrite length_map in Hle.
  assert (Hne : map Source_File (group_of id all_data) <> []).
  { pose proof (group_of_nonempty all_data id Hid). destruct (group_of id all_data);
      [congruence|discriminate]. }
  pose proof (unique_nonempty String.eqb _ Hne) as Hge.
  assert (Hfiles : (List.length (unique String.eqb (map Source_File (group_of id all_data)))
                    <= List.length uploaded_files)%nat).
  { rewrite <- (length_map name uploaded_files).
    apply NoDup_incl_length; [apply unique_NoDup, String.eqb_eq|].
    intros d Hd. apply (proj1 (unique_In String.eqb String.eqb_eq d _)) in Hd.
    apply in_map_iff in Hd as (r & <- & Hr). apply filter_In in Hr as [Hr _].
    rewrite Forall_forall in Hall. apply (Hall r Hr). }
  repeat split; lia.
Qed.

Lemma ranking_of_batch_consistent_witness :
  let uploaded_files :=
    [mk_file "a.pdf" (Returns [Returns (Some "231430142054 CSE(AIML) D1 ASHA RAO GEN 29 24 53")]);
     mk_file "b.pdf" Raises] in
  let all_data := [present_record "a.pdf" "231430142054" "ASHA" (29, 24, 53)] in
  Forall (fun row =>
            let n := Z.of_nat (List.length
                       (filter (fun r => String.eqb (Enrollment_No r) (c_Enrollment_No row))
                          all_data)) in
            1 <= Exam_Count row <= Z.of_nat (List.length uploaded_files) /\
            Exam_Count row <= n /\
            0 <= Cumulative_Total row <= 99 * n /\
            Z.abs (Total_Section_A row + Total_Section_B row - Cumulative_Total row) <= n)
    (calculate_cumulative_rankings all_data).
Proof.
  intros uploaded_files all_data.
  exact (ranking_of_batch_consistent uploaded_files all_data eq_refl).
Defined.

(** ** The order of the uploaded files *)

Lemma filter_perm {A : Type} (p : A -> bool) (l l' : list A) :
  Permutation l l' -> Permutation (filter p l) (filter p l').
Proof.
  induction 1 as [|x l l' _ IH|x y l|l l' l'' _ IH1 _ IH2]; cbn [filter].
  - constructor.
  - destruct (p x); [constructor|]; exact IH.
  - destruct (p x), (p y); try reflexivity. apply perm_swap.
  - etransitivity; eassumption.
Qed.

Lemma concat_map_perm {A B : Type} (f : A -> list B) (l l' : list A) :
  Permutation l l' -> Permutation (List.concat (map f l)) (List.concat (map f l')).
Proof.
  induction 1 as [|x l l' _ IH|x y l|l l' l'' _ IH1 _ IH2]; cbn [map List.concat].
  - constructor.
  - apply Permutation_app_head, IH.
  - rewrite !app_assoc. apply Permutation_app_tail, Permutation_app_comm.
  - etransitivity; eassumption.
Qed.

Section Reordered.
Variables all_data all_data' : DataFrame.
Hypothesis reordered : Permutation all_data all_data'.

Lemma group_sum_perm (f : record -> Z) key :
  agg_sum f (group_of key all_data) = agg_sum f (group_of key all_data').
Proof.
  rewrite !agg_sum_fold_right. apply (total_of_perm f). apply filter_perm, reordered.
Qed.

Lemma group_sources_perm key :
  List.length (unique String.eqb (map Source_File (group_of key all_data)))
  = List.length (unique String.eqb (map Source_File (group_of key all_data'))).
Proof.
  apply Permutation_length, NoDup_Permutation; try (apply unique_NoDup, String.eqb_eq).
  intros d. rewrite !(unique_In String.eqb String.eqb_eq).
  pose proof (Permutation_map Source_File (filter_perm
                (fun r => String.eqb (Enrollment_No r) key) _ _ reordered)) as Hp.
  split; apply Permutation_in; [|symmetry]; exact Hp.
Qed.

Lemma group_keys_reordered : Permutation (group_keys all_data) (group_keys all_data').
Proof.
  apply NoDup_Permutation; try apply group_keys_NoDup.
  intros x. rewrite !group_keys_In.
  split; apply Permutation_in; [|symmetry]; apply Permutation_map, reordered.
Qed.

Lemma ranking_totals_reordered :
  Permutation (map Cumulative_Total (calculate_cumulative_rankings all_data))
    (map Cumulative_Total (calculate_cumulative_rankings all_data')).
Proof.
  rewrite !cumulative_rankings_ranked.
  assert (He : empty all_data = empty all_data').
  { pose proof (Permutation_length reordered) as Hlen.
    destruct all_data, all_data'; simpl in Hlen; try discriminate; reflexivity. }
  rewrite <- He. destruct (empty all_data); [reflexivity|].
  rewrite !(ranked_totals cumulative_row_of Cumulative_Total Rank g_Cumulative_Total)
    by reflexivity.
  unfold groupby_agg. rewrite !map_map. cbn [agg g_Cumulative_Total].
  rewrite (map_ext _ _ (group_sum_perm Total_Marks)).
  apply Permutation_map, group_keys_reordered.
Qed.

Lemma ranking_rows_reordered row :
  In row (calculate_cumulative_rankings all_data) ->
  exists row',
    In row' (calculate_cumulative_rankings all_data') /\
    c_Enrollment_No row' = c_Enrollment_No row /\
    Cumulative_Total row' = Cumulative_Total row /\
    Total_Section_A row' = Total_Section_A row /\
    Total_Section_B row' = Total_Section_B row /\
    Exam_Count row' = Exam_Count row /\
    Average_per_Exam row' = Average_per_Exam row /\
    Rank row' = Rank row.
Proof.
  intros Hrow.
  pose proof (cumulative_rankings_above all_data) as Ha. rewrite Forall_forall in Ha.
  specialize (Ha row Hrow).
  apply cumulative_rows_shape in Hrow as (Hid & rank & Hshape).
  assert (Hid' : In (c_Enrollment_No row) (map Enrollment_No all_data')).
  { eapply Permutation_in; [apply Permutation_map, reordered|exact Hid]. }
  apply cumulative_rankings_ids in Hid'. apply in_map_iff in Hid' as (row' & Heq & Hrow').
  pose proof (cumulative_rankings_above all_data') as Ha'. rewrite Forall_forall in Ha'.
  specialize (Ha' row' Hrow').
  exists row'. split; [exact Hrow'|]. split; [exact Heq|].
  apply cumulative_rows_shape in Hrow' as (_ & rank' & Hshape'). rewrite Heq in Hshape'.
  set (id := c_Enrollment_No row) in *.
  assert (Ht : Cumulative_Total row' = Cumulative_Total row).
  { rewrite Hshape, Hshape'. cbn [cumulative_row_of Cumulative_Total agg g_Cumulative_Total].
    symmetry. apply group_sum_perm. }
  assert (Hc : Exam_Count row' = Exam_Count row).
  { rewrite Hshape, Hshape'. cbn [cumulative_row_of Exam_Count agg g_Source_Files].
    f_equal. symmetry. apply group_sources_perm. }
  split; [exact Ht|]. repeat split.
  - rewrite Hshape, Hshape'. cbn [cumulative_row_of Total_Section_A agg g_Total_Section_A].
    symmetry. apply group_sum_perm.
  - rewrite Hshape, Hshape'. cbn [cumulative_row_of Total_Section_B agg g_Total_Section_B].
    symmetry. apply group_sum_perm.
  - exact Hc.
  - rewrite Hshape, Hshape'.
    cbn [cumulative_row_of Average_per_Exam agg g_Cumulative_Total g_Source_Files].
    rewrite (group_sum_perm Total_Marks id), (group_sources_perm id). reflexivity.
  - rewrite Ha, Ha', Ht. f_equal. apply above_perm. symmetry. apply ranking_totals_reordered.
Qed.
End Reordered.

(** X17. The order in which the files are uploaded does not change the
    ranking: two batches with the same files in a different order give
    combined frames with the same records, and every identifier gets the same
    cumulative total, section totals, exam count, average and rank in
    both. *)
Theorem ranking_independent_of_upload_order (uploaded_files uploaded_files' : list UploadedFile)
    (Hperm : Permutation uploaded_files uploaded_files') :
  exists all_data all_data',
    process_multiple_pdfs uploaded_files = Returns all_data /\
    process_multiple_pdfs uploaded_files' = Returns all_data' /\
    Permutation all_data all_data' /\
    Forall (fun row =>
              exists row',
                In row' (calculate_cumulative_rankings all_data') /\
                c_Enrollment_No row' = c_Enrollment_No row /\
                Cumulative_Total row' = Cumulative_Total row /\
                Total_Section_A row' = Total_Section_A row /\
                Total_Section_B row' = Total_Section_B row /\
                Exam_Count row' = Exam_Count row /\
                Average_per_Exam row' = Average_per_Exam row /\
                Rank row' = Rank row)
      (calculate_cumulative_rankings all_data).
Proof.
  exists (List.concat (map document_records uploaded_files)),
         (List.concat (map document_records uploaded_files')).
  pose proof (concat_map_perm document_records _ _ Hperm) as Hdata.
  split; [apply process_multiple_pdfs_concat|].
  split; [apply process_multiple_pdfs_concat|]. split; [exact Hdata|].
  apply Forall_forall. intros row. apply ranking_rows_reordered, Hdata.
Qed.

Lemma ranking_independent_of_upload_order_witness :
  let f1 := mk_file "a.pdf"
              (Returns [Returns (Some "231430142054 CSE(AIML) D1 ASHA RAO GEN 29 24 53")]) in
  let f2 := mk_file "b.pdf"
              (Returns [Returns (Some "231430142055 CSE(AIML) D1 RAVI DAS GEN 30 25 55")]) in
  exists all_data all_data',
    process_multiple_pdfs [f1; f2] = Returns all_data /\
    process_multiple_pdfs [f2; f1] = Returns all_data' /\
    Permutation all_data all_data' /\
    Forall (fun row =>
              exists row',
                In row' (calculate_cumulative_rankings all_data') /\
                c_Enrollment_No row' = c_Enrollment_No row /\
                Cumulative_Total row' = Cumulative_Total row /\
                Total_Section_A row' = Total_Section_A row /\
                Total_Section_B row' = Total_Section_B row /\
                Exam_Count row' = Exam_Count row /\
                Average_per_Exam row' = Average_per_Exam row /\
                Rank row' = Rank row)
      (calculate_cumulative_rankings all_data).
Proof.
  intros f1 f2.
  apply (ranking_independent_of_upload_order [f1; f2] [f2; f1]). apply perm_swap.
Defined.

(** ** How many records a page gives *)

Lemma line_step_no_identifier file_name lines i line :
  has_identifier line = false -> line_step file_name lines [] i line = [].
Proof.
  unfold has_identifier, line_step. destruct (enrollment_search line); [discriminate|].
  reflexivity.
Qed.

(** X18. A page gives at most one record per line that bears an identifier,
    and so no more records than it has lines; a page on which no line bears
    an identifier gives no record. *)
Theorem records_bounded_by_identifier_lines (file_name : string) (lines : list string) :
  let records := lines_loop file_name lines [] 0 lines in
  (List.length records <= List.length (filter has_identifier lines))%nat /\
  (List.length (filter has_identifier lines) <= List.length lines)%nat /\
  ((forall line, In line lines -> enrollment_search line = None) -> records = []).
Proof.
  assert (Hgen : forall todo i,
             (List.length (flat_map (line_records file_name lines)
                             (combine (seq i (List.length todo)) todo))
              <= List.length (filter has_identifier todo))%nat).
  { induction todo as [|line rest IH]; intros i; [simpl; lia|].
    cbn [List.length seq combine flat_map filter]. rewrite length_app.
    specialize (IH (S i)). unfold line_records at 1. cbn [fst snd].
    destruct (has_identifier line) eqn:E.
    - pose proof (line_step_length file_name lines i line). cbn [List.length]. lia.
    - rewrite (line_step_no_identifier _ _ _ _ E). simpl. exact IH. }
  intros records. subst records. rewrite lines_loop_flat_map. cbn [app].
  split; [apply Hgen|]. split; [apply filter_length_le|].
  intros Hnone. specialize (Hgen lines 0%nat).
  rewrite (filter_none has_identifier lines) in Hgen.
  - destruct (flat_map _ _); [reflexivity|simpl in Hgen; lia].
  - intros line Hline. unfold has_identifier. rewrite (Hnone line Hline). reflexivity.
Qed.

(** ** A file uploaded twice *)

Lemma unique_length_app_self {A : Type} (eqb : A -> A -> bool)
    (eqb_eq : forall x y, eqb x y = true <-> x = y) (l : list A) :
  List.length (unique eqb (l ++ l)) = List.length (unique eqb l).
Proof.
  apply Permutation_length, NoDup_Permutation; try (apply unique_NoDup, eqb_eq).
  intros x. rewrite !(unique_In eqb eqb_eq), in_app_iff. tauto.
Qed.

(** X19. Nothing removes repeated records: when the records of a frame all
    occur a second time, as when a file is uploaded twice, every identifier
    keeps its exam count while its cumulative total doubles. *)
Theorem duplicated_frame_doubles_totals (all_data : DataFrame) :
  Forall (fun row =>
            exists row0,
              In row0 (calculate_cumulative_rankings all_data) /\
              c_Enrollment_No row0 = c_Enrollment_No row /\
              Exam_Count row = Exam_Count row0 /\
              Cumulative_Total row = 2 * Cumulative_Total row0)
    (calculate_cumulative_rankings (all_data ++ all_data)).
Proof.
  apply Forall_forall. intros row Hrow.
  apply cumulative_rows_shape in Hrow as (Hid & rank & Hshape).
  assert (Hid0 : In (c_Enrollment_No row) (map Enrollment_No all_data)).
  { rewrite map_app in Hid. apply in_app_iff in Hid. tauto. }
  apply cumulative_rankings_ids in Hid0. apply in_map_iff in Hid0 as (row0 & Heq & Hrow0).
  exists row0. split; [exact Hrow0|]. split; [exact Heq|].
  apply cumulative_rows_shape in Hrow0 as (_ & rank0 & Hshape0). rewrite Heq in Hshape0.
  set (id := c_Enrollment_No row) in *. rewrite Hshape, Hshape0.
  cbn [cumulative_row_of Exam_Count Cumulative_Total agg g_Cumulative_Total g_Source_Files].
  unfold group_of. rewrite filter_app, map_app. split.
  - f_equal. apply unique_length_app_self, String.eqb_eq.
  - rewrite !agg_sum_fold_right.
    change (total_of Total_Marks
              (filter (fun r => String.eqb (Enrollment_No r) id) all_data
               ++ filter (fun r => String.eqb (Enrollment_No r) id) all_data)
            = 2 * total_of Total_Marks
                    (filter (fun r => String.eqb (Enrollment_No r) id) all_data)).
    rewrite total_of_app. lia.
Qed.

(** ** The average *)

(** X20. For a cumulative total from 0 to 400 and an exam count from 1 to
    12 the stored average equals, as a float, the exact quotient rounded to
    hundredths with ties to even, divided by 100. *)
Theorem average_is_exact_rounding (total count : Z)
    (Htotal : 0 <= total <= 400) (Hcount : 1 <= count <= 12) :
  PrimFloat.eqb
    (round2 (PrimFloat.div (float_of_Z total) (float_of_Z count)))
    (PrimFloat.div (float_of_Z (half_even (100 * total) count)) (float_of_Z 100))
  = true.
Proof.
  pose proof round2_half_even_small as Hall.
  rewrite forallb_forall in Hall.
  assert (Hc : In count (map Z.of_nat (seq 1 12))).
  { apply in_map_iff. exists (Z.to_nat count). split; [lia|]. apply in_seq. lia. }
  specialize (Hall count Hc). rewrite forallb_forall in Hall.
  assert (Ht : In total (map Z.of_nat (seq 0 401))).
  { apply in_map_iff. exists (Z.to_nat total). split; [lia|]. apply in_seq. lia. }
  exact (Hall total Ht).
Qed.

Lemma average_is_exact_rounding_witness :
  PrimFloat.eqb
    (round2 (PrimFloat.div (float_of_Z 100) (float_of_Z 3)))
    (PrimFloat.div (float_of_Z (half_even (100 * 100) 3)) (float_of_Z 100))
  = true.
Proof.
  apply (average_is_exact_rounding 100 3); lia.
Defined.
